(** * ConfigPatch and UpdatePolicy of the pcluster command line

    A shallow embedding of [cli/pcluster/config/update_policy.py],
    [cli/pcluster/config/config_patch.py] and
    [cli/pcluster/update/update_command.py]: the update policies attached
    to configuration parameters, the adaptation of a base configuration to
    a target one, their comparison into a list of changes, the check of
    those changes against a live stack, and the command that asks for the
    user's consent before it updates the stack. *)

From Stdlib Require Import ZArith String Ascii Permutation Sorted.
From stdpp Require Import base list strings pretty gmap sets.

Open Scope Z_scope.
Open Scope string_scope.

(** ** Python values and exceptions *)

(** A parameter value is a scalar: [None], a string, an integer or a boolean. *)
Inductive value : Type :=
  | VNone
  | VStr (s : string)
  | VInt (z : Z)
  | VBool (b : bool).

Definition Z_of_bool (b : bool) : Z := if b then 1 else 0.

(** Python's [==] on scalars; [bool] is a subclass of [int]. *)
Definition py_eq (a b : value) : bool :=
  match a, b with
  | VNone, VNone => true
  | VStr s, VStr t => String.eqb s t
  | VInt x, VInt y => Z.eqb x y
  | VBool x, VBool y => Bool.eqb x y
  | VInt x, VBool y => Z.eqb x (Z_of_bool y)
  | VBool x, VInt y => Z.eqb (Z_of_bool x) y
  | _, _ => false
  end.

Definition py_ne (a b : value) : bool := negb (py_eq a b).

Inductive exn : Type :=
  | AttributeError (attr : string)
  | Exception (msg : string).

(** The result of a call that may raise. *)
Inductive outcome (A : Type) : Type :=
  | Ok (a : A)
  | Raise (e : exn).
Arguments Ok {A} a.
Arguments Raise {A} e.

#[global] Instance outcome_ret : MRet outcome := fun A a => Ok a.
#[global] Instance outcome_bind : MBind outcome := fun A B f m =>
  match m with
  | Ok a => f a
  | Raise e => Raise e
  end.

Definition is_Ok {A : Type} (m : outcome A) : bool :=
  match m with Ok _ => true | Raise _ => false end.

(** A [for] loop whose body may raise: the first exception leaves the loop. *)
Fixpoint for_each {A S : Type} (body : S -> A -> outcome S) (l : list A) (s : S)
  : outcome S :=
  match l with
  | [] => Ok s
  | a :: l' => s' ← body s a; for_each body l' s'
  end.

(** ** Strings *)

Definition nl : string := String (ascii_of_nat 10) EmptyString.

(** Truth value of an optional string ([None] and [""] are false). *)
Definition str_truthy (o : option string) : bool :=
  match o with
  | Some s => negb (String.eqb s "")
  | None => false
  end.

(** [s.replace(old, new)]: every occurrence of [old], found from the left
    and without overlap, becomes [new]. [skip] counts the characters of a
    match that are still to be dropped. *)
Fixpoint replace_from (skip : nat) (old new s : string) : string :=
  match s with
  | EmptyString => EmptyString
  | String c s' =>
      match skip with
      | S k => replace_from k old new s'
      | O =>
          if String.prefix old s
          then new +:+ replace_from (String.length old - 1) old new s'
          else String c (replace_from 0 old new s')
      end
  end.

Fixpoint intersperse_str (new s : string) : string :=
  match s with
  | EmptyString => new
  | String c s' => new +:+ String c (intersperse_str new s')
  end.

Definition replace (old new s : string) : string :=
  match old with
  | EmptyString => intersperse_str new s
  | _ => replace_from 0 old new s
  end.

(** [sep.join(l)] *)
Fixpoint join (sep : string) (l : list string) : string :=
  match l with
  | [] => ""
  | [x] => x
  | x :: l' => x +:+ sep +:+ join sep l'
  end.

(** [sorted] on strings: insertion sort by code points. *)
Fixpoint insert_sorted (x : string) (l : list string) : list string :=
  match l with
  | [] => [x]
  | y :: l' => if String.leb x y then x :: l else y :: insert_sorted x l'
  end.

Definition sorted (l : list string) : list string :=
  foldr insert_sorted [] l.

(** ** UpdatePolicy *)

Module UpdatePolicy.

Inductive CheckResult : Type := SUCCEEDED | ACTION_NEEDED | FAILED.

(** [CheckResult.value] *)
Definition CheckResult_value (r : CheckResult) : string :=
  match r with
  | SUCCEEDED => "SUCCEEDED"
  | ACTION_NEEDED => "ACTION NEEDED"
  | FAILED => "FAILED"
  end.

Definition CheckResult_eqb (a b : CheckResult) : bool :=
  match a, b with
  | SUCCEEDED, SUCCEEDED | ACTION_NEEDED, ACTION_NEEDED | FAILED, FAILED => true
  | _, _ => false
  end.

(** A condition checker queries the live stack: it answers or raises. *)
Definition checker : Type := string -> outcome bool.

Record t : Type := mk {
  fail_reason : option string;
  action_needed : option string;
  condition_checker : option checker;
  level : Z
}.

Definition Z_truthy (o : option Z) : bool :=
  match o with
  | Some z => negb (Z.eqb z 0)
  | None => false
  end.

(** [UpdatePolicy.__init__]: the fields of [base_policy], each overridden
    by the argument given for it when that argument is true. *)
Definition init (base_policy : option t) (lvl : option Z)
    (reason action : option string) (chk : option checker) : t :=
  let fr0 := match base_policy with Some b => fail_reason b | None => None end in
  let an0 := match base_policy with Some b => action_needed b | None => None end in
  let cc0 := match base_policy with Some b => condition_checker b | None => None end in
  let lv0 := match base_policy with Some b => level b | None => 0 end in
  {| level := if Z_truthy lvl then default 0 lvl else lv0;
     fail_reason := if str_truthy reason then reason else fr0;
     action_needed := if str_truthy action then action else an0;
     condition_checker := match chk with Some c => Some c | None => cc0 end |}.

(** [UpdatePolicy.check] *)
Definition check (self : t) (stack_name : string) : outcome CheckResult :=
  match condition_checker self with
  | Some c =>
      b ← c stack_name;
      Ok (if b : bool then SUCCEEDED else ACTION_NEEDED)
  | None => Ok FAILED
  end.

Definition opt_str_eqb (a b : option string) : bool :=
  match a, b with
  | Some x, Some y => String.eqb x y
  | None, None => true
  | _, _ => false
  end.

(** [UpdatePolicy.__eq__] *)
Definition eqb (self other : t) : bool :=
  opt_str_eqb (fail_reason self) (fail_reason other)
  && Z.eqb (level self) (level other).

(** [!=], the negation of [__eq__] *)
Definition neb (self other : t) : bool := negb (eqb self other).

(** Base policies *)
Definition IGNORED : t :=
  init None (Some (-10)) None None (Some (fun _ => Ok true)).
Definition ALLOWED : t :=
  init None (Some 0) None None (Some (fun _ => Ok true)).
Definition UNKNOWN : t :=
  init None (Some 100) (Some "Update currently not supported")
    (Some "Restore the previous parameter value for the unsupported changes.")
    None.
Definition DENIED : t :=
  init None (Some 1000) (Some "Update currently unsupported")
    (Some "Restore the previous parameter value for the unsupported changes.")
    None.

Definition stop_the_cluster : string :=
  "Stop the cluster with the following command: " +:+ nl
    +:+ "pcluster stop -c $CONFIG_FILE $CLUSTER_NAME".

(** The policies whose checkers query the live stack through [pcluster.utils]. *)
Section LiveQueries.
Variable get_asg_instances : string -> outcome (list string).
Variable get_master_server_state : string -> outcome string.

Definition COMPUTE_FLEET_RESTART : t :=
  init None (Some 10) (Some "Compute fleet must be empty")
    (Some stop_the_cluster)
    (Some (fun stack_name =>
             l ← get_asg_instances stack_name;
             Ok (Nat.eqb (length l) 0))).

Definition MASTER_RESTART : t :=
  init None (Some 20) (Some "Master node must be down")
    (Some stop_the_cluster)
    (Some (fun stack_name =>
             s ← get_master_server_state stack_name;
             Ok (String.eqb s "stopped"))).
End LiveQueries.

End UpdatePolicy.

(** ** Parameters, sections and configurations *)

Definition scalar : Type := value.

Module Param.
Record t : Type := mk {
  key : string;
  value : value;
  update_policy : UpdatePolicy.t;
  referred_section_key : option string
}.

Definition set_value (p : t) (v : scalar) : t :=
  {| key := key p; value := v; update_policy := update_policy p;
     referred_section_key := referred_section_key p |}.
End Param.

Module Sect.
(** What a section type declares: its key, the parameter that identifies
    an instance (if any), and its parameters at their default values. *)
Record definition : Type := mk_definition {
  def_key : string;
  def_key_param : option string;
  def_params : list Param.t
}.

Record t : Type := mk {
  defn : definition;
  label : string;
  params : list Param.t;
  mock : bool
}.

Definition key (s : t) : string := def_key (defn s).
Definition key_param (s : t) : option string := def_key_param (defn s).

Definition set_label (s : t) (l : string) : t :=
  {| defn := defn s; label := l; params := params s; mock := mock s |}.
Definition set_params (s : t) (ps : list Param.t) : t :=
  {| defn := defn s; label := label s; params := ps; mock := mock s |}.

(** Modelled from the spec: the accessors of a section (the section
    classes are not among the sources). A section maps parameter keys to
    parameters; [get_param] answers [None] for a key it does not hold,
    as the test [if param and ...] of [_get_target_section_by_param]
    expects. *)
Definition get_param (s : t) (k : string) : option Param.t :=
  List.find (fun p => String.eqb (Param.key p) k) (params s).

Definition get_param_value (s : t) (k : string) : value :=
  match get_param s k with
  | Some p => Param.value p
  | None => VNone
  end.

(** Is the section the one of key [k] and label [l]? *)
Definition at_slot (k l : string) (s : t) : bool :=
  String.eqb (key s) k && String.eqb (label s) l.
End Sect.

Module PclusterConfig.
(** Modelled from the spec: the configuration object (pcluster_config.py
    is not among the sources). A configuration is an ordered collection of
    sections, grouped by section key and addressed by (key, label); it
    exposes the keys present, the sections of a key, the lookup of one
    section, and the addition and removal of a section. [config_file] and
    [cluster_name] are the constructor arguments of update_command.py. *)
Record t : Type := mk {
  config_file : string;
  cluster_name : string;
  sections : list Sect.t
}.

Definition with_sections (c : t) (l : list Sect.t) : t :=
  {| config_file := config_file c; cluster_name := cluster_name c; sections := l |}.

Fixpoint dedup_keys (l : list string) : list string :=
  match l with
  | [] => []
  | k :: l' => k :: List.filter (fun k' => negb (String.eqb k' k)) (dedup_keys l')
  end.

Definition get_section_keys (c : t) : list string :=
  dedup_keys (map Sect.key (sections c)).

Definition get_sections (c : t) (k : string) : list Sect.t :=
  List.filter (fun s => String.eqb (Sect.key s) k) (sections c).

(** [get_section(key, label)]; without a label, the first section of the key. *)
Definition get_section (c : t) (k : string) (l : option string) : option Sect.t :=
  match l with
  | Some l => List.find (Sect.at_slot k l) (sections c)
  | None => head (get_sections c k)
  end.

(** The labels of the sections of key [k] that are not marked mock,
    sorted and joined by commas: the value of a settings parameter. *)
Definition settings_value (l : list Sect.t) (k : string) : value :=
  VStr (join ","
    (sorted (map Sect.label
       (List.filter (fun s => String.eqb (Sect.key s) k && negb (Sect.mock s)) l)))).

Definition refresh_param (l : list Sect.t) (p : Param.t) : Param.t :=
  match Param.referred_section_key p with
  | Some k => Param.set_value p (settings_value l k)
  | None => p
  end.

Definition refresh_section (l : list Sect.t) (s : Sect.t) : Sect.t :=
  Sect.set_params s (map (refresh_param l) (Sect.params s)).

(** Modelled from the spec: every structural change of a configuration
    (a section added, removed or relabelled) recomputes the settings
    parameters, as tests/pcluster/config/test_runtime.py exercises. *)
Definition refresh (c : t) : t :=
  with_sections c (map (refresh_section (sections c)) (sections c)).

Fixpoint add_raw (s : Sect.t) (l : list Sect.t) : list Sect.t :=
  match l with
  | [] => [s]
  | x :: l' =>
      if Sect.at_slot (Sect.key s) (Sect.label s) x then s :: l'
      else x :: add_raw s l'
  end.

(** [add_section]: the section takes the place of the one of its key and
    label, or comes last. *)
Definition add_section (c : t) (s : Sect.t) : t :=
  refresh (with_sections c (add_raw s (sections c))).

Definition remove_labelled (c : t) (k l : string) : t :=
  refresh (with_sections c
    (List.filter (fun s => negb (Sect.at_slot k l s)) (sections c))).

(** [remove_section(key, label)]; without a label it removes the section
    of the key and refuses a key that has several. *)
Definition remove_section (c : t) (k : string) (l : option string) : outcome t :=
  match l with
  | Some l => Ok (remove_labelled c k l)
  | None =>
      if Nat.ltb 1 (length (get_sections c k))
      then Raise (Exception ("More than one section with key " +:+ k))
      else Ok (refresh (with_sections c
                 (List.filter (fun s => negb (String.eqb (Sect.key s) k)) (sections c))))
  end.

(** [section.label = new] for the section at (k, old): a section already
    at (k, new) gives way to it. *)
Definition set_label (c : t) (k old new : string) : t :=
  if String.eqb old new then refresh c
  else
    refresh (with_sections c
      (map (fun s => if Sect.at_slot k old s then Sect.set_label s new else s)
         (List.filter (fun s => negb (Sect.at_slot k new s)) (sections c)))).
End PclusterConfig.

(** ** ConfigPatch *)

Record Change : Type := mkChange {
  section_key : string;
  section_label : string;
  param_key : string;
  old_value : value;
  new_value : value;
  update_policy : UpdatePolicy.t
}.

Fixpoint insert_by_label (s : Sect.t) (l : list Sect.t) : list Sect.t :=
  match l with
  | [] => [s]
  | y :: l' =>
      if String.leb (Sect.label s) (Sect.label y) then s :: l
      else y :: insert_by_label s l'
  end.

(** [sorted(sections.items())]: the sections by label. *)
Definition sorted_sections (l : list Sect.t) : list Sect.t :=
  foldr insert_by_label [] l.

Module ConfigPatch.

Definition IGNORED_SECTIONS : list string := ["global"; "aliases"].

(** The patch object: its own copies of the two configurations and the
    changes found. *)
Record t : Type := mk {
  base_config : PclusterConfig.t;
  target_config : PclusterConfig.t;
  changes : list Change
}.

Definition with_base (self : t) (c : PclusterConfig.t) : t :=
  {| base_config := c; target_config := target_config self; changes := changes self |}.
Definition with_target (self : t) (c : PclusterConfig.t) : t :=
  {| base_config := base_config self; target_config := c; changes := changes self |}.

Definition _remove_ignored_sections (config : PclusterConfig.t)
  : outcome PclusterConfig.t :=
  for_each (fun c section_key => PclusterConfig.remove_section c section_key None)
    IGNORED_SECTIONS config.

(** The label [_key], [_key1], [_key2], ... of the i-th section of a key. *)
Definition new_lbl (section_key : string) (i : nat) : string :=
  "_" +:+ section_key +:+ (if Nat.ltb 0 i then pretty i else "").

Definition _rename_base_sections (self : t) : t :=
  with_base self
    (fold_left
       (fun base section_key =>
          snd (fold_left
                 (fun '(i, b) base_section =>
                    (S i, PclusterConfig.set_label b section_key
                            (Sect.label base_section) (new_lbl section_key i)))
                 (sorted_sections (PclusterConfig.get_sections base section_key))
                 (O, base)))
       (PclusterConfig.get_section_keys (base_config self))
       (base_config self)).

(** The section built by [_create_default_section]: the type and label of
    [section], its parameters at their defaults, marked mock when the
    type has a key parameter. *)
Definition default_section (section : Sect.t) : Sect.t :=
  {| Sect.defn := Sect.defn section;
     Sect.label := Sect.label section;
     Sect.params := Sect.def_params (Sect.defn section);
     Sect.mock := str_truthy (Sect.key_param section) |}.

Definition _create_default_section (config : PclusterConfig.t) (section : Sect.t)
  : PclusterConfig.t * Sect.t :=
  let mock_section := default_section section in
  (PclusterConfig.add_section config mock_section, mock_section).

Definition _get_target_section_by_param (self : t)
    (section_key param_key : string) (param_value : value) : option Sect.t :=
  List.find
    (fun s => match Sect.get_param s param_key with
              | Some param => py_eq (Param.value param) param_value
              | None => false
              end)
    (PclusterConfig.get_sections (target_config self) section_key).

Definition _get_target_section (self : t) (base_section : Sect.t) : t * Sect.t :=
  let section :=
    match Sect.key_param base_section with
    | Some key_param =>
        if str_truthy (Some key_param) then
          _get_target_section_by_param self (Sect.key base_section) key_param
            (Sect.get_param_value base_section key_param)
        else
          match PclusterConfig.get_sections (target_config self) (Sect.key base_section) with
          | [s] => Some s
          | _ => None
          end
    | None =>
        match PclusterConfig.get_sections (target_config self) (Sect.key base_section) with
        | [s] => Some s
        | _ => None
        end
    end in
  match section with
  | Some s => (self, s)
  | None =>
      let '(c, s) := _create_default_section (target_config self) base_section in
      (with_target self c, s)
  end.

Definition _get_base_section (self : t) (target_section : Sect.t) : t * Sect.t :=
  match PclusterConfig.get_section (base_config self)
          (Sect.key target_section) (Some (Sect.label target_section)) with
  | Some s => (self, s)
  | None =>
      let '(c, s) := _create_default_section (base_config self) target_section in
      (with_base self c, s)
  end.

(** One turn of the first loop of [_adapt]: the base section found at the
    label the iteration reached is matched and takes its partner's label. *)
Definition match_base_section (section_key : string) (self : t) (snapshot : Sect.t) : t :=
  match PclusterConfig.get_section (base_config self) section_key
          (Some (Sect.label snapshot)) with
  | Some base_section =>
      let '(self1, target_section) := _get_target_section self base_section in
      with_base self1
        (PclusterConfig.set_label (base_config self1) section_key
           (Sect.label base_section) (Sect.label target_section))
  | None => self
  end.

Definition match_base_sections (self : t) : t :=
  fold_left
    (fun self section_key =>
       fold_left (match_base_section section_key)
         (PclusterConfig.get_sections (base_config self) section_key) self)
    (PclusterConfig.get_section_keys (base_config self)) self.

Definition create_missing_base_sections (self : t) : t :=
  fold_left
    (fun self section_key =>
       fold_left (fun self target_section => fst (_get_base_section self target_section))
         (PclusterConfig.get_sections (target_config self) section_key) self)
    (PclusterConfig.get_section_keys (target_config self)) self.

Definition _adapt (self : t) : outcome t :=
  base ← _remove_ignored_sections (base_config self);
  target ← _remove_ignored_sections (target_config self);
  let self := with_target (with_base self base) target in
  let self := _rename_base_sections self in
  let self := match_base_sections self in
  Ok (create_missing_base_sections self).

(** The body of the loop of [_compare_section]. *)
Definition compare_param (base_section : option Sect.t) (target_section : Sect.t)
    (changes : list Change) (param : Param.t) : outcome (list Change) :=
  base_value ←
    match base_section with
    | Some b =>
        match Sect.get_param b (Param.key param) with
        | Some p => Ok (Param.value p)
        | None => Raise (AttributeError "value")
        end
    | None => Ok VNone
    end;
  let target_value := Param.value param in
  Ok (if py_ne base_value target_value
      then (changes ++
             [mkChange (Sect.key target_section) (Sect.label target_section)
                (Param.key param) base_value (Param.value param)
                (Param.update_policy param)])%list
      else changes).

Definition _compare_section (base_section target_section : option Sect.t)
    (changes : list Change) : outcome (list Change) :=
  match target_section with
  | None => Raise (AttributeError "params")
  | Some target_section =>
      for_each (compare_param base_section target_section)
        (Sect.params target_section) changes
  end.

Definition _remove_mock_sections (config : PclusterConfig.t) : PclusterConfig.t :=
  fold_left
    (fun config section_key =>
       fold_left
         (fun config section =>
            if Sect.mock section
            then PclusterConfig.remove_labelled config (Sect.key section) (Sect.label section)
            else config)
         (sorted_sections (PclusterConfig.get_sections config section_key)) config)
    (PclusterConfig.get_section_keys config) config.

(** The first loop of [_compare]: every section but "cluster". *)
Definition compare_other_sections (self : t) : outcome (list Change) :=
  for_each
    (fun changes section_key =>
       if negb (String.eqb section_key "cluster") then
         for_each
           (fun changes target_section =>
              _compare_section
                (PclusterConfig.get_section (base_config self)
                   (Sect.key target_section) (Some (Sect.label target_section)))
                (Some target_section) changes)
           (PclusterConfig.get_sections (target_config self) section_key) changes
       else Ok changes)
    (PclusterConfig.get_section_keys (target_config self)) (changes self).

Definition _compare (self : t) : outcome t :=
  changes1 ← compare_other_sections self;
  let base := _remove_mock_sections (base_config self) in
  let target := _remove_mock_sections (target_config self) in
  changes2 ← _compare_section (PclusterConfig.get_section base "cluster" None)
               (PclusterConfig.get_section target "cluster" None) changes1;
  Ok {| base_config := base; target_config := target; changes := changes2 |}.

(** [ConfigPatch.__init__] on the patch's own copies. *)
Definition init (base_copy target_copy : PclusterConfig.t) : outcome t :=
  self ← _adapt {| base_config := base_copy; target_config := target_copy; changes := [] |};
  _compare self.

(** [_restore_settings_param]: the settings parameter takes the sorted,
    comma-joined labels of the sections of its referred key that carry no
    mock mark. *)
Definition _restore_settings_param (config : PclusterConfig.t)
    (settings_param : Param.t) : Param.t :=
  let sections :=
    match Param.referred_section_key settings_param with
    | Some k => PclusterConfig.get_sections config k
    | None => []
    end in
  let sections_labels_list :=
    map Sect.label (List.filter (fun section => negb (Sect.mock section)) sections) in
  Param.set_value settings_param (VStr (join "," (sorted sections_labels_list))).

Definition ends_with (suffix s : string) : bool :=
  String.eqb
    (String.substring (String.length s - String.length suffix) (String.length suffix) s)
    suffix
  && Nat.leb (String.length suffix) (String.length s).

(** [_restore_settings_params]: no caller in config_patch.py. *)
Definition _restore_settings_params (config : PclusterConfig.t)
  : outcome PclusterConfig.t :=
  match PclusterConfig.get_section config "cluster" None with
  | None => Raise (AttributeError "params")
  | Some cluster_section =>
      let ps :=
        map (fun param =>
               if ends_with "_settings" (Param.key param)
               then _restore_settings_param config param else param)
          (Sect.params cluster_section) in
      Ok (PclusterConfig.with_sections config
            (map (fun s => if Sect.at_slot "cluster" (Sect.label cluster_section) s
                           then Sect.set_params s ps else s)
               (PclusterConfig.sections config)))
  end.

Definition update_policy_level (self : t) : Z :=
  match changes self with
  | [] => UpdatePolicy.level UpdatePolicy.ALLOWED
  | change :: rest =>
      fold_left Z.max (map (fun c => UpdatePolicy.level (update_policy c)) rest)
        (UpdatePolicy.level (update_policy change))
  end.

Definition header : list value :=
  [VStr "section"; VStr "parameter"; VStr "old value"; VStr "new value";
   VStr "check"; VStr "reason"].

Definition opt_value (o : option string) : value :=
  match o with Some s => VStr s | None => VNone end.

(** The first cell of a row: the key, and the label when it is not empty. *)
Definition section_cell (change : Change) : string :=
  section_key change
    +:+ (if str_truthy (Some (section_label change)) then " " else "")
    +:+ (if str_truthy (Some (section_label change)) then section_label change else "").

(** The remediation text with its two placeholders replaced. *)
Definition substitute (self : t) (action_needed : string) : string :=
  replace "$CLUSTER_NAME" (PclusterConfig.config_file (base_config self))
    (replace "$CONFIG_FILE" (PclusterConfig.config_file (target_config self))
       action_needed).

Definition report_row (change : Change) (check_result : UpdatePolicy.CheckResult)
  : list value :=
  [VStr (section_cell change); VStr (param_key change); old_value change;
   new_value change; VStr (UpdatePolicy.CheckResult_value check_result);
   if UpdatePolicy.CheckResult_eqb check_result UpdatePolicy.SUCCEEDED
   then VStr "-" else opt_value (UpdatePolicy.fail_reason (update_policy change))].

Definition check_state : Type := bool * list (list value) * gset string.

(** The body of the loop of [check]. *)
Definition check_change (self : t) (stack_name : string)
    (st : check_state) (change : Change) : outcome check_state :=
  let '(patch_allowed, rows, actions_needed) := st in
  if UpdatePolicy.neb (update_policy change) UpdatePolicy.IGNORED then
    check_result ← UpdatePolicy.check (update_policy change) stack_name;
    let failed :=
      negb (UpdatePolicy.CheckResult_eqb check_result UpdatePolicy.SUCCEEDED) in
    let action_needed := UpdatePolicy.action_needed (update_policy change) in
    Ok (if failed then false else patch_allowed,
        (rows ++ [report_row change check_result])%list,
        if failed && str_truthy action_needed
        then {[ substitute self (default "" action_needed) ]} ∪ actions_needed
        else actions_needed)
  else Ok st.

Definition check (self : t) (stack_name : string) : outcome check_state :=
  for_each (check_change self stack_name) (changes self) (true, [header], ∅).

End ConfigPatch.

(** ** Configurations as objects

    What the constructor of a patch writes. The caller holds its two
    configurations by reference: a configuration object refers to its
    section objects, a section object to its parameter objects, and an
    object may be reached through several references. The constructor
    takes [copy.deepcopy] of both configurations and then runs the
    adaptation and the comparison on the copies, by the same steps as
    [ConfigPatch._adapt] and [ConfigPatch._compare] above, each of them
    writing the objects it reaches from the configuration it is given. *)

Module Store.
Local Open Scope list_scope.

Definition loc : Type := positive.

Inductive object : Type :=
  | ConfigObj (config_file cluster_name : string) (sections : list loc)
  | SectionObj (defn : Sect.definition) (label : string) (params : list loc) (mock : bool)
  | ParamObj (param : Param.t).

Abbreviation heap := (gmap positive object).

(** The objects an object refers to. *)
Definition references (o : object) : list loc :=
  match o with
  | ConfigObj _ _ sections => sections
  | SectionObj _ _ params _ => params
  | ParamObj _ => []
  end.

(** *** Reading *)

Definition sections_of (h : heap) (config : loc) : list loc :=
  match h !! config with
  | Some (ConfigObj _ _ sections) => sections
  | _ => []
  end.

Definition params_of (h : heap) (section : loc) : list loc :=
  match h !! section with
  | Some (SectionObj _ _ params _) => params
  | _ => []
  end.

Definition param_at (h : heap) (p : loc) : option Param.t :=
  match h !! p with
  | Some (ParamObj param) => Some param
  | _ => None
  end.

Definition section_at (h : heap) (section : loc) : option Sect.t :=
  match h !! section with
  | Some (SectionObj defn label params mock) =>
      Some (Sect.mk defn label (omap (param_at h) params) mock)
  | _ => None
  end.

(** The configuration an object and the objects it reaches stand for. *)
Definition config_at (h : heap) (config : loc) : option PclusterConfig.t :=
  match h !! config with
  | Some (ConfigObj config_file cluster_name sections) =>
      Some (PclusterConfig.mk config_file cluster_name (omap (section_at h) sections))
  | _ => None
  end.

Definition at_slot (h : heap) (k l : string) (section : loc) : bool :=
  match section_at h section with
  | Some s => Sect.at_slot k l s
  | None => false
  end.

Definition of_key (h : heap) (k : string) (section : loc) : bool :=
  match section_at h section with
  | Some s => String.eqb (Sect.key s) k
  | None => false
  end.

(** *** Writing one object *)

Definition set_sections (config : loc) (sections : list loc) (h : heap) : heap :=
  match h !! config with
  | Some (ConfigObj config_file cluster_name _) =>
      <[config := ConfigObj config_file cluster_name sections]> h
  | _ => h
  end.

Definition set_label_of (section : loc) (new : string) (h : heap) : heap :=
  match h !! section with
  | Some (SectionObj defn _ params mock) => <[section := SectionObj defn new params mock]> h
  | _ => h
  end.

Definition set_value_of (p : loc) (v : scalar) (h : heap) : heap :=
  match h !! p with
  | Some (ParamObj param) => <[p := ParamObj (Param.set_value param v)]> h
  | _ => h
  end.

(** [alloc]: a new object, at a location the heap does not use. *)
Definition alloc (o : object) (h : heap) : heap * loc :=
  let l := fresh (dom h) in (<[l := o]> h, l).

(** *** The operations of a configuration

    As in [PclusterConfig] above, on the objects of the configuration. *)

Definition refresh_param (sections : list Sect.t) (h : heap) (p : loc) : heap :=
  match param_at h p with
  | Some param =>
      match Param.referred_section_key param with
      | Some k => set_value_of p (PclusterConfig.settings_value sections k) h
      | None => h
      end
  | None => h
  end.

(** The settings parameters of the sections of the configuration are
    recomputed. *)
Definition refresh (config : loc) (h : heap) : heap :=
  fold_left (refresh_param (omap (section_at h) (sections_of h config)))
    (concat (map (params_of h) (sections_of h config))) h.

Fixpoint add_raw (h : heap) (k l : string) (section : loc) (sections : list loc)
  : list loc :=
  match sections with
  | [] => [section]
  | x :: sections' =>
      if at_slot h k l x then section :: sections'
      else x :: add_raw h k l section sections'
  end.

Definition add_section (config section : loc) (h : heap) : heap :=
  match section_at h section with
  | Some s =>
      refresh config
        (set_sections config
           (add_raw h (Sect.key s) (Sect.label s) section (sections_of h config)) h)
  | None => h
  end.

Definition remove_labelled (config : loc) (k l : string) (h : heap) : heap :=
  refresh config
    (set_sections config
       (List.filter (fun s => negb (at_slot h k l s)) (sections_of h config)) h).

(** [section.label = new] for the section at (k, old). *)
Definition set_label (config : loc) (k old new : string) (h : heap) : heap :=
  if String.eqb old new then refresh config h
  else
    let sections :=
      List.filter (fun s => negb (at_slot h k new s)) (sections_of h config) in
    refresh config
      (set_sections config sections
         (fold_left
            (fun h' s => if at_slot h k old s then set_label_of s new h' else h')
            sections h)).

Fixpoint alloc_params (params : list Param.t) (h : heap) : heap * list loc :=
  match params with
  | [] => (h, [])
  | param :: params' =>
      let '(h1, p) := alloc (ParamObj param) h in
      let '(h2, ps) := alloc_params params' h1 in
      (h2, p :: ps)
  end.

(** A new section object with new parameter objects. *)
Definition new_section (s : Sect.t) (h : heap) : heap * loc :=
  let '(h1, ps) := alloc_params (Sect.params s) h in
  alloc (SectionObj (Sect.defn s) (Sect.label s) ps (Sect.mock s)) h1.

(** *** copy.deepcopy

    Every object reached from the configuration is copied once: [memo]
    maps the objects already copied to their copies. *)

Definition copy_param (st : heap * gmap positive positive * list loc) (p : loc)
  : heap * gmap positive positive * list loc :=
  let '(h, memo, copies) := st in
  match memo !! p with
  | Some p' => (h, memo, copies ++ [p'])
  | None =>
      match h !! p with
      | Some (ParamObj param) =>
          let '(h', p') := alloc (ParamObj param) h in
          (h', <[p := p']> memo, copies ++ [p'])
      | _ => st
      end
  end.

Definition copy_section (st : heap * gmap positive positive * list loc) (section : loc)
  : heap * gmap positive positive * list loc :=
  let '(h, memo, copies) := st in
  match memo !! section with
  | Some section' => (h, memo, copies ++ [section'])
  | None =>
      match h !! section with
      | Some (SectionObj defn label params mock) =>
          let '(h1, memo1, params') := fold_left copy_param params (h, memo, []) in
          let '(h2, section') := alloc (SectionObj defn label params' mock) h1 in
          (h2, <[section := section']> memo1, copies ++ [section'])
      | _ => st
      end
  end.

(** *** Computations on the heap *)

Definition M (A : Type) : Type := heap -> heap * outcome A.

#[global] Instance M_ret : MRet M := fun A a h => (h, Ok a).
#[global] Instance M_bind : MBind M := fun A B f m h =>
  match m h with
  | (h', Ok a) => f a h'
  | (h', Raise e) => (h', Raise e)
  end.

Definition modify (w : heap -> heap) : M unit := fun h => (w h, Ok tt).

Definition lift {A : Type} (o : outcome A) : M A := fun h => (h, o).

Definition get_config (config : loc) : M PclusterConfig.t := fun h =>
  (h, match config_at h config with
      | Some c => Ok c
      | None => Raise (Exception "no such object")
      end).

Fixpoint for_each_M {A S : Type} (body : S -> A -> M S) (l : list A) (s : S) : M S :=
  match l with
  | [] => mret s
  | a :: l' => s' ← body s a; for_each_M body l' s'
  end.

Definition deepcopy (config : loc) : M loc := fun h =>
  match h !! config with
  | Some (ConfigObj config_file cluster_name sections) =>
      let '(h1, _, sections') := fold_left copy_section sections (h, ∅, []) in
      let '(h2, config') := alloc (ConfigObj config_file cluster_name sections') h1 in
      (h2, Ok config')
  | _ => (h, Raise (Exception "no such object"))
  end.

(** [remove_section(key, label)] *)
Definition remove_section (config : loc) (k : string) (l : option string) : M unit :=
  fun h =>
    match l with
    | Some l => (remove_labelled config k l h, Ok tt)
    | None =>
        if Nat.ltb 1 (length (List.filter (of_key h k) (sections_of h config)))
        then (h, Raise (Exception ("More than one section with key " +:+ k)))
        else
          (refresh config
             (set_sections config
                (List.filter (fun s => negb (of_key h k s)) (sections_of h config)) h),
           Ok tt)
    end.

(** *** The patch *)

Record patch : Type := mk_patch {
  base_config : loc;
  target_config : loc;
  changes : list Change
}.

Definition _remove_ignored_sections (config : loc) : M unit :=
  for_each_M (fun _ section_key => remove_section config section_key None)
    ConfigPatch.IGNORED_SECTIONS tt.

Definition _rename_base_sections (self : patch) : M unit :=
  base ← get_config (base_config self);
  for_each_M
    (fun _ section_key =>
       base ← get_config (base_config self);
       _ ← for_each_M
             (fun i base_section =>
                _ ← modify (set_label (base_config self) section_key
                              (Sect.label base_section)
                              (ConfigPatch.new_lbl section_key i));
                mret (S i))
             (sorted_sections (PclusterConfig.get_sections base section_key)) O;
       mret tt)
    (PclusterConfig.get_section_keys base) tt.

Definition _create_default_section (config : loc) (section : Sect.t) : M Sect.t :=
  let mock_section := ConfigPatch.default_section section in
  _ ← (fun h => let '(h1, s) := new_section mock_section h in
                (add_section config s h1, Ok tt));
  mret mock_section.

Definition _get_target_section (self : patch) (base_section : Sect.t) : M Sect.t :=
  target ← get_config (target_config self);
  let only :=
    match PclusterConfig.get_sections target (Sect.key base_section) with
    | [s] => Some s
    | _ => None
    end in
  let section :=
    match Sect.key_param base_section with
    | Some key_param =>
        if str_truthy (Some key_param) then
          ConfigPatch._get_target_section_by_param
            (ConfigPatch.mk target target []) (Sect.key base_section) key_param
            (Sect.get_param_value base_section key_param)
        else only
    | None => only
    end in
  match section with
  | Some s => mret s
  | None => _create_default_section (target_config self) base_section
  end.

Definition _get_base_section (self : patch) (target_section : Sect.t) : M Sect.t :=
  base ← get_config (base_config self);
  match PclusterConfig.get_section base (Sect.key target_section)
          (Some (Sect.label target_section)) with
  | Some s => mret s
  | None => _create_default_section (base_config self) target_section
  end.

Definition match_base_section (section_key : string) (self : patch) (snapshot : Sect.t)
  : M unit :=
  base ← get_config (base_config self);
  match PclusterConfig.get_section base section_key (Some (Sect.label snapshot)) with
  | Some base_section =>
      target_section ← _get_target_section self base_section;
      modify (set_label (base_config self) section_key (Sect.label base_section)
                (Sect.label target_section))
  | None => mret tt
  end.

Definition _adapt (self : patch) : M unit :=
  _ ← _remove_ignored_sections (base_config self);
  _ ← _remove_ignored_sections (target_config self);
  _ ← _rename_base_sections self;
  base ← get_config (base_config self);
  _ ← for_each_M
        (fun _ section_key =>
           base ← get_config (base_config self);
           for_each_M (fun _ snapshot => match_base_section section_key self snapshot)
             (PclusterConfig.get_sections base section_key) tt)
        (PclusterConfig.get_section_keys base) tt;
  target ← get_config (target_config self);
  for_each_M
    (fun _ section_key =>
       target ← get_config (target_config self);
       for_each_M
         (fun _ target_section =>
            _ ← _get_base_section self target_section; mret tt)
         (PclusterConfig.get_sections target section_key) tt)
    (PclusterConfig.get_section_keys target) tt.

Definition _remove_mock_sections (config : loc) : M unit :=
  c ← get_config config;
  for_each_M
    (fun _ section_key =>
       c ← get_config config;
       for_each_M
         (fun _ section =>
            if Sect.mock section
            then remove_section config (Sect.key section) (Some (Sect.label section))
            else mret tt)
         (sorted_sections (PclusterConfig.get_sections c section_key)) tt)
    (PclusterConfig.get_section_keys c) tt.

Definition _compare (self : patch) : M (list Change) :=
  base ← get_config (base_config self);
  target ← get_config (target_config self);
  changes1 ← lift (ConfigPatch.compare_other_sections
                     (ConfigPatch.mk base target (changes self)));
  _ ← _remove_mock_sections (base_config self);
  _ ← _remove_mock_sections (target_config self);
  base ← get_config (base_config self);
  target ← get_config (target_config self);
  lift (ConfigPatch._compare_section
          (PclusterConfig.get_section base "cluster" None)
          (PclusterConfig.get_section target "cluster" None) changes1).

(** [ConfigPatch(base_config, target_config)] *)
Definition ConfigPatch (base_config target_config : loc) : M patch :=
  base ← deepcopy base_config;
  target ← deepcopy target_config;
  let self := mk_patch base target [] in
  _ ← _adapt self;
  changes ← _compare self;
  mret (mk_patch base target changes).

End Store.

(** ** The update command

    [cli/pcluster/update/update_command.py]: the caller of the patch. What
    the command does besides computing its result is recorded as a list of
    events, in the order it happens. *)

(** [str(v)] *)
Definition py_str (v : value) : string :=
  match v with
  | VNone => "None"
  | VStr s => s
  | VInt z => pretty z
  | VBool true => "True"
  | VBool false => "False"
  end.

(** The white space of [str.strip()], as the bytes of the UTF-8 text:
    U+0009 to U+000D, U+001C to U+0020 (one byte); U+0085 and U+00A0 (two
    bytes); U+1680, U+2000 to U+200A, U+2028, U+2029, U+202F, U+205F and
    U+3000 (three bytes). *)
Definition is_space1 (a : ascii) : bool :=
  let n := nat_of_ascii a in
  (Nat.leb 9 n && Nat.leb n 13) || (Nat.leb 28 n && Nat.leb n 32).

Definition is_space2 (a b : ascii) : bool :=
  Nat.eqb (nat_of_ascii a) 194
  && (Nat.eqb (nat_of_ascii b) 133 || Nat.eqb (nat_of_ascii b) 160).

Definition is_space3 (a b c : ascii) : bool :=
  let x := nat_of_ascii a in
  let y := nat_of_ascii b in
  let z := nat_of_ascii c in
  (Nat.eqb x 225 && Nat.eqb y 154 && Nat.eqb z 128)
  || (Nat.eqb x 226 && Nat.eqb y 128
      && ((Nat.leb 128 z && Nat.leb z 138) || Nat.eqb z 168 || Nat.eqb z 169
          || Nat.eqb z 175))
  || (Nat.eqb x 226 && Nat.eqb y 129 && Nat.eqb z 159)
  || (Nat.eqb x 227 && Nat.eqb y 128 && Nat.eqb z 128).

(** [s.lstrip()]: the white space characters in front are dropped. *)
Fixpoint lstrip (s : string) : string :=
  match s with
  | EmptyString => EmptyString
  | String a s1 =>
      if is_space1 a then lstrip s1
      else
        match s1 with
        | EmptyString => s
        | String b s2 =>
            if is_space2 a b then lstrip s2
            else
              match s2 with
              | EmptyString => s
              | String c s3 => if is_space3 a b c then lstrip s3 else s
              end
        end
  end.

(** A text of white space characters only. *)
Definition is_space (s : string) : bool :=
  match lstrip s with
  | EmptyString => true
  | String _ _ => false
  end.

(** [s.rstrip()]: the longest end of the text that is white space is dropped. *)
Fixpoint rstrip (s : string) : string :=
  match s with
  | EmptyString => EmptyString
  | String a s' => if is_space s then EmptyString else String a (rstrip s')
  end.

(** [s.strip()] *)
Definition strip (s : string) : string := rstrip (lstrip s).

(** The small letter of an ASCII capital; any other byte as it is. *)
Definition lower_ascii (c : ascii) : ascii :=
  let n := nat_of_ascii c in
  if Nat.leb 65 n && Nat.leb n 90 then ascii_of_nat (n + 32) else c.

(** [s.lower()], on the bytes of the text: the ASCII capitals become small
    letters and the bytes of the other characters are left as they are;
    [lower()] maps no character other than y and Y to y. *)
Fixpoint lower (s : string) : string :=
  match s with
  | EmptyString => EmptyString
  | String c s' => String (lower_ascii c) (lower s')
  end.

Module UpdateCommand.
Local Open Scope list_scope.

Inductive event : Type :=
  | LogInfo (msg : string)
  | LogWarning (msg : string)
  | LogError (msg : string)
  | LogException (e : exn)
  | Print (line : string)
  | Input (prompt : string).

(** The command-line arguments the two functions read. *)
Record args : Type := mk_args {
  config_file : string;
  cluster_name : string;
  force : bool;
  reset_desired : bool
}.

(** One entry of the stack's [Parameters]; [.get] answers [None] for a
    field the entry does not have. *)
Record stack_parameter : Type := mk_parameter {
  ParameterKey : value;
  ParameterValue : value
}.

Definition forced_update : string :=
  "Forced update. All security checks are being skipped.".
Definition retrieving (cluster_name : string) : string :=
  "Retrieving configuration from CloudFormation for cluster " +:+ cluster_name +:+ "...".
Definition congratulations : string :=
  "Congratulations! The new configuration can be safely applied to your cluster.".
Definition cannot_be_applied : string :=
  "The new configuration cannot be safely applied to your cluster.".
Definition no_changes : string := "No changes found in your cluster configuration.".
Definition proceed_prompt : string := "Do you want to proceed with the update? - Y/N: ".

Section Environment.
(** [PclusterConfig(config_file=..., cluster_name=...)]: the configuration
    rebuilt from the running stack. *)
Variable PclusterConfig_from_stack : string -> string -> outcome PclusterConfig.t.
(** [tabulate(rows, headers="firstrow")] *)
Variable tabulate : list (list value) -> string.
(** What [input] returns for the prompt. *)
Variable input : string -> outcome string.
(** [utils.get_asg_name], the [DesiredCapacity] of the first group that
    [describe_auto_scaling_groups] returns, and the [Parameters] of
    [utils.get_stack]. *)
Variable get_asg_name : string -> outcome string.
Variable describe_desired_capacity : string -> outcome value.
Variable get_stack_parameters : string -> outcome (list stack_parameter).

(** The lines printed for the remediation texts. *)
Definition action_lines (actions_needed : gset string) : list event :=
  map (fun a => Print ("- " +:+ replace nl (nl +:+ "  ") a)) (elements actions_needed).

(** The body of [_check_updatability] up to the final consent: the events
    and the value of [can_proceed]. *)
Definition security_checks (a : args) (target_config : PclusterConfig.t)
    (stack_name : string) : list event * outcome bool :=
  if force a then ([LogWarning forced_update], Ok true)
  else
    let t0 := [LogInfo (retrieving (cluster_name a))] in
    match PclusterConfig_from_stack (config_file a) (cluster_name a) with
    | Raise e => (t0, Raise e)
    | Ok base_config =>
        match ConfigPatch.init base_config target_config with
        | Raise e => (t0 ++ [LogException e], Ok false)
        | Ok patch =>
            let t1 := t0 ++ [LogInfo "Found Changes:"] in
            match ConfigPatch.changes patch with
            | [] => (t1 ++ [LogInfo no_changes], Ok true)
            | _ :: _ =>
                match ConfigPatch.check patch stack_name with
                | Raise e => (t1 ++ [LogException e], Ok false)
                | Ok (allowed, rows, actions_needed) =>
                    let t2 := t1 ++ [Print (tabulate rows); Print ""] in
                    if allowed : bool then (t2 ++ [LogInfo congratulations], Ok true)
                    else
                      (t2 ++ [LogError cannot_be_applied;
                              Print "Please try the following actions:"]
                          ++ action_lines actions_needed
                          ++ [Print "Then, retry the update."],
                       Ok false)
                end
            end
        end
    end.

(** [_check_updatability] *)
Definition _check_updatability (a : args) (target_config : PclusterConfig.t)
    (stack_name : string) : list event * outcome bool :=
  match security_checks a target_config stack_name with
  | (t, Raise e) => (t, Raise e)
  | (t, Ok false) => (t, Ok false)
  | (t, Ok true) =>
      (t ++ [Input proceed_prompt],
       answer ← input proceed_prompt;
       Ok (String.eqb (lower (strip answer)) "y"))
  end.

(** The loop of [_autofill_cfn_params] over the stack's parameters. *)
Definition take_resources_bucket (cfn_params : gmap string value)
    (parameter : stack_parameter) : gmap string value :=
  if py_eq (ParameterKey parameter) (VStr "ResourcesS3Bucket")
  then <["ResourcesS3Bucket" := ParameterValue parameter]> cfn_params
  else cfn_params.

(** [_autofill_cfn_params]: the events and [cfn_params] as the call leaves
    it. *)
Definition _autofill_cfn_params (a : args) (cfn_params : gmap string value)
    (stack_name : string) (target_config : PclusterConfig.t)
  : list event * outcome (gmap string value) :=
  match PclusterConfig.get_section target_config "cluster" None with
  | None => ([], Raise (AttributeError "get_param_value"))
  | Some cluster_section =>
      if py_ne (Sect.get_param_value cluster_section "scheduler") (VStr "awsbatch") then
        if negb (reset_desired a) then
          ([],
           asg_name ← get_asg_name stack_name;
           desired_capacity ← describe_desired_capacity asg_name;
           Ok (<["DesiredSize" := VStr (py_str desired_capacity)]> cfn_params))
        else ([], Ok cfn_params)
      else
        (if reset_desired a
         then [LogInfo "reset_desired flag does not work with awsbatch scheduler"]
         else [],
         params ← get_stack_parameters stack_name;
         Ok (fold_left take_resources_bucket params cfn_params))
  end.
End Environment.

End UpdateCommand.


(** * Auxiliary definitions for the statements *)

(** What [ConfigPatch.check] does with a change whose policy has no
    condition checker: nothing if the policy equals IGNORED, otherwise a
    FAILED row, a refusal and the policy's remediation text. *)
Definition unverifiable_step (self : ConfigPatch.t) (change : Change)
    (st : ConfigPatch.check_state) : ConfigPatch.check_state :=
  let '(patch_allowed, rows, actions_needed) := st in
  if UpdatePolicy.neb (update_policy change) UpdatePolicy.IGNORED then
    (false,
     (rows ++ [ConfigPatch.report_row change UpdatePolicy.FAILED])%list,
     if str_truthy (UpdatePolicy.action_needed (update_policy change))
     then {[ ConfigPatch.substitute self
               (default "" (UpdatePolicy.action_needed (update_policy change))) ]}
            ∪ actions_needed
     else actions_needed)
  else st.

(** A change is reported by [check] unless its policy equals IGNORED. *)
Definition reported (change : Change) : bool :=
  UpdatePolicy.neb (update_policy change) UpdatePolicy.IGNORED.

Definition change_level (change : Change) : Z :=
  UpdatePolicy.level (update_policy change).

(** Does a change contribute a remediation text, and which one? *)
Definition contributes (self : ConfigPatch.t) (stack_name : string)
    (change : Change) (a : string) : Prop :=
  reported change = true
  /\ UpdatePolicy.check (update_policy change) stack_name <> Ok UpdatePolicy.SUCCEEDED
  /\ exists text, UpdatePolicy.action_needed (update_policy change) = Some text
       /\ text <> "" /\ a = ConfigPatch.substitute self text.

(** The row of a reported change, given what its policy check returns. *)
Definition row_of (stack_name : string) (change : Change) (row : list value) : Prop :=
  exists r, UpdatePolicy.check (update_policy change) stack_name = Ok r
            /\ row = ConfigPatch.report_row change r.

(** The configuration holds a section of key [k] and label [l] whose mock
    mark is [m]. *)
Definition has (c : PclusterConfig.t) (k l : string) (m : bool) : Prop :=
  exists s, In s (PclusterConfig.sections c)
            /\ Sect.key s = k /\ Sect.label s = l /\ Sect.mock s = m.

Definition slot (c : PclusterConfig.t) (k l : string) : Prop :=
  exists m, has c k l m.

(** The change [_compare_section] records for a parameter whose value
    differs from [old]. *)
Definition param_change (target_section : Sect.t) (old : value) (param : Param.t)
  : Change :=
  mkChange (Sect.key target_section) (Sect.label target_section) (Param.key param)
    old (Param.value param) (Param.update_policy param).

(** The old value [_compare_section] reads for a parameter of the target:
    the value of the base section's parameter of that key, [None] without a
    base section, nothing when the base section lacks the key. *)
Definition base_value (base_section : option Sect.t) (param : Param.t) : option value :=
  match base_section with
  | Some b => option_map Param.value (Sect.get_param b (Param.key param))
  | None => Some VNone
  end.


(** The base section declares a key parameter. *)
Definition keyed (section : Sect.t) (key_param : string) : Prop :=
  Sect.key_param section = Some key_param /\ key_param <> "".

(** A section of the target agrees with the base section on the key parameter. *)
Definition same_key_value (base_section : Sect.t) (key_param : string) (s : Sect.t)
  : Prop :=
  exists param, Sect.get_param s key_param = Some param
                /\ py_eq (Param.value param) (Sect.get_param_value base_section key_param)
                   = true.

(** The order of [sorted] on strings. *)
Definition leb_true (a b : string) : Prop := String.leb a b = true.

(** Is the event a call of [input]? *)
Definition is_Input (ev : UpdateCommand.event) : bool :=
  match ev with UpdateCommand.Input _ => true | _ => false end.

(** The user is asked for consent somewhere in the events. *)
Definition asked (events : list UpdateCommand.event) : Prop :=
  exists ev, In ev events /\ is_Input ev = true.

(** The stack parameter is the one of the resources bucket. *)
Definition is_resources_bucket (parameter : UpdateCommand.stack_parameter) : bool :=
  py_eq (UpdateCommand.ParameterKey parameter) (VStr "ResourcesS3Bucket").


(** No section of the configuration has an ignored key. *)
Definition no_ignored (c : PclusterConfig.t) : Prop :=
  forall k l, slot c k l -> ~ In k ConfigPatch.IGNORED_SECTIONS.

(** Both configurations of the patch are free of ignored sections. *)
Definition patch_no_ignored (self : ConfigPatch.t) : Prop :=
  no_ignored (ConfigPatch.base_config self) /\ no_ignored (ConfigPatch.target_config self).


(** The (key, label) pairs of the sections of a configuration. *)
Definition key_labels (c : PclusterConfig.t) : list (string * string) :=
  map (fun s => (Sect.key s, Sect.label s)) (PclusterConfig.sections c).

(** Every settings parameter of the configuration holds the value computed
    from the sections the configuration has now. *)
Definition settings_recomputed (c : PclusterConfig.t) : Prop :=
  forall s p k,
    In s (PclusterConfig.sections c) -> In p (Sect.params s) ->
    Param.referred_section_key p = Some k ->
    Param.value p = PclusterConfig.settings_value (PclusterConfig.sections c) k.

(** The labels of the sections of a key, sorted and joined by commas. *)
Definition labels_of_key (c : PclusterConfig.t) (k : string) : value :=
  VStr (join "," (sorted (map Sect.label (PclusterConfig.get_sections c k)))).

(** No section is marked mock, and every settings parameter lists the
    labels of the sections of its referred key. *)
Definition settled (c : PclusterConfig.t) : Prop :=
  (forall s, In s (PclusterConfig.sections c) -> Sect.mock s = false)
  /\ forall s p k,
       In s (PclusterConfig.sections c) -> In p (Sect.params s) ->
       Param.referred_section_key p = Some k ->
       Param.value p = labels_of_key c k.


(** ** Example inputs *)

Definition empty_config : PclusterConfig.t := PclusterConfig.mk "/cfg" "c" [].

Definition change_at_level (lvl : Z) : Change :=
  mkChange "cluster" "default" "p" (VInt 0) (VInt 1)
    (UpdatePolicy.init None (Some lvl) None None None).

(** A policy whose checker answers [b], one whose checker raises. *)
Definition answering (lvl : Z) (b : bool) : UpdatePolicy.t :=
  UpdatePolicy.init None (Some lvl) (Some "Compute fleet must be empty")
    (Some UpdatePolicy.stop_the_cluster) (Some (fun _ => Ok b)).

Definition raising : UpdatePolicy.t :=
  UpdatePolicy.init None (Some 10) (Some "Compute fleet must be empty")
    (Some UpdatePolicy.stop_the_cluster)
    (Some (fun _ => Raise (Exception "Unable to reach the stack"))).

Definition change_with (param : string) (policy : UpdatePolicy.t) : Change :=
  mkChange "cluster" "default" param (VInt 0) (VInt 1) policy.

Definition user_config : PclusterConfig.t :=
  PclusterConfig.mk "/home/user/.parallelcluster/config" "mycluster" [].

(** The remediation text of COMPUTE_FLEET_RESTART with the configuration
    file and the cluster name in place of the placeholders. *)
Definition expected_stop_command : string :=
  "Stop the cluster with the following command: " +:+ nl
    +:+ "pcluster stop -c /home/user/.parallelcluster/config mycluster".

(** A patch with one COMPUTE_FLEET_RESTART change, on a stack whose compute
    fleet is not empty. *)
Definition busy_fleet_patch : ConfigPatch.t :=
  ConfigPatch.mk user_config user_config
    [change_with "max_queue_size"
       (UpdatePolicy.COMPUTE_FLEET_RESTART (fun _ => Ok ["i-0123456789abcdef0"]))].

Definition stop_command_in_code : string :=
  "Stop the cluster with the following command: " +:+ nl
    +:+ "pcluster stop -c /home/user/.parallelcluster/config "
    +:+ "/home/user/.parallelcluster/config".

(** The change [_compare_section] records for a parameter of the target
    section when there is no base section. *)
Definition added_param_change (target_section : Sect.t) (param : Param.t) : Change :=
  mkChange (Sect.key target_section) (Sect.label target_section) (Param.key param)
    VNone (Param.value param) (Param.update_policy param).

Definition one_param_section (k l p : string) (v : value) : Sect.t :=
  Sect.mk (Sect.mk_definition k None [Param.mk p VNone UpdatePolicy.DENIED None]) l
    [Param.mk p v UpdatePolicy.DENIED None] false.

Definition vpc_section (l v : string) : Sect.t := one_param_section "vpc" l "vpc_id" (VStr v).

Definition cluster_section (l : string) (vpc_settings : value) : Sect.t :=
  Sect.mk
    (Sect.mk_definition "cluster" None
       [Param.mk "vpc_settings" VNone UpdatePolicy.DENIED (Some "vpc")])
    l [Param.mk "vpc_settings" vpc_settings UpdatePolicy.DENIED (Some "vpc")] false.

(** A base with one [vpc] section, a target with two: [vpc] declares no
    key parameter. *)
Definition one_vpc_config : PclusterConfig.t :=
  PclusterConfig.mk "/cfg" "mycluster"
    [cluster_section "default" (VStr "default"); vpc_section "default" "vpc-1"].

Definition two_vpc_config : PclusterConfig.t :=
  PclusterConfig.mk "/cfg" "mycluster"
    [cluster_section "default" (VStr "a,b"); vpc_section "a" "vpc-1";
     vpc_section "b" "vpc-2"].

(** A target that changes the [vpc] section and the [cluster] section of
    [one_vpc_config]. *)
Definition other_vpc_config : PclusterConfig.t :=
  PclusterConfig.mk "/cfg" "mycluster"
    [cluster_section "default" (VStr "other"); vpc_section "default" "vpc-2"].

(** A target whose [vpc] section has a parameter the base section lacks. *)
Definition odd_vpc_config : PclusterConfig.t :=
  PclusterConfig.mk "/cfg" "mycluster"
    [cluster_section "default" (VStr "default");
     one_param_section "vpc" "default" "additional_sg" (VStr "sg-1")].

(** The patch after [_adapt], for a patch that adapts. *)
Definition adapted (self : ConfigPatch.t) : ConfigPatch.t :=
  match ConfigPatch._adapt self with
  | Ok self' => self'
  | Raise _ => self
  end.

Definition update_args : UpdateCommand.args :=
  UpdateCommand.mk_args "/cfg" "mycluster" false false.

(** The patch [ConfigPatch(base, target)], for configurations that give one. *)
Definition built (base_config target_config : PclusterConfig.t) : ConfigPatch.t :=
  match ConfigPatch.init base_config target_config with
  | Ok patch => patch
  | Raise _ => ConfigPatch.mk base_config target_config []
  end.

Definition ebs_section (l shared_dir : string) : Sect.t :=
  Sect.mk
    (Sect.mk_definition "ebs" (Some "shared_dir")
       [Param.mk "shared_dir" VNone UpdatePolicy.DENIED None])
    l [Param.mk "shared_dir" (VStr shared_dir) UpdatePolicy.DENIED None] false.

Definition ebs_cluster_section (ebs_settings : string) : Sect.t :=
  Sect.mk
    (Sect.mk_definition "cluster" None
       [Param.mk "ebs_settings" VNone UpdatePolicy.DENIED (Some "ebs")])
    "default" [Param.mk "ebs_settings" (VStr ebs_settings) UpdatePolicy.DENIED (Some "ebs")]
    false.

(** A base with two [ebs] sections and a target that lacks the first:
    [ebs] sections are identified by [shared_dir]. *)
Definition two_ebs_config : PclusterConfig.t :=
  PclusterConfig.mk "/cfg" "mycluster"
    [ebs_cluster_section "ebs-1,ebs-2"; ebs_section "ebs-1" "vol1";
     ebs_section "ebs-2" "vol2"].

Definition one_ebs_config : PclusterConfig.t :=
  PclusterConfig.mk "/cfg" "mycluster"
    [ebs_cluster_section "ebs-2"; ebs_section "ebs-2" "vol2"].

(** ** What the caller holds

    [D] stands for the objects of the caller: those of the heap in which
    the constructor is called. *)

(** The objects of [D] are as they were. *)
Definition keeps (D : gset positive) (h h' : Store.heap) : Prop :=
  forall l, l ∈ D -> h' !! l = h !! l.

(** The heap holds the objects of [D], and no object outside [D] refers to
    an object of [D]. *)
Definition closed (D : gset positive) (h : Store.heap) : Prop :=
  D ⊆ dom h
  /\ forall l o, l ∉ D -> h !! l = Some o -> Forall (fun x => x ∉ D) (Store.references o).

(** From [h] to [h'] nothing of [D] is written and nothing new refers to it. *)
Definition step (D : gset positive) (h h' : Store.heap) : Prop :=
  keeps D h h' /\ closed D h'.

(** A computation that leaves [D] alone, with results in [Q]. *)
Definition local {A : Type} (D : gset positive) (m : Store.M A) (Q : A -> Prop) : Prop :=
  forall h, closed D h ->
    step D h (m h).1 /\ forall a, (m h).2 = Ok a -> Q a.

(** Every reference of the heap leads to an object. *)
Definition no_dangling (h : Store.heap) : Prop :=
  map_Forall (fun _ o => Forall (fun x => is_Some (h !! x)) (Store.references o)) h.

(** While [copy.deepcopy] runs from the heap [h0]: nothing of [D] is
    written, and neither the copies made nor those remembered are in [D]. *)
Definition copying (D : gset positive) (h0 : Store.heap)
    (st : Store.heap * gmap positive positive * list Store.loc) : Prop :=
  step D h0 st.1.1 /\ dom h0 ⊆ dom st.1.1
  /\ (forall x y, st.1.2 !! x = Some y -> y ∉ D)
  /\ Forall (fun x => x ∉ D) st.2.

Fixpoint new_sections (l : list Sect.t) (h : Store.heap) : Store.heap * list Store.loc :=
  match l with
  | [] => (h, [])
  | s :: l' =>
      let '(h1, x) := Store.new_section s h in
      let '(h2, xs) := new_sections l' h1 in
      (h2, x :: xs)
  end.

(** The objects of a configuration, allocated in the heap. *)
Definition new_config (c : PclusterConfig.t) (h : Store.heap) : Store.heap * Store.loc :=
  let '(h1, sections) := new_sections (PclusterConfig.sections c) h in
  Store.alloc
    (Store.ConfigObj (PclusterConfig.config_file c) (PclusterConfig.cluster_name c) sections)
    h1.

(** A caller that holds [one_vpc_config] and [two_vpc_config]. *)
Definition callers_heap : Store.heap :=
  (new_config two_vpc_config (new_config one_vpc_config ∅).1).1.
Definition callers_base : Store.loc := (new_config one_vpc_config ∅).2.
Definition callers_target : Store.loc :=
  (new_config two_vpc_config (new_config one_vpc_config ∅).1).2.

(** * Properties *)

(** ** Loops *)

Lemma for_each_app {A S : Type} (body : S -> A -> outcome S) (l1 l2 : list A) (s : S) :
  for_each body (l1 ++ l2) s = (s' ← for_each body l1 s; for_each body l2 s').
Proof.
  revert s. induction l1 as [|a l1 IH]; intros s; simpl; [reflexivity|].
  destruct (body s a) as [s'|e]; simpl; [apply IH | reflexivity].
Qed.

Lemma bind_Ok_inv {A B : Type} (m : outcome A) (f : A -> outcome B) (b : B) :
  (a ← m; f a) = Ok b -> exists a, m = Ok a /\ f a = Ok b.
Proof. destruct m as [a|e]; simpl; [eauto | discriminate]. Qed.

(** ** UpdatePolicy.check *)

Section PolicyCheck.
Import UpdatePolicy.
Variable stack_name : string.

Lemma check_succeeded_iff (policy : UpdatePolicy.t) :
  check policy stack_name = Ok SUCCEEDED <->
  exists c, condition_checker policy = Some c /\ c stack_name = Ok true.
Proof.
  unfold check. destruct (condition_checker policy) as [c|].
  - split.
    + intros H. exists c. split; [reflexivity|].
      destruct (c stack_name) as [[|]|e]; simpl in H; congruence.
    + intros (c' & Hc & Hr). injection Hc as <-. rewrite Hr. reflexivity.
  - split; [discriminate | intros (c & Hc & _); discriminate].
Qed.

Lemma check_action_needed_iff (policy : UpdatePolicy.t) :
  check policy stack_name = Ok ACTION_NEEDED <->
  exists c, condition_checker policy = Some c /\ c stack_name = Ok false.
Proof.
  unfold check. destruct (condition_checker policy) as [c|].
  - split.
    + intros H. exists c. split; [reflexivity|].
      destruct (c stack_name) as [[|]|e]; simpl in H; congruence.
    + intros (c' & Hc & Hr). injection Hc as <-. rewrite Hr. reflexivity.
  - split; [discriminate | intros (c & Hc & _); discriminate].
Qed.

Lemma check_failed_iff (policy : UpdatePolicy.t) :
  check policy stack_name = Ok FAILED <-> condition_checker policy = None.
Proof.
  unfold check. destruct (condition_checker policy) as [c|].
  - split; [|discriminate].
    destruct (c stack_name) as [[|]|e]; simpl; discriminate.
  - split; reflexivity.
Qed.
End PolicyCheck.

Lemma check_change_unverifiable self stack_name st change :
  UpdatePolicy.condition_checker (update_policy change) = None ->
  ConfigPatch.check_change self stack_name st change
  = Ok (unverifiable_step self change st).
Proof.
  intros Hnone. unfold ConfigPatch.check_change, unverifiable_step.
  destruct st as [[a rows] acts].
  destruct (UpdatePolicy.neb _ _); [|reflexivity].
  unfold UpdatePolicy.check. rewrite Hnone. reflexivity.
Qed.

(** C3: UpdatePolicy.check returns SUCCEEDED exactly when a condition
    checker is present and answers true, ACTION_NEEDED exactly when one is
    present and answers false, and FAILED exactly when none is configured;
    in ConfigPatch.check a change whose policy has no checker is handled on
    its own (a FAILED row and a refusal, or nothing at all when the policy
    equals IGNORED) and the changes after it are evaluated from there. *)
Theorem check_result_by_condition_checker
    (policy : UpdatePolicy.t) (stack_name : string) :
  (UpdatePolicy.check policy stack_name = Ok UpdatePolicy.SUCCEEDED <->
   exists c, UpdatePolicy.condition_checker policy = Some c /\ c stack_name = Ok true)
  /\ (UpdatePolicy.check policy stack_name = Ok UpdatePolicy.ACTION_NEEDED <->
      exists c, UpdatePolicy.condition_checker policy = Some c /\ c stack_name = Ok false)
  /\ (UpdatePolicy.check policy stack_name = Ok UpdatePolicy.FAILED <->
      UpdatePolicy.condition_checker policy = None)
  /\ (forall base target before change after,
        update_policy change = policy ->
        UpdatePolicy.condition_checker policy = None ->
        ConfigPatch.check
          (ConfigPatch.mk base target (before ++ change :: after)) stack_name
        = (st ← ConfigPatch.check (ConfigPatch.mk base target before) stack_name;
           for_each
             (ConfigPatch.check_change
                (ConfigPatch.mk base target (before ++ change :: after)) stack_name)
             after
             (unverifiable_step
                (ConfigPatch.mk base target (before ++ change :: after)) change st))).
Proof.
  split; [apply check_succeeded_iff|].
  split; [apply check_action_needed_iff|].
  split; [apply check_failed_iff|].
  intros base target before change after Hpol Hnone.
  unfold ConfigPatch.check. simpl ConfigPatch.changes.
  rewrite for_each_app.
  assert (Hsame : forall l st,
    for_each (ConfigPatch.check_change
                (ConfigPatch.mk base target (before ++ change :: after)) stack_name) l st
    = for_each (ConfigPatch.check_change (ConfigPatch.mk base target before) stack_name) l st).
  { induction l as [|c l IH]; intros st; simpl; [reflexivity|].
    replace (ConfigPatch.check_change (ConfigPatch.mk base target before) stack_name st c)
      with (ConfigPatch.check_change
              (ConfigPatch.mk base target (before ++ change :: after)) stack_name st c)
      by reflexivity.
    destruct (ConfigPatch.check_change _ _ st c); simpl; [apply IH | reflexivity]. }
  rewrite Hsame.
  destruct (for_each _ before _) as [st|e]; simpl; [|reflexivity].
  rewrite check_change_unverifiable by (rewrite Hpol; exact Hnone).
  reflexivity.
Qed.

Lemma check_result_by_condition_checker_witness :
  ConfigPatch.check
    (ConfigPatch.mk (PclusterConfig.mk "/cfg" "c" []) (PclusterConfig.mk "/cfg" "c" [])
       ([] ++ mkChange "vpc" "default" "vpc_id" (VStr "a") (VStr "b") UpdatePolicy.DENIED
           :: [mkChange "vpc" "default" "x" VNone (VInt 1) UpdatePolicy.ALLOWED]))
    "stack"
  = Ok (false,
        [ConfigPatch.header;
         [VStr "vpc default"; VStr "vpc_id"; VStr "a"; VStr "b"; VStr "FAILED";
          VStr "Update currently unsupported"];
         [VStr "vpc default"; VStr "x"; VNone; VInt 1; VStr "SUCCEEDED"; VStr "-"]],
        {[ "Restore the previous parameter value for the unsupported changes." ]} ∪ ∅).
Proof.
  rewrite (proj2 (proj2 (proj2
    (check_result_by_condition_checker UpdatePolicy.DENIED "stack")))
    (PclusterConfig.mk "/cfg" "c" []) (PclusterConfig.mk "/cfg" "c" []) []
    (mkChange "vpc" "default" "vpc_id" (VStr "a") (VStr "b") UpdatePolicy.DENIED)
    [mkChange "vpc" "default" "x" VNone (VInt 1) UpdatePolicy.ALLOWED]
    eq_refl eq_refl).
  reflexivity.
Defined.

(** ** The aggregate level *)

Lemma fold_max_ge (l : list Z) (a : Z) :
  a <= fold_left Z.max l a /\ (forall x, In x l -> x <= fold_left Z.max l a).
Proof.
  revert a. induction l as [|y l IH]; intros a; simpl.
  - split; [lia | intros x []].
  - destruct (IH (Z.max a y)) as [H1 H2]. split; [lia|].
    intros x [->|Hx]; [lia | auto].
Qed.

Lemma fold_max_in (l : list Z) (a : Z) :
  fold_left Z.max l a = a \/ In (fold_left Z.max l a) l.
Proof.
  revert a. induction l as [|y l IH]; intros a; simpl; [left; reflexivity|].
  destruct (IH (Z.max a y)) as [H|H]; [|right; right; exact H].
  rewrite H. destruct (Z.max_spec a y) as [[_ ->]|[_ ->]]; [right; left|left]; reflexivity.
Qed.

Lemma update_policy_level_upper (self : ConfigPatch.t) (c : Change) :
  In c (ConfigPatch.changes self) ->
  change_level c <= ConfigPatch.update_policy_level self.
Proof.
  unfold ConfigPatch.update_policy_level, change_level.
  destruct (ConfigPatch.changes self) as [|c0 rest]; [intros []|].
  intros [<-|Hin]; [apply (proj1 (fold_max_ge _ _))|].
  apply (proj2 (fold_max_ge _ _)). apply in_map_iff. exists c. auto.
Qed.

Lemma update_policy_level_attained (self : ConfigPatch.t) :
  ConfigPatch.changes self <> [] ->
  exists c, In c (ConfigPatch.changes self)
            /\ change_level c = ConfigPatch.update_policy_level self.
Proof.
  unfold ConfigPatch.update_policy_level, change_level.
  destruct (ConfigPatch.changes self) as [|c0 rest]; [congruence|]. intros _.
  destruct (fold_max_in (map (fun c => UpdatePolicy.level (update_policy c)) rest)
              (UpdatePolicy.level (update_policy c0))) as [H|H].
  - exists c0. split; [left; reflexivity | symmetry; exact H].
  - apply in_map_iff in H as (c & Hc & Hin). exists c. split; [right; exact Hin | exact Hc].
Qed.

(** C4: the aggregate update-policy level of a patch is the greatest level
    among its changes when it has any (it is the level of one of them and
    no change has a greater one), it is the level of ALLOWED, 0, when it has
    none, and two patches whose changes are the same up to order have the
    same aggregate level. *)
Theorem update_policy_level_is_max (self : ConfigPatch.t) :
  (ConfigPatch.changes self = [] ->
   ConfigPatch.update_policy_level self = UpdatePolicy.level UpdatePolicy.ALLOWED
   /\ UpdatePolicy.level UpdatePolicy.ALLOWED = 0)
  /\ (ConfigPatch.changes self <> [] ->
      (exists c, In c (ConfigPatch.changes self)
                 /\ change_level c = ConfigPatch.update_policy_level self)
      /\ (forall c, In c (ConfigPatch.changes self) ->
                    change_level c <= ConfigPatch.update_policy_level self))
  /\ (forall other : ConfigPatch.t,
        Permutation (ConfigPatch.changes self) (ConfigPatch.changes other) ->
        ConfigPatch.update_policy_level other = ConfigPatch.update_policy_level self).
Proof.
  split; [|split].
  - intros Hnil. unfold ConfigPatch.update_policy_level. rewrite Hnil.
    split; reflexivity.
  - intros Hne. split; [apply update_policy_level_attained; exact Hne|].
    intros c. apply update_policy_level_upper.
  - intros other Hperm.
    destruct (ConfigPatch.changes self) as [|c0 rest] eqn:Hself.
    + apply Permutation_nil in Hperm.
      unfold ConfigPatch.update_policy_level. rewrite Hself, Hperm. reflexivity.
    + assert (Hs : ConfigPatch.changes self <> []) by (rewrite Hself; discriminate).
      assert (Ho : ConfigPatch.changes other <> []).
      { intros Hnil. rewrite Hnil in Hperm. apply Permutation_sym, Permutation_nil in Hperm.
        discriminate. }
      rewrite <- Hself in Hperm.
      destruct (update_policy_level_attained self Hs) as (c1 & Hin1 & Hl1).
      destruct (update_policy_level_attained other Ho) as (c2 & Hin2 & Hl2).
      pose proof (update_policy_level_upper other c1
                    (Permutation_in _ Hperm Hin1)) as H1.
      pose proof (update_policy_level_upper self c2
                    (Permutation_in _ (Permutation_sym Hperm) Hin2)) as H2.
      lia.
Qed.

Lemma update_policy_level_is_max_witness :
  ConfigPatch.update_policy_level
    (ConfigPatch.mk empty_config empty_config
       [change_at_level 1000; change_at_level 20; change_at_level 10]) = 1000
  /\ ConfigPatch.update_policy_level
       (ConfigPatch.mk empty_config empty_config []) = 0.
Proof.
  split.
  - rewrite (proj2 (proj2 (update_policy_level_is_max
               (ConfigPatch.mk empty_config empty_config
                  [change_at_level 10; change_at_level 1000; change_at_level 20])))
               (ConfigPatch.mk empty_config empty_config
                  [change_at_level 1000; change_at_level 20; change_at_level 10])).
    + reflexivity.
    + simpl. apply (Permutation_cons_app [change_at_level 1000; change_at_level 20] []).
      apply Permutation_refl.
  - destruct (proj1 (update_policy_level_is_max
                (ConfigPatch.mk empty_config empty_config [])) eq_refl) as [H1 H2].
    rewrite H1. exact H2.
Defined.

(** ** ConfigPatch.check *)

Section CheckLoop.
Variable self : ConfigPatch.t.
Variable stack_name : string.

Let step := ConfigPatch.check_change self stack_name.

Lemma check_change_ignored st change :
  reported change = false -> step st change = Ok st.
Proof.
  intros H. unfold step, ConfigPatch.check_change. destruct st as [[a r] s].
  unfold reported in H. rewrite H. reflexivity.
Qed.

Lemma check_change_reported a r s change :
  reported change = true ->
  step (a, r, s) change =
  (check_result ← UpdatePolicy.check (update_policy change) stack_name;
   Ok (if negb (UpdatePolicy.CheckResult_eqb check_result UpdatePolicy.SUCCEEDED)
       then false else a,
       (r ++ [ConfigPatch.report_row change check_result])%list,
       if negb (UpdatePolicy.CheckResult_eqb check_result UpdatePolicy.SUCCEEDED)
          && str_truthy (UpdatePolicy.action_needed (update_policy change))
       then {[ ConfigPatch.substitute self
                 (default "" (UpdatePolicy.action_needed (update_policy change))) ]} ∪ s
       else s)).
Proof.
  intros H. unfold step, ConfigPatch.check_change.
  unfold reported in H. rewrite H. reflexivity.
Qed.

Lemma check_skips_ignored l st :
  for_each step l st = for_each step (List.filter reported l) st.
Proof.
  revert st. induction l as [|c l IH]; intros st; cbn [for_each List.filter];
    [reflexivity|].
  destruct (reported c) eqn:Hr.
  - cbn [for_each]. destruct (step st c); simpl; [apply IH | reflexivity].
  - rewrite check_change_ignored by exact Hr. simpl. apply IH.
Qed.

Lemma str_truthy_Some (o : option string) :
  str_truthy o = true <-> exists text, o = Some text /\ text <> "".
Proof.
  destruct o as [t|]; simpl.
  - rewrite negb_true_iff, String.eqb_neq. split.
    + intros H. exists t. auto.
    + intros (t' & [= <-] & H). exact H.
  - split; [discriminate | intros (t & H & _); discriminate].
Qed.

Lemma contributes_iff change r a :
  reported change = true ->
  UpdatePolicy.check (update_policy change) stack_name = Ok r ->
  contributes self stack_name change a <->
  negb (UpdatePolicy.CheckResult_eqb r UpdatePolicy.SUCCEEDED)
    && str_truthy (UpdatePolicy.action_needed (update_policy change)) = true
  /\ a = ConfigPatch.substitute self
           (default "" (UpdatePolicy.action_needed (update_policy change))).
Proof.
  intros Hrep Hr. unfold contributes. rewrite Hr, andb_true_iff, str_truthy_Some.
  split.
  - intros (_ & Hne & text & Hact & Htext & ->). rewrite Hact. simpl.
    repeat split; [|eauto].
    destruct r; simpl; congruence.
  - intros ((Hneg & text & Hact & Htext) & ->). rewrite Hact. simpl.
    repeat split; [exact Hrep| |eauto].
    destruct r; simpl in Hneg; congruence.
Qed.

Lemma check_loop_inv l : forall a0 r0 s0 allowed rows acts,
  for_each step l (a0, r0, s0) = Ok (allowed, rows, acts) ->
  (allowed = true <->
   a0 = true /\ forall c, In c l -> reported c = true ->
     UpdatePolicy.check (update_policy c) stack_name = Ok UpdatePolicy.SUCCEEDED)
  /\ (exists new, rows = (r0 ++ new)%list
                  /\ Forall2 (row_of stack_name) (List.filter reported l) new)
  /\ (forall a, a ∈ acts <->
                a ∈ s0 \/ exists c, In c l /\ contributes self stack_name c a).
Proof.
  induction l as [|c l IH]; intros a0 r0 s0 allowed rows acts H; cbn [for_each] in H.
  - injection H as <- <- <-. split; [|split].
    + split; [intros ->; split; [reflexivity | intros c []] | intros [-> _]; reflexivity].
    + exists []. rewrite app_nil_r. split; [reflexivity | constructor].
    + intros a. split; [auto | intros [Ha|(c & [] & _)]; exact Ha].
  - destruct (reported c) eqn:Hrep.
    + rewrite check_change_reported in H by exact Hrep.
      destruct (UpdatePolicy.check (update_policy c) stack_name) as [r|e] eqn:Hr;
        simpl in H; [|discriminate].
      apply IH in H as (Hall & (new & -> & Hrows) & Hacts).
      split; [|split].
      * rewrite Hall. split.
        -- intros [Ha Hl]. destruct r; simpl in Ha; try discriminate.
           split; [exact Ha|]. intros c' [<-|Hin] Hrep'; [exact Hr | auto].
        -- intros [-> Hl]. pose proof (Hl c (or_introl eq_refl) Hrep) as Hs.
           rewrite Hr in Hs. injection Hs as ->. simpl.
           split; [reflexivity|]. intros c' Hin. apply Hl. right. exact Hin.
      * exists (ConfigPatch.report_row c r :: new). simpl. rewrite Hrep.
        rewrite <- app_assoc. split; [reflexivity|].
        constructor; [exists r; auto | exact Hrows].
      * intros a. rewrite Hacts. split.
        -- intros [Ha|(c' & Hin & Hc')]; [|right; exists c'; split; [right|]; assumption].
           destruct (negb _ && _) eqn:Hcond; [|left; exact Ha].
           apply elem_of_union in Ha as [Ha|Ha]; [|left; exact Ha].
           apply elem_of_singleton in Ha. right. exists c. split; [left; reflexivity|].
           apply (contributes_iff c r a Hrep Hr). auto.
        -- intros [Ha|(c' & [<-|Hin] & Hc')].
           ++ left. destruct (negb _ && _); [apply elem_of_union; right|]; exact Ha.
           ++ left. apply (contributes_iff c r a Hrep Hr) in Hc' as [-> ->].
              apply elem_of_union. left. apply elem_of_singleton. reflexivity.
           ++ right. exists c'. auto.
    + rewrite check_change_ignored in H by exact Hrep. simpl in H.
      apply IH in H as (Hall & Hrows & Hacts).
      split; [|split].
      * rewrite Hall. split; intros [Ha Hl]; (split; [exact Ha|]).
        -- intros c' [<-|Hin] Hrep'; [congruence | auto].
        -- intros c' Hin. apply Hl. right. exact Hin.
      * simpl. rewrite Hrep. exact Hrows.
      * intros a. rewrite Hacts. split.
        -- intros [Ha|(c' & Hin & Hc')]; [left; exact Ha|].
           right. exists c'. split; [right|]; assumption.
        -- intros [Ha|(c' & [<-|Hin] & Hc')]; [left; exact Ha| |right; exists c'; auto].
           destruct Hc' as (Hrep' & _). congruence.
Qed.

Lemma check_loop_succeeds l : forall a0 r0 s0,
  (forall c, In c l -> reported c = true ->
     UpdatePolicy.check (update_policy c) stack_name = Ok UpdatePolicy.SUCCEEDED) ->
  exists rows acts, for_each step l (a0, r0, s0) = Ok (a0, rows, acts).
Proof.
  induction l as [|c l IH]; intros a0 r0 s0 Hl; cbn [for_each].
  - eauto.
  - destruct (reported c) eqn:Hrep.
    + rewrite check_change_reported by exact Hrep.
      rewrite (Hl c (or_introl eq_refl) Hrep). simpl.
      apply IH. intros c' Hin. apply Hl. right. exact Hin.
    + rewrite check_change_ignored by exact Hrep. simpl.
      apply IH. intros c' Hin. apply Hl. right. exact Hin.
Qed.
End CheckLoop.

(** C1: check(stack_name) returns allowed = true exactly when the policy
    check of every change whose policy does not equal IGNORED returns
    SUCCEEDED; changes whose policy equals IGNORED are skipped (the result is
    the one of the patch without them); the rows after the header are those
    of the remaining changes in their order; and the remediation set holds,
    once each, exactly the substituted texts of the failing changes. *)
Theorem check_allowed_rows_actions (self : ConfigPatch.t) (stack_name : string) :
  ((exists rows acts, ConfigPatch.check self stack_name = Ok (true, rows, acts)) <->
   (forall c, In c (ConfigPatch.changes self) -> reported c = true ->
      UpdatePolicy.check (update_policy c) stack_name = Ok UpdatePolicy.SUCCEEDED))
  /\ ConfigPatch.check self stack_name
     = for_each (ConfigPatch.check_change self stack_name)
         (List.filter reported (ConfigPatch.changes self)) (true, [ConfigPatch.header], ∅)
  /\ (forall allowed rows acts,
        ConfigPatch.check self stack_name = Ok (allowed, rows, acts) ->
        (exists new, rows = ConfigPatch.header :: new
           /\ Forall2 (row_of stack_name)
                (List.filter reported (ConfigPatch.changes self)) new)
        /\ NoDup (elements acts)
        /\ (forall a, a ∈ acts <->
              exists c, In c (ConfigPatch.changes self)
                        /\ contributes self stack_name c a)).
Proof.
  unfold ConfigPatch.check. split; [|split].
  - split.
    + intros (rows & acts & H). apply check_loop_inv in H as (Hall & _).
      apply Hall. reflexivity.
    + intros Hl. apply check_loop_succeeds. exact Hl.
  - apply check_skips_ignored.
  - intros allowed rows acts H.
    apply check_loop_inv in H as (_ & (new & -> & Hrows) & Hacts).
    split; [exists new; split; [reflexivity | exact Hrows]|].
    split; [apply NoDup_elements|].
    intros a. rewrite Hacts. split.
    + intros [Ha|H]; [|exact H]. apply not_elem_of_empty in Ha. destruct Ha.
    + intros H. right. exact H.
Qed.

Lemma check_allowed_rows_actions_witness :
  exists rows acts,
    ConfigPatch.check
      (ConfigPatch.mk user_config user_config
         [change_with "a" (answering 10 true);
          change_with "b" (UpdatePolicy.init None (Some (-10)) None None None)])
      "stack"
    = Ok (true, rows, acts).
Proof.
  apply (proj1 (check_allowed_rows_actions _ "stack")).
  simpl. intros c [<-|[<-|[]]]; [reflexivity | discriminate].
Defined.

(** C7, as the code has it: an exception raised by the condition checker of
    a reported change leaves UpdatePolicy.check and ConfigPatch.check: when
    the changes before it are checked without an exception, check raises
    that exception, whatever changes come after, and returns no verdict, no
    rows and no remediation set. *)
Theorem check_propagates_checker_exception
    (base target : PclusterConfig.t) (stack_name : string)
    (before after : list Change) (change : Change)
    (c : UpdatePolicy.checker) (e : exn) :
  (forall x, In x before -> reported x = true ->
     is_Ok (UpdatePolicy.check (update_policy x) stack_name) = true) ->
  reported change = true ->
  UpdatePolicy.condition_checker (update_policy change) = Some c ->
  c stack_name = Raise e ->
  UpdatePolicy.check (update_policy change) stack_name = Raise e
  /\ ConfigPatch.check
       (ConfigPatch.mk base target (before ++ change :: after)) stack_name = Raise e.
Proof.
  intros Hbefore Hrep Hc He.
  assert (Hcheck : UpdatePolicy.check (update_policy change) stack_name = Raise e).
  { unfold UpdatePolicy.check. rewrite Hc, He. reflexivity. }
  split; [exact Hcheck|].
  unfold ConfigPatch.check. simpl ConfigPatch.changes. rewrite for_each_app.
  set (self := ConfigPatch.mk base target (before ++ change :: after)).
  assert (Hok : forall st, exists st',
             for_each (ConfigPatch.check_change self stack_name) before st = Ok st').
  { clear -Hbefore. induction before as [|x l IH]; intros st; cbn [for_each]; [eauto|].
    destruct st as [[a r] s]. destruct (reported x) eqn:Hx.
    - rewrite check_change_reported by exact Hx.
      pose proof (Hbefore x (or_introl eq_refl) Hx) as Hxok.
      destruct (UpdatePolicy.check (update_policy x) stack_name); [|discriminate].
      simpl. apply IH. intros y Hy. apply Hbefore. right. exact Hy.
    - rewrite check_change_ignored by exact Hx. simpl.
      apply IH. intros y Hy. apply Hbefore. right. exact Hy. }
  destruct (Hok (true, [ConfigPatch.header], ∅)) as ([[a r] s] & ->).
  unfold mbind, outcome_bind. cbn [for_each].
  rewrite check_change_reported by exact Hrep. rewrite Hcheck. reflexivity.
Qed.

Lemma check_propagates_checker_exception_witness :
  ConfigPatch.check
    (ConfigPatch.mk user_config user_config
       ([change_with "a" (answering 10 true)] ++ change_with "b" raising
          :: [change_with "c" (answering 20 false)]))
    "stack"
  = Raise (Exception "Unable to reach the stack").
Proof.
  refine (proj2 (check_propagates_checker_exception user_config user_config "stack"
            [change_with "a" (answering 10 true)] [change_with "c" (answering 20 false)]
            (change_with "b" raising)
            (fun _ => Raise (Exception "Unable to reach the stack"))
            (Exception "Unable to reach the stack") _ eq_refl eq_refl eq_refl)).
  intros x [<-|[]] _. reflexivity.
Defined.

(** C7, as the claim states it, fails: with a first change whose checker
    raises and a second whose checker answers, check returns nothing and the
    second change is not reported. *)
Lemma check_isolates_exception_counterexample :
  ConfigPatch.check
    (ConfigPatch.mk user_config user_config
       [change_with "b" raising; change_with "c" (answering 20 false)])
    "stack"
  = Raise (Exception "Unable to reach the stack")
  /\ ~ (exists allowed rows acts,
          ConfigPatch.check
            (ConfigPatch.mk user_config user_config
               [change_with "b" raising; change_with "c" (answering 20 false)])
            "stack"
          = Ok (allowed, rows, acts)).
Proof.
  split; [reflexivity|].
  intros (allowed & rows & acts & H). discriminate H.
Qed.

(** C8, at the failing input: for a refused COMPUTE_FLEET_RESTART change the
    remediation set holds the text in which both placeholders, $CONFIG_FILE
    and $CLUSTER_NAME, are replaced by the configuration-file path; the text
    with the cluster name is not in the set. *)
Theorem check_replaces_cluster_name_by_config_file :
  exists rows acts,
    ConfigPatch.check busy_fleet_patch "parallelcluster-mycluster"
    = Ok (false, rows, acts)
    /\ elements acts = [stop_command_in_code]
    /\ (expected_stop_command ∉ acts)
    /\ PclusterConfig.cluster_name (ConfigPatch.base_config busy_fleet_patch)
       = "mycluster".
Proof.
  eexists _, _. split; [reflexivity|]. split; [vm_compute; reflexivity|].
  split; [|reflexivity].
  intros H. apply elem_of_elements in H. revert H.
  replace (elements _) with [stop_command_in_code] by (vm_compute; reflexivity).
  intros H. apply list_elem_of_singleton in H. vm_compute in H. discriminate H.
Qed.

(** ** Comparison of two sections *)

Section CompareSection.
Variable target_section : Sect.t.

Lemma compare_param_base (base_section : Sect.t) changes q :
  ConfigPatch.compare_param (Some base_section) target_section changes q
  = match Sect.get_param base_section (Param.key q) with
    | Some p =>
        Ok (if py_ne (Param.value p) (Param.value q)
            then (changes ++
                   [mkChange (Sect.key target_section) (Sect.label target_section)
                      (Param.key q) (Param.value p) (Param.value q)
                      (Param.update_policy q)])%list
            else changes)
    | None => Raise (AttributeError "value")
    end.
Proof.
  unfold ConfigPatch.compare_param.
  destruct (Sect.get_param base_section (Param.key q)); reflexivity.
Qed.

Lemma compare_param_no_base changes q :
  ConfigPatch.compare_param None target_section changes q
  = Ok (if py_ne VNone (Param.value q)
        then (changes ++ [added_param_change target_section q])%list
        else changes).
Proof. reflexivity. Qed.

Lemma compare_params_present (base_section : Sect.t) (ps : list Param.t) :
  forall changes changes',
  for_each (ConfigPatch.compare_param (Some base_section) target_section) ps changes
  = Ok changes' ->
  (forall p, In p ps -> Sect.get_param base_section (Param.key p) <> None)
  /\ exists new, changes' = (changes ++ new)%list
       /\ forall c, In c new ->
            exists p, Sect.get_param base_section (param_key c) = Some p
                      /\ old_value c = Param.value p.
Proof.
  induction ps as [|q ps IH]; intros changes changes' H; cbn [for_each] in H.
  - assert (changes' = changes) as -> by congruence. split; [intros p []|].
    exists []. rewrite app_nil_r. split; [reflexivity | intros c []].
  - rewrite compare_param_base in H.
    destruct (Sect.get_param base_section (Param.key q)) as [bp|] eqn:Hq;
      [|discriminate].
    apply IH in H as (Hall & new & -> & Hnew).
    split; [intros p [<-|Hin]; [congruence | auto]|].
    destruct (py_ne (Param.value bp) (Param.value q)).
    + eexists (_ :: new). rewrite <- app_assoc. split; [reflexivity|].
      intros c [<-|Hin]; [exists bp; auto | auto].
    + exists new. auto.
Qed.

Lemma compare_params_absent (base_section : Sect.t) (ps : list Param.t) :
  forall changes,
  (exists p, In p ps /\ Sect.get_param base_section (Param.key p) = None) ->
  for_each (ConfigPatch.compare_param (Some base_section) target_section) ps changes
  = Raise (AttributeError "value").
Proof.
  induction ps as [|q ps IH]; intros changes (p & Hin & Hp); [destruct Hin|].
  cbn [for_each]. rewrite compare_param_base.
  destruct (Sect.get_param base_section (Param.key q)) as [bp|] eqn:Hq;
    [|reflexivity].
  apply IH. destruct Hin as [<-|Hin]; [congruence | eauto].
Qed.

Lemma compare_params_no_base (ps : list Param.t) :
  forall changes,
  for_each (ConfigPatch.compare_param None target_section) ps changes
  = Ok (changes ++ map (added_param_change target_section)
                    (List.filter (fun p => py_ne VNone (Param.value p)) ps))%list.
Proof.
  induction ps as [|q ps IH]; intros changes; cbn [for_each List.filter map].
  - rewrite app_nil_r. reflexivity.
  - rewrite compare_param_no_base.
    change (for_each (ConfigPatch.compare_param None target_section) ps
              (if py_ne VNone (Param.value q)
               then (changes ++ [added_param_change target_section q])%list
               else changes)
            = Ok (changes ++
                    map (added_param_change target_section)
                      (if py_ne VNone (Param.value q)
                       then q :: List.filter (fun p => py_ne VNone (Param.value p)) ps
                       else List.filter (fun p => py_ne VNone (Param.value p)) ps))%list).
    rewrite IH. destruct (py_ne VNone (Param.value q)); [|reflexivity].
    simpl. rewrite <- app_assoc. reflexivity.
Qed.
End CompareSection.

(** C10: in the comparison of one section, when the base section is present
    the old value of every change is the value of the base section's
    parameter of that key, and the comparison fails with an attribute error
    exactly when some parameter of the target section has no counterpart in
    the base section; only when the base section is absent is the old value
    None, for every parameter of the target whose value is not None. *)
Theorem compare_section_base_value
    (base_section target_section : Sect.t) (changes : list Change) :
  ((exists p, In p (Sect.params target_section)
              /\ Sect.get_param base_section (Param.key p) = None) <->
   ConfigPatch._compare_section (Some base_section) (Some target_section) changes
   = Raise (AttributeError "value"))
  /\ (forall changes',
        ConfigPatch._compare_section (Some base_section) (Some target_section) changes
        = Ok changes' ->
        exists new, changes' = (changes ++ new)%list
          /\ forall c, In c new ->
               exists p, Sect.get_param base_section (param_key c) = Some p
                         /\ old_value c = Param.value p)
  /\ ConfigPatch._compare_section None (Some target_section) changes
     = Ok (changes ++ map (added_param_change target_section)
                       (List.filter (fun p => py_ne VNone (Param.value p))
                          (Sect.params target_section)))%list.
Proof.
  unfold ConfigPatch._compare_section. split; [|split].
  - split; [apply compare_params_absent|].
    intros H.
    destruct (List.find (fun p => match Sect.get_param base_section (Param.key p) with
                                  | None => true | Some _ => false end)
                (Sect.params target_section)) as [p|] eqn:Hfind.
    + apply find_some in Hfind as [Hin Hp]. exists p. split; [exact Hin|].
      destruct (Sect.get_param base_section (Param.key p)); [discriminate | reflexivity].
    + exfalso. revert changes H. induction (Sect.params target_section) as [|q ps IH];
        intros changes H; cbn [for_each] in H; [discriminate|].
      simpl in Hfind. rewrite compare_param_base in H.
      destruct (Sect.get_param base_section (Param.key q)) as [bp|]; [|discriminate].
      eapply IH; [exact Hfind | exact H].
  - intros changes' H. eapply compare_params_present. exact H.
  - apply compare_params_no_base.
Qed.

Lemma compare_section_base_value_witness :
  ConfigPatch._compare_section
    (Some (one_param_section "vpc" "default" "vpc_id" (VStr "vpc-1")))
    (Some (one_param_section "vpc" "default" "additional_sg" (VStr "sg-1"))) []
  = Raise (AttributeError "value")
  /\ ConfigPatch._compare_section
       (Some (one_param_section "vpc" "default" "vpc_id" (VStr "vpc-1")))
       (Some (one_param_section "vpc" "default" "vpc_id" (VStr "vpc-2"))) []
     = Ok [mkChange "vpc" "default" "vpc_id" (VStr "vpc-1") (VStr "vpc-2")
             UpdatePolicy.DENIED].
Proof.
  split.
  - apply (proj1 (compare_section_base_value _ _ [])).
    eexists. split; [left; reflexivity | reflexivity].
  - destruct (proj1 (proj2 (compare_section_base_value
        (one_param_section "vpc" "default" "vpc_id" (VStr "vpc-1"))
        (one_param_section "vpc" "default" "vpc_id" (VStr "vpc-2")) []))
        _ eq_refl) as (new & Hnew & _).
    reflexivity.
Defined.

(** ** The constructor on objects *)

(** ** The caller's configurations *)

Lemma step_refl D h : closed D h -> step D h h.
Proof. intros H. split; [intros l _; reflexivity | exact H]. Qed.

Lemma step_trans D h h1 h2 : step D h h1 -> step D h1 h2 -> step D h h2.
Proof.
  intros [K1 C1] [K2 C2]. split; [|exact C2].
  intros l Hl. rewrite (K2 l Hl). apply K1. exact Hl.
Qed.

Lemma step_insert D h l o :
  closed D h -> l ∉ D -> Forall (fun x => x ∉ D) (Store.references o) ->
  step D h (<[l := o]> h).
Proof.
  intros [Hdom Hrefs] Hl Ho. split; [|split].
  - intros l' Hl'. apply lookup_insert_ne. intros ->. contradiction.
  - rewrite dom_insert. set_solver.
  - intros l' o' Hl' Hlook. destruct (decide (l = l')) as [<-|Hne].
    + rewrite lookup_insert_eq in Hlook. injection Hlook as <-. exact Ho.
    + rewrite lookup_insert_ne in Hlook by exact Hne. eapply Hrefs; eassumption.
Qed.

Lemma closed_sections D h config :
  closed D h -> config ∉ D -> Forall (fun x => x ∉ D) (Store.sections_of h config).
Proof.
  intros [_ Hrefs] Hc. unfold Store.sections_of.
  destruct (h !! config) as [[cf cn ls|?|?]|] eqn:Hlook; try constructor.
  apply (Hrefs config _ Hc Hlook).
Qed.

Lemma closed_params D h section :
  closed D h -> section ∉ D -> Forall (fun x => x ∉ D) (Store.params_of h section).
Proof.
  intros [_ Hrefs] Hc. unfold Store.params_of.
  destruct (h !! section) as [[?|d l ps m|?]|] eqn:Hlook; try constructor.
  apply (Hrefs section _ Hc Hlook).
Qed.

Lemma step_set_sections D h config ls :
  closed D h -> config ∉ D -> Forall (fun x => x ∉ D) ls ->
  step D h (Store.set_sections config ls h).
Proof.
  intros Hc Hconfig Hls. unfold Store.set_sections.
  destruct (h !! config) as [[cf cn ls0|?|?]|]; try (apply step_refl; exact Hc).
  apply step_insert; assumption.
Qed.

Lemma step_set_label_of D h section new :
  closed D h -> section ∉ D -> step D h (Store.set_label_of section new h).
Proof.
  intros Hc Hs. unfold Store.set_label_of.
  destruct (h !! section) as [[?|d l ps m|?]|] eqn:Hlook; try (apply step_refl; exact Hc).
  apply step_insert; [exact Hc | exact Hs |].
  apply (proj2 Hc section _ Hs Hlook).
Qed.

Lemma step_set_value_of D h p v :
  closed D h -> p ∉ D -> step D h (Store.set_value_of p v h).
Proof.
  intros Hc Hp. unfold Store.set_value_of.
  destruct (h !! p) as [[?|?|x]|]; try (apply step_refl; exact Hc).
  apply step_insert; [exact Hc | exact Hp | constructor].
Qed.

Lemma step_fold {A : Type} D (f : Store.heap -> A -> Store.heap) (l : list A) :
  (forall h x, In x l -> closed D h -> step D h (f h x)) ->
  forall h, closed D h -> step D h (fold_left f l h).
Proof.
  induction l as [|x l IH]; intros Hf h Hc; simpl; [apply step_refl; exact Hc|].
  pose proof (Hf h x (or_introl eq_refl) Hc) as H1.
  eapply step_trans; [exact H1|].
  apply IH; [|exact (proj2 H1)]. intros h' y Hy. apply Hf. right. exact Hy.
Qed.

Lemma step_refresh D h config :
  closed D h -> config ∉ D -> step D h (Store.refresh config h).
Proof.
  intros Hc Hconfig. unfold Store.refresh.
  assert (Hps : Forall (fun x => x ∉ D)
                  (concat (map (Store.params_of h) (Store.sections_of h config)))).
  { pose proof (closed_sections D h config Hc Hconfig) as Hls.
    induction Hls as [|s ls Hs _ IH]; simpl; [constructor|].
    apply Forall_app. split; [apply closed_params; assumption | exact IH]. }
  rewrite List.Forall_forall in Hps.
  apply step_fold; [|exact Hc].
  intros h' p Hp Hc'. unfold Store.refresh_param.
  destruct (Store.param_at h' p) as [param|]; [|apply step_refl; exact Hc'].
  destruct (Param.referred_section_key param); [|apply step_refl; exact Hc'].
  apply step_set_value_of; [exact Hc' | apply Hps; exact Hp].
Qed.

Lemma step_alloc D h o :
  closed D h -> Forall (fun x => x ∉ D) (Store.references o) ->
  step D h (Store.alloc o h).1 /\ ((Store.alloc o h).2 ∉ D)
  /\ dom h ⊆ dom (Store.alloc o h).1 /\ ((Store.alloc o h).2 ∉ dom h)
  /\ (Store.alloc o h).2 ∈ dom (Store.alloc o h).1.
Proof.
  intros Hc Ho. unfold Store.alloc. simpl.
  assert (Hfresh : fresh (dom h) ∉ dom h) by apply is_fresh.
  assert (HD : fresh (dom h) ∉ D) by (intros H; apply Hfresh, (proj1 Hc); exact H).
  split; [apply step_insert; assumption|]. split; [exact HD|].
  rewrite dom_insert. split; [set_solver|]. split; [exact Hfresh | set_solver].
Qed.

Lemma step_alloc_params D (params : list Param.t) : forall h,
  closed D h ->
  step D h (Store.alloc_params params h).1
  /\ Forall (fun x => x ∉ D) (Store.alloc_params params h).2.
Proof.
  induction params as [|param params IH]; intros h Hc; simpl.
  - split; [apply step_refl; exact Hc | constructor].
  - destruct (step_alloc D h (Store.ParamObj param) Hc ltac:(constructor))
      as (H1 & Hp & _).
    unfold Store.alloc in *. simpl in *.
    destruct (IH _ (proj2 H1)) as [H2 Hps].
    destruct (Store.alloc_params params (<[fresh (dom h) := Store.ParamObj param]> h))
      as [h2 ps]. simpl in *.
    split; [eapply step_trans; eassumption | constructor; assumption].
Qed.

Lemma step_new_section D h s :
  closed D h ->
  step D h (Store.new_section s h).1 /\ ((Store.new_section s h).2 ∉ D).
Proof.
  intros Hc. unfold Store.new_section.
  destruct (step_alloc_params D (Sect.params s) h Hc) as [H1 Hps].
  destruct (Store.alloc_params (Sect.params s) h) as [h1 ps]. simpl in *.
  destruct (step_alloc D h1
              (Store.SectionObj (Sect.defn s) (Sect.label s) ps (Sect.mock s))
              (proj2 H1) Hps) as (H2 & Hl & _).
  split; [eapply step_trans; eassumption | exact Hl].
Qed.

Lemma Forall_add_raw (D : gset positive) h k l s ls :
  s ∉ D -> Forall (fun x => x ∉ D) ls ->
  Forall (fun x => x ∉ D) (Store.add_raw h k l s ls).
Proof.
  intros Hs Hls. induction Hls as [|x ls Hx Hls IH]; simpl.
  - constructor; [exact Hs | constructor].
  - destruct (Store.at_slot h k l x); constructor; assumption.
Qed.

Lemma Forall_filter_keep {A : Type} (P : A -> Prop) (f : A -> bool) (l : list A) :
  Forall P l -> Forall P (List.filter f l).
Proof.
  intros H. rewrite List.Forall_forall in *. intros x Hx.
  apply filter_In in Hx as [Hx _]. auto.
Qed.

Lemma step_add_section D h config s :
  closed D h -> config ∉ D -> s ∉ D -> step D h (Store.add_section config s h).
Proof.
  intros Hc Hconfig Hs. unfold Store.add_section.
  destruct (Store.section_at h s) as [x|]; [|apply step_refl; exact Hc].
  assert (H1 : step D h
                 (Store.set_sections config
                    (Store.add_raw h (Sect.key x) (Sect.label x) s
                       (Store.sections_of h config)) h)).
  { apply step_set_sections; [exact Hc | exact Hconfig |].
    apply Forall_add_raw; [exact Hs | apply closed_sections; assumption]. }
  eapply step_trans; [exact H1|]. apply step_refresh; [exact (proj2 H1) | exact Hconfig].
Qed.

Lemma step_remove_labelled D h config k l :
  closed D h -> config ∉ D -> step D h (Store.remove_labelled config k l h).
Proof.
  intros Hc Hconfig. unfold Store.remove_labelled.
  assert (H1 : step D h
                 (Store.set_sections config
                    (List.filter (fun s => negb (Store.at_slot h k l s))
                       (Store.sections_of h config)) h)).
  { apply step_set_sections; [exact Hc | exact Hconfig |].
    apply Forall_filter_keep, closed_sections; assumption. }
  eapply step_trans; [exact H1|]. apply step_refresh; [exact (proj2 H1) | exact Hconfig].
Qed.

Lemma step_set_label D h config k old new :
  closed D h -> config ∉ D -> step D h (Store.set_label config k old new h).
Proof.
  intros Hc Hconfig. unfold Store.set_label.
  destruct (String.eqb old new); [apply step_refresh; assumption|].
  set (ls := List.filter (fun s => negb (Store.at_slot h k new s))
               (Store.sections_of h config)).
  assert (Hls : Forall (fun x => x ∉ D) ls)
    by (apply Forall_filter_keep, closed_sections; assumption).
  assert (H1 : step D h
                 (fold_left
                    (fun h' s => if Store.at_slot h k old s
                                 then Store.set_label_of s new h' else h') ls h)).
  { apply step_fold; [|exact Hc]. intros h' s Hin Hc'.
    destruct (Store.at_slot h k old s); [|apply step_refl; exact Hc'].
    apply step_set_label_of; [exact Hc'|].
    rewrite List.Forall_forall in Hls. apply Hls. exact Hin. }
  eapply step_trans; [exact H1|].
  assert (H2 : step D _ (Store.set_sections config ls
                 (fold_left
                    (fun h' s => if Store.at_slot h k old s
                                 then Store.set_label_of s new h' else h') ls h)))
    by (apply step_set_sections; [exact (proj2 H1) | exact Hconfig | exact Hls]).
  eapply step_trans; [exact H2|]. apply step_refresh; [exact (proj2 H2) | exact Hconfig].
Qed.

(** *** Computations *)

Lemma local_ret {A : Type} D (a : A) (Q : A -> Prop) : Q a -> local D (mret a) Q.
Proof.
  intros Ha h Hc. split; [apply step_refl; exact Hc|].
  intros a' [= <-]. exact Ha.
Qed.

Lemma local_bind {A B : Type} D (m : Store.M A) (f : A -> Store.M B) P Q :
  local D m P -> (forall a, P a -> local D (f a) Q) -> local D (m ≫= f) Q.
Proof.
  intros Hm Hf h Hc. unfold mbind, Store.M_bind.
  destruct (Hm h Hc) as [H1 Hres].
  destruct (m h) as [h1 [a|e]]; simpl in *.
  - destruct (Hf a (Hres a eq_refl) h1 (proj2 H1)) as [H2 HQ].
    split; [eapply step_trans; eassumption | exact HQ].
  - split; [exact H1 | discriminate].
Qed.

Lemma local_weaken {A : Type} D (m : Store.M A) (P Q : A -> Prop) :
  local D m P -> (forall a, P a -> Q a) -> local D m Q.
Proof.
  intros Hm HPQ h Hc. destruct (Hm h Hc) as [H1 H2]. split; [exact H1|]. auto.
Qed.

Lemma local_modify D (w : Store.heap -> Store.heap) :
  (forall h, closed D h -> step D h (w h)) -> local D (Store.modify w) (fun _ => True).
Proof. intros Hw h Hc. split; [apply Hw; exact Hc | auto]. Qed.

Lemma local_lift {A : Type} D (o : outcome A) : local D (Store.lift o) (fun _ => True).
Proof. intros h Hc. split; [apply step_refl; exact Hc | auto]. Qed.

Lemma local_get_config D config : local D (Store.get_config config) (fun _ => True).
Proof. intros h Hc. split; [apply step_refl; exact Hc | auto]. Qed.

Lemma local_for_each {A S : Type} D (body : S -> A -> Store.M S) (l : list A) :
  (forall s a, local D (body s a) (fun _ => True)) ->
  forall s, local D (Store.for_each_M body l s) (fun _ => True).
Proof.
  intros Hbody. induction l as [|a l IH]; intros s; simpl.
  - apply local_ret. exact I.
  - eapply local_bind; [apply Hbody|]. intros s' _. apply IH.
Qed.

Lemma local_remove_section D config k l :
  config ∉ D -> local D (Store.remove_section config k l) (fun _ => True).
Proof.
  intros Hconfig h Hc. unfold Store.remove_section. split; [|auto].
  destruct l as [l|]; simpl; [apply step_remove_labelled; assumption|].
  destruct (Nat.ltb 1 _); simpl; [apply step_refl; exact Hc|].
  assert (H1 : step D h
                 (Store.set_sections config
                    (List.filter (fun s => negb (Store.of_key h k s))
                       (Store.sections_of h config)) h)).
  { apply step_set_sections; [exact Hc | exact Hconfig |].
    apply Forall_filter_keep, closed_sections; assumption. }
  eapply step_trans; [exact H1|]. apply step_refresh; [exact (proj2 H1) | exact Hconfig].
Qed.

(** *** copy.deepcopy *)

Lemma copying_param D h0 st p : copying D h0 st -> copying D h0 (Store.copy_param st p).
Proof.
  destruct st as [[h memo] copies]. intros (Hstep & Hdom & Hmemo & Hcopies).
  simpl in *. unfold Store.copy_param.
  destruct (memo !! p) as [p'|] eqn:Hp.
  - repeat split; simpl; try assumption; try apply Hstep.
    apply Forall_app. split; [exact Hcopies|]. constructor; [|constructor].
    eapply Hmemo. exact Hp.
  - destruct (h !! p) as [[?|?|param]|]; try (repeat split; simpl; assumption || apply Hstep).
    destruct (step_alloc D h (Store.ParamObj param) (proj2 Hstep) ltac:(constructor))
      as (H1 & Hl & Hsub & _).
    unfold Store.alloc in *. simpl in *.
    split; [eapply step_trans; eassumption|]. split; [set_solver|]. split.
    + intros x y. simpl. destruct (decide (p = x)) as [<-|Hne].
      * rewrite lookup_insert_eq. intros [= <-]. exact Hl.
      * rewrite lookup_insert_ne by exact Hne. apply Hmemo.
    + simpl. apply Forall_app. split; [exact Hcopies|]. constructor; [exact Hl | constructor].
Qed.

Lemma copying_fold {A : Type} D h0
    (f : Store.heap * gmap positive positive * list Store.loc -> A ->
         Store.heap * gmap positive positive * list Store.loc) (l : list A) :
  (forall st x, copying D h0 st -> copying D h0 (f st x)) ->
  forall st, copying D h0 st -> copying D h0 (fold_left f l st).
Proof.
  intros Hf. induction l as [|x l IH]; intros st Hst; simpl; [exact Hst|].
  apply IH, Hf, Hst.
Qed.

Lemma copying_section D h0 st s : copying D h0 st -> copying D h0 (Store.copy_section st s).
Proof.
  destruct st as [[h memo] copies]. intros (Hstep & Hdom & Hmemo & Hcopies).
  simpl in *. unfold Store.copy_section.
  destruct (memo !! s) as [s'|] eqn:Hs.
  - repeat split; simpl; try assumption; try apply Hstep.
    apply Forall_app. split; [exact Hcopies|]. constructor; [|constructor].
    eapply Hmemo. exact Hs.
  - destruct (h !! s) as [[?|defn label params mock|?]|];
      try (repeat split; simpl; assumption || apply Hstep).
    assert (Hinner : copying D h0 (fold_left Store.copy_param params (h, memo, []))).
    { apply copying_fold; [intros st x; apply copying_param|].
      repeat split; simpl; try assumption; try apply Hstep. constructor. }
    destruct (fold_left Store.copy_param params (h, memo, [])) as [[h1 memo1] params'].
    destruct Hinner as (Hstep1 & Hdom1 & Hmemo1 & Hparams'). simpl in *.
    destruct (step_alloc D h1 (Store.SectionObj defn label params' mock)
                (proj2 Hstep1) Hparams') as (H2 & Hl & Hsub & _).
    unfold Store.alloc in *. simpl in *.
    split; [eapply step_trans; eassumption|]. split; [set_solver|]. split.
    + intros x y. simpl. destruct (decide (s = x)) as [<-|Hne].
      * rewrite lookup_insert_eq. intros [= <-]. exact Hl.
      * rewrite lookup_insert_ne by exact Hne. apply Hmemo1.
    + simpl. apply Forall_app. split; [exact Hcopies|]. constructor; [exact Hl | constructor].
Qed.

Lemma deepcopy_spec D h config :
  closed D h ->
  step D h (Store.deepcopy config h).1
  /\ dom h ⊆ dom (Store.deepcopy config h).1
  /\ forall c, (Store.deepcopy config h).2 = Ok c ->
       (c ∉ D) /\ (c ∉ dom h) /\ c ∈ dom (Store.deepcopy config h).1.
Proof.
  intros Hc. unfold Store.deepcopy.
  destruct (h !! config) as [[cf cn sections|?|?]|];
    try (split; [apply step_refl; exact Hc | split; [reflexivity | discriminate]]).
  assert (Hinv : copying D h (fold_left Store.copy_section sections (h, ∅, []))).
  { apply copying_fold; [intros st x; apply copying_section|].
    split; [apply step_refl; exact Hc|]. split; [reflexivity|]. split.
    - intros x y. simpl. rewrite lookup_empty. discriminate.
    - constructor. }
  destruct (fold_left Store.copy_section sections (h, ∅, [])) as [[h1 memo1] sections'].
  destruct Hinv as (Hstep1 & Hdom1 & _ & Hsections'). simpl in *.
  destruct (step_alloc D h1 (Store.ConfigObj cf cn sections') (proj2 Hstep1) Hsections')
    as (H2 & Hl & Hsub & Hfresh & Hin).
  unfold Store.alloc in *. simpl in *.
  split; [eapply step_trans; eassumption|]. split; [etrans; eassumption|].
  intros c [= <-]. split; [exact Hl|]. split; [|exact Hin].
  intros Hold. apply Hfresh, Hdom1, Hold.
Qed.

Lemma local_deepcopy D config : local D (Store.deepcopy config) (fun c => c ∉ D).
Proof.
  intros h Hc. destruct (deepcopy_spec D h config Hc) as (H1 & _ & H2).
  split; [exact H1|]. intros c Hres. apply H2. exact Hres.
Qed.

(** *** The steps of the constructor *)

Section OwnCopies.
Variable D : gset positive.
Variable self : Store.patch.
Hypothesis base_own : Store.base_config self ∉ D.
Hypothesis target_own : Store.target_config self ∉ D.

Lemma local_remove_ignored_sections config :
  config ∉ D -> local D (Store._remove_ignored_sections config) (fun _ => True).
Proof.
  intros Hconfig. apply local_for_each. intros _ k.
  apply local_remove_section. exact Hconfig.
Qed.

Lemma local_rename_base_sections :
  local D (Store._rename_base_sections self) (fun _ => True).
Proof.
  unfold Store._rename_base_sections.
  eapply local_bind; [apply local_get_config|]. intros base _.
  apply local_for_each. intros _ k.
  eapply local_bind; [apply local_get_config|]. intros cur _.
  eapply local_bind; [|intros; apply local_ret; exact I].
  apply local_for_each. intros i s.
  eapply local_bind; [|intros; apply local_ret; exact I].
  apply local_modify. intros h Hc. apply step_set_label; assumption.
Qed.

Lemma local_create_default_section config section :
  config ∉ D -> local D (Store._create_default_section config section) (fun _ => True).
Proof.
  intros Hconfig. unfold Store._create_default_section.
  eapply local_bind; [|intros; apply local_ret; exact I].
  instantiate (1 := fun _ => True).
  intros h Hc. split; [|auto].
  destruct (step_new_section D h (ConfigPatch.default_section section) Hc) as [H1 Hs].
  destruct (Store.new_section (ConfigPatch.default_section section) h) as [h1 s].
  simpl in *. eapply step_trans; [exact H1|].
  apply step_add_section; [exact (proj2 H1) | exact Hconfig | exact Hs].
Qed.

Lemma local_get_target_section base_section :
  local D (Store._get_target_section self base_section) (fun _ => True).
Proof.
  unfold Store._get_target_section.
  eapply local_bind; [apply local_get_config|]. intros target _. cbv zeta.
  destruct (match Sect.key_param base_section with Some _ => _ | None => _ end).
  - apply local_ret. exact I.
  - apply local_create_default_section. exact target_own.
Qed.

Lemma local_get_base_section target_section :
  local D (Store._get_base_section self target_section) (fun _ => True).
Proof.
  unfold Store._get_base_section.
  eapply local_bind; [apply local_get_config|]. intros base _.
  destruct (PclusterConfig.get_section _ _ _).
  - apply local_ret. exact I.
  - apply local_create_default_section. exact base_own.
Qed.

Lemma local_match_base_section k snapshot :
  local D (Store.match_base_section k self snapshot) (fun _ => True).
Proof.
  unfold Store.match_base_section.
  eapply local_bind; [apply local_get_config|]. intros base _.
  destruct (PclusterConfig.get_section _ _ _); [|apply local_ret; exact I].
  eapply local_bind; [apply local_get_target_section|]. intros ts _.
  apply local_modify. intros h Hc. apply step_set_label; assumption.
Qed.

Lemma local_adapt : local D (Store._adapt self) (fun _ => True).
Proof.
  unfold Store._adapt.
  eapply local_bind; [apply local_remove_ignored_sections; exact base_own|]. intros _ _.
  eapply local_bind; [apply local_remove_ignored_sections; exact target_own|]. intros _ _.
  eapply local_bind; [apply local_rename_base_sections|]. intros _ _.
  eapply local_bind; [apply local_get_config|]. intros base _.
  eapply local_bind.
  { apply local_for_each. intros _ k.
    eapply local_bind; [apply local_get_config|]. intros cur _.
    apply local_for_each. intros _ snapshot. apply local_match_base_section. }
  intros _ _.
  eapply local_bind; [apply local_get_config|]. intros target _.
  apply local_for_each. intros _ k.
  eapply local_bind; [apply local_get_config|]. intros cur _.
  apply local_for_each. intros _ ts.
  eapply local_bind; [apply local_get_base_section|]. intros; apply local_ret; exact I.
Qed.

Lemma local_remove_mock_sections config :
  config ∉ D -> local D (Store._remove_mock_sections config) (fun _ => True).
Proof.
  intros Hconfig. unfold Store._remove_mock_sections.
  eapply local_bind; [apply local_get_config|]. intros c _.
  apply local_for_each. intros _ k.
  eapply local_bind; [apply local_get_config|]. intros cur _.
  apply local_for_each. intros _ section.
  destruct (Sect.mock section); [|apply local_ret; exact I].
  apply local_remove_section. exact Hconfig.
Qed.

Lemma local_compare : local D (Store._compare self) (fun _ => True).
Proof.
  unfold Store._compare.
  eapply local_bind; [apply local_get_config|]. intros base _.
  eapply local_bind; [apply local_get_config|]. intros target _.
  eapply local_bind; [apply local_lift|]. intros changes1 _.
  eapply local_bind; [apply local_remove_mock_sections; exact base_own|]. intros _ _.
  eapply local_bind; [apply local_remove_mock_sections; exact target_own|]. intros _ _.
  eapply local_bind; [apply local_get_config|]. intros base' _.
  eapply local_bind; [apply local_get_config|]. intros target' _.
  apply local_lift.
Qed.
End OwnCopies.

Lemma local_ConfigPatch D base_config target_config :
  local D (Store.ConfigPatch base_config target_config)
    (fun p => (Store.base_config p ∉ D) /\ (Store.target_config p ∉ D)).
Proof.
  unfold Store.ConfigPatch.
  eapply local_bind; [apply local_deepcopy|]. intros base Hbase.
  eapply local_bind; [apply local_deepcopy|]. intros target Htarget. cbv zeta.
  eapply local_bind; [apply (local_adapt D (Store.mk_patch base target [])); assumption|].
  intros _ _.
  eapply local_bind; [apply (local_compare D (Store.mk_patch base target [])); assumption|].
  intros changes _. apply local_ret. simpl. auto.
Qed.

Lemma closed_dom (h : Store.heap) : closed (dom h) h.
Proof.
  split; [reflexivity|]. intros l o Hl Hlook. exfalso. apply Hl.
  apply elem_of_dom. eauto.
Qed.

Lemma omap_ext_Forall {A B : Type} (f g : A -> option B) (l : list A) :
  Forall (fun x => f x = g x) l -> omap f l = omap g l.
Proof.
  induction 1 as [|x l Hx _ IH]; [reflexivity|].
  change (omap f (x :: l)) with (match f x with Some y => y :: omap f l | None => omap f l end).
  change (omap g (x :: l)) with (match g x with Some y => y :: omap g l | None => omap g l end).
  rewrite Hx, IH. reflexivity.
Qed.

Lemma config_at_kept (h h' : Store.heap) (config : Store.loc) :
  keeps (dom h) h h' -> no_dangling h -> is_Some (h !! config) ->
  Store.config_at h' config = Store.config_at h config.
Proof.
  intros Hkeep Hnd Hconfig.
  assert (Hk : forall l : Store.loc, is_Some (h !! l) -> h' !! l = h !! l).
  { intros l Hl. apply Hkeep. apply elem_of_dom. exact Hl. }
  assert (Hparam : forall p, is_Some (h !! p) -> Store.param_at h' p = Store.param_at h p).
  { intros p Hp. unfold Store.param_at. rewrite (Hk p Hp). reflexivity. }
  assert (Hsection : forall s, is_Some (h !! s) ->
            Store.section_at h' s = Store.section_at h s).
  { intros s Hs. unfold Store.section_at. rewrite (Hk s Hs).
    destruct (h !! s) as [[?|defn label params mock|?]|] eqn:Hlook; try reflexivity.
    f_equal. f_equal. apply omap_ext_Forall.
    pose proof (Hnd s _ Hlook) as Hrefs. simpl in Hrefs.
    eapply List.Forall_impl; [|exact Hrefs]. intros p Hp. apply Hparam. exact Hp. }
  unfold Store.config_at. rewrite (Hk config Hconfig).
  destruct (h !! config) as [[cf cn sections|?|?]|] eqn:Hlook; try reflexivity.
  f_equal. f_equal. apply omap_ext_Forall.
  pose proof (Hnd config _ Hlook) as Hrefs. simpl in Hrefs.
  eapply List.Forall_impl; [|exact Hrefs]. intros s Hs. apply Hsection. exact Hs.
Qed.

(** C9: constructing a [ConfigPatch] never writes the [base_config] and
    [target_config] objects of the caller. Every object that the heap holds
    when the constructor is called is afterwards as it was, so every
    configuration of the caller reads as before; the relabelling, the mock
    sections added and the sections removed are on the deep copies of the
    patch only, which are new objects and refer to no object of the
    caller. This holds whether the constructor returns or raises. *)
Theorem ConfigPatch_keeps_caller_configs
    (h : Store.heap) (base_config target_config : Store.loc) :
  (forall l o, h !! l = Some o ->
     (Store.ConfigPatch base_config target_config h).1 !! l = Some o)
  /\ (no_dangling h -> forall config, is_Some (h !! config) ->
        Store.config_at (Store.ConfigPatch base_config target_config h).1 config
        = Store.config_at h config)
  /\ closed (dom h) (Store.ConfigPatch base_config target_config h).1
  /\ (forall p, (Store.ConfigPatch base_config target_config h).2 = Ok p ->
        h !! Store.base_config p = None /\ h !! Store.target_config p = None).
Proof.
  destruct (local_ConfigPatch (dom h) base_config target_config h (closed_dom h))
    as [[Hkeep Hclosed] Hres].
  split; [|split; [|split]].
  - intros l o Hl. rewrite Hkeep; [exact Hl|]. apply elem_of_dom. eauto.
  - intros Hnd config Hconfig. apply config_at_kept; assumption.
  - exact Hclosed.
  - intros p Hp. destruct (Hres p Hp) as [Hb Ht].
    split; apply not_elem_of_dom; assumption.
Qed.

Lemma callers_heap_no_dangling : no_dangling callers_heap.
Proof.
  apply (bool_decide_unpack _). vm_compute. exact I.
Qed.

Lemma ConfigPatch_keeps_caller_configs_witness :
  Store.config_at callers_heap callers_base = Some one_vpc_config
  /\ Store.config_at callers_heap callers_target = Some two_vpc_config
  /\ Store.config_at (Store.ConfigPatch callers_base callers_target callers_heap).1
       callers_base = Some one_vpc_config
  /\ Store.config_at (Store.ConfigPatch callers_base callers_target callers_heap).1
       callers_target = Some two_vpc_config
  /\ exists p,
       (Store.ConfigPatch callers_base callers_target callers_heap).2 = Ok p
       /\ callers_heap !! Store.base_config p = None
       /\ callers_heap !! Store.target_config p = None
       /\ Store.config_at (Store.ConfigPatch callers_base callers_target callers_heap).1
            (Store.base_config p) <> Some one_vpc_config.
Proof.
  destruct (ConfigPatch_keeps_caller_configs callers_heap callers_base callers_target)
    as (_ & Hread & _ & Hnew).
  assert (Hb : Store.config_at callers_heap callers_base = Some one_vpc_config)
    by (vm_compute; reflexivity).
  assert (Ht : Store.config_at callers_heap callers_target = Some two_vpc_config)
    by (vm_compute; reflexivity).
  split; [exact Hb|]. split; [exact Ht|].
  split.
  { rewrite (Hread callers_heap_no_dangling); [exact Hb|]. vm_compute. eauto. }
  split.
  { rewrite (Hread callers_heap_no_dangling); [exact Ht|]. vm_compute. eauto. }
  assert (Hok : exists p,
            (Store.ConfigPatch callers_base callers_target callers_heap).2 = Ok p
            /\ Store.config_at (Store.ConfigPatch callers_base callers_target callers_heap).1
                 (Store.base_config p) <> Some one_vpc_config).
  { vm_compute. eexists. split; [reflexivity | discriminate]. }
  destruct Hok as (p & Hp & Hne). exists p. split; [exact Hp|].
  destruct (Hnew p Hp) as [H1 H2]. split; [exact H1|]. split; [exact H2 | exact Hne].
Defined.

(** Run on the objects of the caller instead of on copies, the adaptation
    would be seen by the caller. *)
Lemma adapt_writes_its_configs :
  Store.config_at
    (Store._adapt (Store.mk_patch callers_base callers_target []) callers_heap).1
    callers_base <> Some one_vpc_config.
Proof. vm_compute. discriminate. Qed.

(** On these objects the constructor finds the changes of
    [ConfigPatch.init], and its copies read as the adapted configurations. *)
Lemma ConfigPatch_on_objects_example :
  match Store.ConfigPatch callers_base callers_target callers_heap,
        ConfigPatch.init one_vpc_config two_vpc_config with
  | (h', Ok p), Ok q =>
      Store.changes p = ConfigPatch.changes q
      /\ Store.config_at h' (Store.base_config p) = Some (ConfigPatch.base_config q)
      /\ Store.config_at h' (Store.target_config p) = Some (ConfigPatch.target_config q)
  | _, _ => False
  end.
Proof. vm_compute. repeat split. Qed.


(** ** Which sections a configuration holds *)

Lemma at_slot_true k l s :
  Sect.at_slot k l s = true <-> Sect.key s = k /\ Sect.label s = l.
Proof.
  unfold Sect.at_slot. rewrite andb_true_iff, !String.eqb_eq. reflexivity.
Qed.

Lemma at_slot_false k l s :
  Sect.at_slot k l s = false <-> ~ (Sect.key s = k /\ Sect.label s = l).
Proof.
  rewrite <- at_slot_true. destruct (Sect.at_slot k l s); split; congruence.
Qed.

Lemma get_section_slot c k l :
  is_Some (PclusterConfig.get_section c k (Some l)) <-> slot c k l.
Proof.
  unfold PclusterConfig.get_section, slot, has. split.
  - intros [s Hs]. apply find_some in Hs as [Hin Hat].
    apply at_slot_true in Hat as [Hk Hl]. exists (Sect.mock s), s. auto.
  - intros (m & s & Hin & Hk & Hl & _).
    destruct (List.find (Sect.at_slot k l) (PclusterConfig.sections c)) eqn:Hf; [eauto|].
    exfalso. pose proof (find_none _ _ Hf s Hin) as Hn.
    apply at_slot_false in Hn. auto.
Qed.

Lemma get_section_at c k l s :
  PclusterConfig.get_section c k (Some l) = Some s ->
  In s (PclusterConfig.sections c) /\ Sect.key s = k /\ Sect.label s = l.
Proof.
  intros H. apply find_some in H as [Hin Hat]. apply at_slot_true in Hat. tauto.
Qed.

Lemma In_get_sections c k s :
  In s (PclusterConfig.get_sections c k) <->
  In s (PclusterConfig.sections c) /\ Sect.key s = k.
Proof.
  unfold PclusterConfig.get_sections. rewrite filter_In, String.eqb_eq. reflexivity.
Qed.

Lemma In_dedup_keys k l : In k (PclusterConfig.dedup_keys l) <-> In k l.
Proof.
  induction l as [|x l IH]; simpl; [reflexivity|].
  rewrite filter_In, IH, negb_true_iff, String.eqb_neq.
  destruct (String.eqb_spec x k) as [->|Hne]; [tauto|].
  split; [tauto|]. intros [H|H]; [tauto | right; split; [exact H | congruence]].
Qed.

Lemma In_get_section_keys c k :
  In k (PclusterConfig.get_section_keys c) <-> exists l, slot c k l.
Proof.
  unfold PclusterConfig.get_section_keys. rewrite In_dedup_keys, in_map_iff.
  unfold slot, has. split.
  - intros (s & Hk & Hin). exists (Sect.label s), (Sect.mock s), s. auto.
  - intros (l & m & s & Hin & Hk & _). eauto.
Qed.

Lemma has_refresh c k l m : has (PclusterConfig.refresh c) k l m <-> has c k l m.
Proof.
  unfold has, PclusterConfig.refresh. simpl. split.
  - intros (s & Hin & H). apply in_map_iff in Hin as (s0 & <- & Hin0).
    exists s0. auto.
  - intros (s & Hin & H).
    exists (PclusterConfig.refresh_section (PclusterConfig.sections c) s).
    split; [apply in_map; exact Hin | exact H].
Qed.

Lemma has_remove_labelled c k0 l0 k l m :
  has (PclusterConfig.remove_labelled c k0 l0) k l m <->
  has c k l m /\ ~ (k = k0 /\ l = l0).
Proof.
  unfold PclusterConfig.remove_labelled. rewrite has_refresh. unfold has. simpl. split.
  - intros (s & Hin & Hk & Hl & Hm). apply filter_In in Hin as [Hin Hat].
    apply negb_true_iff, at_slot_false in Hat. subst. split; [eauto | exact Hat].
  - intros ((s & Hin & Hk & Hl & Hm) & Hne). exists s. split; [|auto].
    apply filter_In. split; [exact Hin|]. apply negb_true_iff, at_slot_false.
    subst. exact Hne.
Qed.

(** ** Equality and construction of policies *)

Lemma opt_str_eqb_eq (a b : option string) :
  UpdatePolicy.opt_str_eqb a b = true <-> a = b.
Proof.
  destruct a as [x|], b as [y|]; simpl; try (split; [discriminate|congruence]).
  - rewrite String.eqb_eq. split; congruence.
  - split; reflexivity.
Qed.

Lemma policy_eqb_iff (p q : UpdatePolicy.t) :
  UpdatePolicy.eqb p q = true <->
  UpdatePolicy.fail_reason p = UpdatePolicy.fail_reason q
  /\ UpdatePolicy.level p = UpdatePolicy.level q.
Proof.
  unfold UpdatePolicy.eqb. rewrite andb_true_iff, opt_str_eqb_eq, Z.eqb_eq. reflexivity.
Qed.

(** X1: [==] on update policies is an equivalence relation: every policy
    equals itself, the comparison gives the same answer in both directions,
    and two policies equal to a third are equal. *)
Theorem policy_eq_equivalence (p q r : UpdatePolicy.t) :
  UpdatePolicy.eqb p p = true
  /\ UpdatePolicy.eqb p q = UpdatePolicy.eqb q p
  /\ (UpdatePolicy.eqb p q = true -> UpdatePolicy.eqb q r = true ->
      UpdatePolicy.eqb p r = true).
Proof.
  split; [apply policy_eqb_iff; auto|]. split.
  - apply eq_true_iff_eq. rewrite !policy_eqb_iff. intuition congruence.
  - rewrite !policy_eqb_iff. intuition congruence.
Qed.

(** X2: a policy built from a base policy equals ([==]) that base policy
    exactly when neither its level nor its fail reason is overridden by a
    different value; overriding the remediation text or the condition
    checker never makes it different. *)
Theorem derived_policy_equals_base
    (p : UpdatePolicy.t) (lvl : option Z) (reason action : option string)
    (chk : option UpdatePolicy.checker) :
  UpdatePolicy.eqb (UpdatePolicy.init (Some p) lvl reason action chk) p = true <->
  (UpdatePolicy.Z_truthy lvl = true -> lvl = Some (UpdatePolicy.level p))
  /\ (str_truthy reason = true -> reason = UpdatePolicy.fail_reason p).
Proof.
  rewrite policy_eqb_iff. unfold UpdatePolicy.init. simpl.
  destruct (UpdatePolicy.Z_truthy lvl) eqn:Hl, (str_truthy reason) eqn:Hr.
  - destruct lvl as [z|]; [|discriminate]. simpl. intuition congruence.
  - destruct lvl as [z|]; [|discriminate]. simpl. intuition congruence.
  - intuition congruence.
  - intuition congruence.
Qed.

(** X3: the constructor takes an override only when it is true: with a
    base policy, a level of 0 and empty texts leave every field of the base
    policy, as no overrides at all do, so a level of 0 never replaces the
    base level; without base policy and overrides the policy has level 0
    and nothing else. *)
Theorem init_false_overrides_keep_base (p : UpdatePolicy.t) :
  UpdatePolicy.init (Some p) (Some 0) (Some "") (Some "") None = p
  /\ UpdatePolicy.init (Some p) None None None None = p
  /\ (forall reason action chk,
        UpdatePolicy.level (UpdatePolicy.init (Some p) (Some 0) reason action chk)
        = UpdatePolicy.level p)
  /\ UpdatePolicy.init None None None None None = UpdatePolicy.mk None None None 0.
Proof.
  destruct p as [fr an cc lv]. repeat split.
Qed.

(** X4: what the check of each base policy answers on any stack: IGNORED
    and ALLOWED succeed, UNKNOWN and DENIED fail, COMPUTE_FLEET_RESTART
    succeeds exactly when the stack has no compute instance and
    MASTER_RESTART exactly when the master server is stopped; an exception
    of the two live queries leaves the check. *)
Theorem base_policies_check
    (get_asg_instances : string -> outcome (list string))
    (get_master_server_state : string -> outcome string)
    (stack_name : string) :
  UpdatePolicy.check UpdatePolicy.IGNORED stack_name = Ok UpdatePolicy.SUCCEEDED
  /\ UpdatePolicy.check UpdatePolicy.ALLOWED stack_name = Ok UpdatePolicy.SUCCEEDED
  /\ UpdatePolicy.check UpdatePolicy.UNKNOWN stack_name = Ok UpdatePolicy.FAILED
  /\ UpdatePolicy.check UpdatePolicy.DENIED stack_name = Ok UpdatePolicy.FAILED
  /\ UpdatePolicy.check (UpdatePolicy.COMPUTE_FLEET_RESTART get_asg_instances) stack_name
     = match get_asg_instances stack_name with
       | Ok [] => Ok UpdatePolicy.SUCCEEDED
       | Ok (_ :: _) => Ok UpdatePolicy.ACTION_NEEDED
       | Raise e => Raise e
       end
  /\ UpdatePolicy.check (UpdatePolicy.MASTER_RESTART get_master_server_state) stack_name
     = match get_master_server_state stack_name with
       | Ok state =>
           Ok (if String.eqb state "stopped"
               then UpdatePolicy.SUCCEEDED else UpdatePolicy.ACTION_NEEDED)
       | Raise e => Raise e
       end.
Proof.
  repeat split.
  - unfold UpdatePolicy.check. simpl.
    destruct (get_asg_instances stack_name) as [[|i l]|e]; reflexivity.
  - unfold UpdatePolicy.check. simpl.
    destruct (get_master_server_state stack_name) as [s|e]; reflexivity.
Qed.

(** ** More on ConfigPatch.check *)

Lemma Forall2_In_l {A B : Type} (R : A -> B -> Prop) (l : list A) (l' : list B) (x : A) :
  Forall2 R l l' -> In x l -> exists y, In y l' /\ R x y.
Proof.
  induction 1 as [|a b l l' Hab _ IH]; intros Hin; [destruct Hin|].
  destruct Hin as [<-|Hin].
  - exists b. split; [left; reflexivity | exact Hab].
  - destruct (IH Hin) as (y & Hy & Hxy). exists y. split; [right; exact Hy | exact Hxy].
Qed.

(** X5: a patch holding a change whose policy has no condition checker
    and does not equal IGNORED (DENIED and UNKNOWN are such policies) is
    never allowed: when check returns, the verdict is false, the change has
    a FAILED row, and its remediation text, if it has one, is in the
    remediation set. *)
Theorem check_refuses_change_without_checker
    (self : ConfigPatch.t) (stack_name : string) (change : Change)
    (allowed : bool) (rows : list (list value)) (acts : gset string) :
  In change (ConfigPatch.changes self) ->
  reported change = true ->
  UpdatePolicy.condition_checker (update_policy change) = None ->
  ConfigPatch.check self stack_name = Ok (allowed, rows, acts) ->
  allowed = false
  /\ In (ConfigPatch.report_row change UpdatePolicy.FAILED) rows
  /\ (forall text,
        UpdatePolicy.action_needed (update_policy change) = Some text -> text <> "" ->
        ConfigPatch.substitute self text ∈ acts).
Proof.
  intros Hin Hrep Hnone Hcheck.
  assert (Hfailed : UpdatePolicy.check (update_policy change) stack_name
                    = Ok UpdatePolicy.FAILED).
  { apply check_failed_iff. exact Hnone. }
  unfold ConfigPatch.check in Hcheck.
  apply check_loop_inv in Hcheck as (Hall & (new & -> & Hrows) & Hacts).
  split; [|split].
  - destruct allowed; [|reflexivity].
    destruct (proj1 Hall eq_refl) as [_ Hl].
    specialize (Hl change Hin Hrep). congruence.
  - apply in_or_app. right.
    assert (Hf : In change (List.filter reported (ConfigPatch.changes self))).
    { apply filter_In. auto. }
    destruct (Forall2_In_l _ _ _ _ Hrows Hf) as (row & Hrow & r & Hr & ->).
    rewrite Hfailed in Hr. injection Hr as <-. exact Hrow.
  - intros text Htext Hne. apply Hacts. right. exists change. split; [exact Hin|].
    split; [exact Hrep|]. split; [rewrite Hfailed; discriminate|].
    exists text. auto.
Qed.

Lemma check_refuses_change_without_checker_witness :
  In (ConfigPatch.report_row (change_with "b" UpdatePolicy.DENIED) UpdatePolicy.FAILED)
    [ConfigPatch.header;
     ConfigPatch.report_row (change_with "a" (answering 10 true)) UpdatePolicy.SUCCEEDED;
     ConfigPatch.report_row (change_with "b" UpdatePolicy.DENIED) UpdatePolicy.FAILED].
Proof.
  refine (proj1 (proj2 (check_refuses_change_without_checker
                  (ConfigPatch.mk user_config user_config
                     [change_with "a" (answering 10 true);
                      change_with "b" UpdatePolicy.DENIED])
                  "stack" (change_with "b" UpdatePolicy.DENIED) false _
                  {[ "Restore the previous parameter value for the unsupported changes." ]}
                  (or_intror (or_introl eq_refl)) eq_refl eq_refl _))).
  vm_compute. reflexivity.
Defined.

(** X6: check returns a result exactly when the policy check of every
    change whose policy does not equal IGNORED returns one; it raises as
    soon as, and only when, a condition checker of such a change raises. *)
Theorem check_returns_iff_no_checker_raises (self : ConfigPatch.t) (stack_name : string) :
  (exists st, ConfigPatch.check self stack_name = Ok st) <->
  (forall c, In c (ConfigPatch.changes self) -> reported c = true ->
     is_Ok (UpdatePolicy.check (update_policy c) stack_name) = true).
Proof.
  unfold ConfigPatch.check. generalize (true, [ConfigPatch.header], ∅ : gset string).
  induction (ConfigPatch.changes self) as [|c l IH]; intros st; cbn [for_each].
  - split; [intros _ c [] | eauto].
  - destruct st as [[a r] s]. destruct (reported c) eqn:Hrep.
    + rewrite check_change_reported by exact Hrep.
      destruct (UpdatePolicy.check (update_policy c) stack_name) as [res|e] eqn:Hres;
        simpl.
      * rewrite IH. split.
        -- intros H c' [<-|Hin] Hrep'; [rewrite Hres; reflexivity | auto].
        -- intros H c' Hin. apply H. right. exact Hin.
      * split; [intros (st & H); discriminate|].
        intros H. specialize (H c (or_introl eq_refl) Hrep). rewrite Hres in H.
        discriminate.
    + rewrite check_change_ignored by exact Hrep. simpl. rewrite IH. split.
      * intros H c' [<-|Hin] Hrep'; [congruence | auto].
      * intros H c' Hin. apply H. right. exact Hin.
Qed.

Lemma check_loop_shift (self : ConfigPatch.t) (stack_name : string) (l : list Change) :
  forall a1 r1 (s1 : gset string) a r s,
  for_each (ConfigPatch.check_change self stack_name) l (a1, r1, s1) = Ok (a, r, s) ->
  exists b new t,
    a = a1 && b /\ r = (r1 ++ new)%list /\ s = t ∪ s1
    /\ forall a0 r0 (s0 : gset string),
         for_each (ConfigPatch.check_change self stack_name) l (a0, r0, s0)
         = Ok (a0 && b, (r0 ++ new)%list, t ∪ s0).
Proof.
  induction l as [|c l IH]; intros a1 r1 s1 a r s H; cbn [for_each] in H.
  - injection H as <- <- <-. exists true, [], ∅.
    rewrite andb_true_r, app_nil_r, (left_id_L ∅ (∪)).
    repeat split. intros a0 r0 s0. cbn [for_each].
    rewrite andb_true_r, app_nil_r, (left_id_L ∅ (∪)). reflexivity.
  - destruct (reported c) eqn:Hrep.
    + rewrite check_change_reported in H by exact Hrep.
      destruct (UpdatePolicy.check (update_policy c) stack_name) as [res|e] eqn:Hres;
        simpl in H; [|discriminate].
      apply IH in H as (b & new & t & -> & -> & -> & Hany).
      set (failed := negb (UpdatePolicy.CheckResult_eqb res UpdatePolicy.SUCCEEDED)) in *.
      set (cond := failed && str_truthy (UpdatePolicy.action_needed (update_policy c))).
      set (x := ConfigPatch.substitute self
                  (default "" (UpdatePolicy.action_needed (update_policy c)))).
      exists (negb failed && b), (ConfigPatch.report_row c res :: new),
        (t ∪ (if cond then {[ x ]} else ∅)).
      split; [destruct failed, a1; reflexivity|].
      split; [rewrite <- app_assoc; reflexivity|].
      split.
      { fold cond. fold x. destruct cond.
        - rewrite (assoc_L (∪)). reflexivity.
        - rewrite (right_id_L ∅ (∪)). reflexivity. }
      intros a0 r0 s0. cbn [for_each].
      rewrite check_change_reported by exact Hrep. rewrite Hres. simpl.
      fold failed. fold cond. fold x. rewrite Hany.
      f_equal. f_equal; [f_equal|].
      * destruct failed, a0; reflexivity.
      * rewrite <- app_assoc. reflexivity.
      * destruct cond.
        -- rewrite (assoc_L (∪)). reflexivity.
        -- rewrite (right_id_L ∅ (∪)). reflexivity.
    + rewrite check_change_ignored in H by exact Hrep. simpl in H.
      apply IH in H as (b & new & t & -> & -> & -> & Hany).
      exists b, new, t. repeat split. intros a0 r0 s0. cbn [for_each].
      rewrite check_change_ignored by exact Hrep. simpl. apply Hany.
Qed.

(** X7: checking the changes of two patches one after the other is
    checking them apart: the verdict is the conjunction of the two
    verdicts, the rows are the rows of the first followed by the rows of the
    second without its header, and the remediation set is the union. *)
Theorem check_of_concatenation
    (base target : PclusterConfig.t) (stack_name : string) (l1 l2 : list Change)
    (a1 a2 : bool) (r1 r2 : list (list value)) (s1 s2 : gset string) :
  ConfigPatch.check (ConfigPatch.mk base target l1) stack_name = Ok (a1, r1, s1) ->
  ConfigPatch.check (ConfigPatch.mk base target l2) stack_name = Ok (a2, r2, s2) ->
  ConfigPatch.check (ConfigPatch.mk base target (l1 ++ l2)) stack_name
  = Ok (a1 && a2, (r1 ++ tail r2)%list, s2 ∪ s1).
Proof.
  unfold ConfigPatch.check. simpl ConfigPatch.changes. intros H1 H2.
  rewrite for_each_app.
  change (ConfigPatch.check_change (ConfigPatch.mk base target (l1 ++ l2)))
    with (ConfigPatch.check_change (ConfigPatch.mk base target l1)).
  rewrite H1. simpl.
  change (ConfigPatch.check_change (ConfigPatch.mk base target l1))
    with (ConfigPatch.check_change (ConfigPatch.mk base target l2)).
  apply check_loop_shift in H2 as (b & new & t & -> & -> & -> & Hany).
  rewrite Hany. simpl. rewrite (right_id_L ∅ (∪)). reflexivity.
Qed.

Lemma check_of_concatenation_witness :
  ConfigPatch.check
    (ConfigPatch.mk user_config user_config
       ([change_with "a" (answering 10 true)] ++ [change_with "b" UpdatePolicy.DENIED]))
    "stack"
  = Ok (true && false,
        ([ConfigPatch.header; ConfigPatch.report_row (change_with "a" (answering 10 true))
                                UpdatePolicy.SUCCEEDED]
           ++ tail [ConfigPatch.header;
                    ConfigPatch.report_row (change_with "b" UpdatePolicy.DENIED)
                      UpdatePolicy.FAILED])%list,
        ({[ "Restore the previous parameter value for the unsupported changes." ]} ∪ ∅)
          ∪ ∅).
Proof.
  apply (check_of_concatenation user_config user_config "stack"
           [change_with "a" (answering 10 true)] [change_with "b" UpdatePolicy.DENIED]);
    vm_compute; reflexivity.
Defined.

(** ** More on the comparison of sections *)

Lemma py_eq_refl (v : value) : py_eq v v = true.
Proof.
  destruct v as [|s|z|b]; simpl;
    [reflexivity | apply String.eqb_refl | apply Z.eqb_refl | destruct b; reflexivity].
Qed.

Lemma find_unique_key (ps : list Param.t) (p : Param.t) :
  List.NoDup (map Param.key ps) -> In p ps ->
  List.find (fun q => String.eqb (Param.key q) (Param.key p)) ps = Some p.
Proof.
  induction ps as [|q ps IH]; intros Hnd Hin; [destruct Hin|].
  simpl in Hnd. apply List.NoDup_cons_iff in Hnd as [Hq Hnd]. simpl.
  destruct Hin as [->|Hin].
  - rewrite String.eqb_refl. reflexivity.
  - destruct (String.eqb_spec (Param.key q) (Param.key p)) as [Heq|Hne].
    + exfalso. apply Hq. rewrite Heq. apply in_map. exact Hin.
    + apply IH; assumption.
Qed.

(** X8: comparing two sections that hold the same parameters records no
    change, whatever their labels, provided the parameter keys are distinct
    (as the keys of a section are). *)
Theorem compare_section_same_params
    (base_section target_section : Sect.t) (changes : list Change) :
  Sect.params base_section = Sect.params target_section ->
  List.NoDup (map Param.key (Sect.params target_section)) ->
  ConfigPatch._compare_section (Some base_section) (Some target_section) changes
  = Ok changes.
Proof.
  intros Hsame Hnd. unfold ConfigPatch._compare_section.
  assert (Hget : forall p, In p (Sect.params target_section) ->
            Sect.get_param base_section (Param.key p) = Some p).
  { intros p Hin. unfold Sect.get_param. rewrite Hsame.
    apply find_unique_key; assumption. }
  clear Hsame Hnd. revert Hget.
  induction (Sect.params target_section) as [|q ps IH]; intros Hget; cbn [for_each];
    [reflexivity|].
  rewrite compare_param_base, (Hget q (or_introl eq_refl)).
  unfold py_ne. rewrite py_eq_refl. simpl.
  apply IH. intros p Hin. apply Hget. right. exact Hin.
Qed.

Lemma compare_section_same_params_witness :
  ConfigPatch._compare_section
    (Some (vpc_section "_vpc" "vpc-1")) (Some (vpc_section "default" "vpc-1")) []
  = Ok [].
Proof.
  apply compare_section_same_params; [reflexivity|].
  simpl. apply List.NoDup_cons; [intros [] | apply List.NoDup_nil].
Defined.

Lemma compare_param_spec base_section target_section changes q changes' :
  ConfigPatch.compare_param base_section target_section changes q = Ok changes' ->
  exists old, base_value base_section q = Some old
    /\ changes' = if py_ne old (Param.value q)
                  then (changes ++ [param_change target_section old q])%list
                  else changes.
Proof.
  unfold ConfigPatch.compare_param, base_value.
  destruct base_section as [b|].
  - destruct (Sect.get_param b (Param.key q)) as [p|]; simpl; [|discriminate].
    intros [= <-]. exists (Param.value p). split; reflexivity.
  - simpl. intros [= <-]. exists VNone. split; reflexivity.
Qed.

Lemma compare_params_differences base_section target_section (ps : list Param.t) :
  forall changes changes',
  for_each (ConfigPatch.compare_param base_section target_section) ps changes
  = Ok changes' ->
  exists new, changes' = (changes ++ new)%list
    /\ sublist (map param_key new) (map Param.key ps)
    /\ (forall c, In c new <->
          exists p old, In p ps /\ base_value base_section p = Some old
                        /\ py_ne old (Param.value p) = true
                        /\ c = param_change target_section old p).
Proof.
  induction ps as [|q ps IH]; intros changes changes' H; cbn [for_each] in H.
  - injection H as <-. exists []. rewrite app_nil_r. split; [reflexivity|].
    split; [constructor|]. intros c. split; [intros [] | intros (p & old & [] & _)].
  - apply bind_Ok_inv in H as (changes1 & Hq & H).
    apply compare_param_spec in Hq as (old & Hold & ->).
    apply IH in H as (new & -> & Hsub & Hnew).
    destruct (py_ne old (Param.value q)) eqn:Hne.
    + exists (param_change target_section old q :: new).
      rewrite <- app_assoc. split; [reflexivity|].
      split; [simpl; constructor; exact Hsub|].
      intros c. simpl. rewrite Hnew. split.
      * intros [<-|(p & old' & Hin & Hp)].
        -- exists q, old. auto.
        -- exists p, old'. split; [right; exact Hin | exact Hp].
      * intros (p & old' & [<-|Hin] & Hb & Hd & ->).
        -- left. congruence.
        -- right. exists p, old'. auto.
    + exists new. split; [reflexivity|].
      split; [simpl; constructor; exact Hsub|].
      intros c. rewrite Hnew. split.
      * intros (p & old' & Hin & Hp). exists p, old'. split; [right; exact Hin | exact Hp].
      * intros (p & old' & [<-|Hin] & Hb & Hd & ->).
        -- congruence.
        -- exists p, old'. auto.
Qed.

(** X9: when the comparison of a section returns, the changes it was
    given are kept in front, and the changes added are exactly those of the
    parameters of the target section whose value differs from the base
    value: each carries the key and label of the target section, the
    parameter's key, both values and the parameter's own policy, and they
    come in the order of the target's parameters. *)
Theorem compare_section_records_differences
    (base_section : option Sect.t) (target_section : Sect.t)
    (changes changes' : list Change) :
  ConfigPatch._compare_section base_section (Some target_section) changes = Ok changes' ->
  exists new, changes' = (changes ++ new)%list
    /\ sublist (map param_key new) (map Param.key (Sect.params target_section))
    /\ (forall c, In c new <->
          exists p old, In p (Sect.params target_section)
                        /\ base_value base_section p = Some old
                        /\ py_ne old (Param.value p) = true
                        /\ c = param_change target_section old p).
Proof. apply compare_params_differences. Qed.

Lemma compare_section_records_differences_witness :
  exists new,
    [mkChange "vpc" "default" "vpc_id" (VStr "vpc-1") (VStr "vpc-2") UpdatePolicy.DENIED]
    = ([] ++ new)%list
    /\ sublist (map param_key new)
         (map Param.key (Sect.params (vpc_section "default" "vpc-2")))
    /\ (forall c, In c new <->
          exists p old, In p (Sect.params (vpc_section "default" "vpc-2"))
                        /\ base_value (Some (vpc_section "_vpc" "vpc-1")) p = Some old
                        /\ py_ne old (Param.value p) = true
                        /\ c = param_change (vpc_section "default" "vpc-2") old p).
Proof.
  apply (compare_section_records_differences
           (Some (vpc_section "_vpc" "vpc-1")) (vpc_section "default" "vpc-2") []).
  reflexivity.
Defined.

(** ** Mock sections and the order of the comparison *)

Lemma In_insert_by_label s x l : In x (insert_by_label s l) <-> x = s \/ In x l.
Proof.
  induction l as [|y l IH]; simpl; [intuition congruence|].
  destruct (String.leb (Sect.label s) (Sect.label y)); simpl; [intuition congruence|].
  rewrite IH. intuition congruence.
Qed.

Lemma In_sorted_sections x l : In x (sorted_sections l) <-> In x l.
Proof.
  unfold sorted_sections. induction l as [|y l IH]; simpl; [reflexivity|].
  rewrite In_insert_by_label, IH. intuition congruence.
Qed.

Lemma remove_mock_inner (L : list Sect.t) : forall c k l m,
  has (fold_left
         (fun config section =>
            if Sect.mock section
            then PclusterConfig.remove_labelled config (Sect.key section)
                   (Sect.label section)
            else config) L c) k l m <->
  has c k l m
  /\ ~ (exists s, In s L /\ Sect.mock s = true /\ Sect.key s = k /\ Sect.label s = l).
Proof.
  induction L as [|x L IH]; intros c k l m; simpl.
  - split; [intros H; split; [exact H | intros (s & [] & _)] | tauto].
  - rewrite IH. destruct (Sect.mock x) eqn:Hx.
    + rewrite has_remove_labelled. split.
      * intros [[H Hne] Hn]. split; [exact H|].
        intros (s & [<-|Hin] & Hm & Hk & Hl); [auto | apply Hn; eauto].
      * intros [H Hn]. split; [split; [exact H|]|].
        -- intros [Hk Hl]. apply Hn. exists x. auto.
        -- intros (s & Hin & Hs). apply Hn. exists s. auto.
    + split.
      * intros [H Hn]. split; [exact H|].
        intros (s & [<-|Hin] & Hm & Hk & Hl); [congruence | apply Hn; eauto].
      * intros [H Hn]. split; [exact H|].
        intros (s & Hin & Hs). apply Hn. exists s. auto.
Qed.

Lemma remove_mock_outer (c0 : PclusterConfig.t) (keys : list string) :
  forall c processed,
  (forall k l m, has c k l m <->
     has c0 k l m /\ ~ (In k processed /\ has c0 k l true)) ->
  forall k l m,
  has (fold_left
         (fun config section_key =>
            fold_left
              (fun config section =>
                 if Sect.mock section
                 then PclusterConfig.remove_labelled config (Sect.key section)
                        (Sect.label section)
                 else config)
              (sorted_sections (PclusterConfig.get_sections config section_key)) config)
         keys c) k l m <->
  has c0 k l m /\ ~ (In k (processed ++ keys) /\ has c0 k l true).
Proof.
  induction keys as [|k0 keys IH]; intros c processed Hinv k l m; cbn [fold_left].
  - rewrite app_nil_r. apply Hinv.
  - replace (processed ++ k0 :: keys)%list with ((processed ++ [k0]) ++ keys)%list
      by (rewrite <- app_assoc; reflexivity).
    apply IH. clear k l m. intros k l m. rewrite remove_mock_inner, Hinv.
    assert (Hex : (exists s, In s (sorted_sections (PclusterConfig.get_sections c k0))
                     /\ Sect.mock s = true /\ Sect.key s = k /\ Sect.label s = l)
                  <-> k = k0 /\ has c k0 l true).
    { split.
      - intros (s & Hin & Hm & Hk & Hl).
        apply In_sorted_sections, In_get_sections in Hin as [Hin Hk0].
        split; [congruence|]. exists s. auto.
      - intros (-> & s & Hin & Hk & Hl & Hm). exists s.
        split; [apply In_sorted_sections, In_get_sections; auto | auto]. }
    rewrite Hex, Hinv. rewrite in_app_iff. simpl.
    split.
    + intros [[H Hn] Hn']. split; [exact H|].
      intros [[Hp|[<-|[]]] Ht]; [apply Hn; auto|].
      apply Hn'. split; [reflexivity|]. split; [exact Ht|]. intros [Hp _].
      apply Hn. auto.
    + intros [H Hn]. split; [split; [exact H|]|].
      * intros [Hp Ht]. apply Hn. auto.
      * intros (-> & [Ht _]). apply Hn. auto.
Qed.

Lemma has_remove_mock_sections c k l m :
  has (ConfigPatch._remove_mock_sections c) k l m <-> has c k l m /\ ~ has c k l true.
Proof.
  unfold ConfigPatch._remove_mock_sections.
  rewrite (remove_mock_outer c (PclusterConfig.get_section_keys c) c []).
  - simpl. split.
    + intros [H Hn]. split; [exact H|]. intros Ht. apply Hn. split; [|exact Ht].
      apply In_get_section_keys. exists l, true. exact Ht.
    + intros [H Hn]. split; [exact H|]. intros [_ Ht]. auto.
  - intros k' l' m'. simpl. tauto.
Qed.

(** X12: after [_remove_mock_sections] no section of the configuration is
    marked mock, and the configuration holds a section at a key and label
    exactly when it held one before and none marked mock was there. *)
Theorem remove_mock_sections_leaves_no_mock (config : PclusterConfig.t) :
  (forall s, In s (PclusterConfig.sections (ConfigPatch._remove_mock_sections config)) ->
     Sect.mock s = false)
  /\ (forall k l, slot (ConfigPatch._remove_mock_sections config) k l <->
        slot config k l /\ ~ has config k l true).
Proof.
  split.
  - intros s Hin. destruct (Sect.mock s) eqn:Hm; [|reflexivity]. exfalso.
    assert (H : has (ConfigPatch._remove_mock_sections config)
                  (Sect.key s) (Sect.label s) true) by (exists s; auto).
    apply has_remove_mock_sections in H as [H Hn]. auto.
  - intros k l. unfold slot. split.
    + intros (m & H). apply has_remove_mock_sections in H as [H Hn]. eauto.
    + intros [(m & H) Hn]. exists m. apply has_remove_mock_sections. auto.
Qed.

Lemma get_sections_remove_mock_nil c k :
  PclusterConfig.get_sections c k = [] ->
  PclusterConfig.get_sections (ConfigPatch._remove_mock_sections c) k = [].
Proof.
  intros Hnil.
  destruct (PclusterConfig.get_sections (ConfigPatch._remove_mock_sections c) k)
    as [|s l] eqn:Hs; [reflexivity|]. exfalso.
  assert (Hin : In s (PclusterConfig.get_sections (ConfigPatch._remove_mock_sections c) k))
    by (rewrite Hs; left; reflexivity).
  apply In_get_sections in Hin as [Hin Hk].
  assert (H : has (ConfigPatch._remove_mock_sections c) k (Sect.label s) (Sect.mock s))
    by (exists s; auto).
  apply has_remove_mock_sections in H as [(s0 & Hin0 & Hk0 & _) _].
  assert (H0 : In s0 (PclusterConfig.get_sections c k)) by (apply In_get_sections; auto).
  rewrite Hnil in H0. destruct H0.
Qed.

(** X11: a target configuration without [cluster] section makes
    [_compare] fail: with an attribute error on the missing section when
    the other sections compare, with their exception otherwise. *)
Theorem compare_needs_cluster_section (self : ConfigPatch.t) :
  PclusterConfig.get_sections (ConfigPatch.target_config self) "cluster" = [] ->
  match ConfigPatch.compare_other_sections self with
  | Ok _ => ConfigPatch._compare self = Raise (AttributeError "params")
  | Raise e => ConfigPatch._compare self = Raise e
  end.
Proof.
  intros Hnil. unfold ConfigPatch._compare.
  assert (Ht : PclusterConfig.get_section
                 (ConfigPatch._remove_mock_sections (ConfigPatch.target_config self))
                 "cluster" None = None).
  { unfold PclusterConfig.get_section.
    rewrite (get_sections_remove_mock_nil _ _ Hnil). reflexivity. }
  destruct (ConfigPatch.compare_other_sections self) as [changes1|e]; [|reflexivity].
  unfold mbind, outcome_bind. rewrite Ht. reflexivity.
Qed.

Lemma compare_needs_cluster_section_witness :
  ConfigPatch._compare
    (ConfigPatch.mk one_vpc_config
       (PclusterConfig.mk "/cfg" "mycluster" [vpc_section "default" "vpc-1"]) [])
  = Raise (AttributeError "params").
Proof.
  apply (compare_needs_cluster_section
           (ConfigPatch.mk one_vpc_config
              (PclusterConfig.mk "/cfg" "mycluster" [vpc_section "default" "vpc-1"]) [])).
  reflexivity.
Defined.

Lemma compare_sections_of_key (base : PclusterConfig.t) (k : string) (L : list Sect.t) :
  (forall ts, In ts L -> Sect.key ts = k) ->
  forall changes changes',
  for_each
    (fun changes target_section =>
       ConfigPatch._compare_section
         (PclusterConfig.get_section base (Sect.key target_section)
            (Some (Sect.label target_section)))
         (Some target_section) changes) L changes = Ok changes' ->
  exists new, changes' = (changes ++ new)%list
              /\ Forall (fun c => section_key c = k) new.
Proof.
  induction L as [|ts L IH]; intros HL changes changes' H; cbn [for_each] in H.
  - injection H as <-. exists []. rewrite app_nil_r. split; [reflexivity | constructor].
  - apply bind_Ok_inv in H as (changes1 & Hts & H).
    apply compare_params_differences in Hts as (new1 & -> & _ & Hnew1).
    apply IH in H as (new2 & -> & Hnew2); [|intros ts' Hin; apply HL; right; exact Hin].
    exists (new1 ++ new2)%list. rewrite app_assoc. split; [reflexivity|].
    apply Forall_app. split; [|exact Hnew2].
    apply List.Forall_forall. intros c Hc. apply Hnew1 in Hc as (p & old & _ & _ & _ & ->).
    simpl. apply HL. left. reflexivity.
Qed.

Lemma compare_other_sections_not_cluster (self : ConfigPatch.t) (changes1 : list Change) :
  ConfigPatch.compare_other_sections self = Ok changes1 ->
  exists others, changes1 = (ConfigPatch.changes self ++ others)%list
                 /\ Forall (fun c => section_key c <> "cluster") others.
Proof.
  unfold ConfigPatch.compare_other_sections.
  generalize (ConfigPatch.changes self).
  induction (PclusterConfig.get_section_keys (ConfigPatch.target_config self))
    as [|k keys IH]; intros changes H; cbn [for_each] in H.
  - injection H as <-. exists []. rewrite app_nil_r. split; [reflexivity | constructor].
  - apply bind_Ok_inv in H as (changes' & Hk & H).
    apply IH in H as (others2 & -> & Ho2).
    destruct (String.eqb_spec k "cluster") as [->|Hne]; simpl in Hk.
    + injection Hk as <-. exists others2. auto.
    + apply compare_sections_of_key with (k := k) in Hk as (new & -> & Hnew);
        [|intros ts Hin; apply In_get_sections in Hin as [_ Hk']; exact Hk'].
      exists (new ++ others2)%list. rewrite app_assoc. split; [reflexivity|].
      apply Forall_app. split; [|exact Ho2].
      eapply List.Forall_impl; [|exact Hnew]. simpl. intros c ->. exact Hne.
Qed.

(** X10: when [_compare] returns, the changes the patch already had are
    kept in front, then come the changes of the sections other than
    [cluster], and the changes of the [cluster] section come last. *)
Theorem compare_cluster_changes_last (self self' : ConfigPatch.t) :
  ConfigPatch._compare self = Ok self' ->
  exists others cluster,
    ConfigPatch.changes self' = (ConfigPatch.changes self ++ others ++ cluster)%list
    /\ Forall (fun c => section_key c <> "cluster") others
    /\ Forall (fun c => section_key c = "cluster") cluster.
Proof.
  unfold ConfigPatch._compare. intros H.
  apply bind_Ok_inv in H as (changes1 & H1 & H).
  apply bind_Ok_inv in H as (changes2 & H2 & H). injection H as <-. simpl.
  apply compare_other_sections_not_cluster in H1 as (others & -> & Hothers).
  destruct (PclusterConfig.get_section
              (ConfigPatch._remove_mock_sections (ConfigPatch.target_config self))
              "cluster" None) as [ts|] eqn:Hts; [|discriminate].
  apply compare_params_differences in H2 as (new & -> & _ & Hnew).
  exists others, new. rewrite <- app_assoc. split; [reflexivity|].
  split; [exact Hothers|].
  apply List.Forall_forall. intros c Hc. apply Hnew in Hc as (p & old & _ & _ & _ & ->).
  simpl. unfold PclusterConfig.get_section in Hts.
  assert (Hin : In ts (PclusterConfig.get_sections
                         (ConfigPatch._remove_mock_sections (ConfigPatch.target_config self))
                         "cluster")).
  { destruct (PclusterConfig.get_sections _ "cluster"); [discriminate|].
    injection Hts as ->. left. reflexivity. }
  apply In_get_sections in Hin as [_ Hk]. exact Hk.
Qed.

Lemma compare_cluster_changes_last_witness :
  exists others cluster,
    [mkChange "vpc" "default" "vpc_id" (VStr "vpc-1") (VStr "vpc-2") UpdatePolicy.DENIED;
     mkChange "cluster" "default" "vpc_settings" (VStr "default") (VStr "other")
       UpdatePolicy.DENIED]
    = ([] ++ others ++ cluster)%list
    /\ Forall (fun c => section_key c <> "cluster") others
    /\ Forall (fun c => section_key c = "cluster") cluster.
Proof.
  apply (compare_cluster_changes_last
           (ConfigPatch.mk one_vpc_config other_vpc_config [])
           (ConfigPatch.mk one_vpc_config other_vpc_config
              [mkChange "vpc" "default" "vpc_id" (VStr "vpc-1") (VStr "vpc-2")
                 UpdatePolicy.DENIED;
               mkChange "cluster" "default" "vpc_settings" (VStr "default")
                 (VStr "other") UpdatePolicy.DENIED])).
  reflexivity.
Defined.

(** ** Sections added to a configuration *)

Lemma add_raw_upper s x l :
  In x (PclusterConfig.add_raw s l) -> x = s \/ In x l.
Proof.
  induction l as [|y l IH]; simpl.
  - intros [<-|[]]. auto.
  - destruct (Sect.at_slot (Sect.key s) (Sect.label s) y).
    + intros [<-|Hin]; auto.
    + intros [<-|Hin]; [auto|]. destruct (IH Hin); auto.
Qed.

Lemma add_raw_new s l : In s (PclusterConfig.add_raw s l).
Proof.
  induction l as [|y l IH]; simpl; [auto|].
  destruct (Sect.at_slot (Sect.key s) (Sect.label s) y); simpl; auto.
Qed.

Lemma add_raw_keeps s x l :
  In x l -> Sect.at_slot (Sect.key s) (Sect.label s) x = false ->
  In x (PclusterConfig.add_raw s l).
Proof.
  induction l as [|y l IH]; simpl; [tauto|].
  intros [->|Hin] Hx.
  - rewrite Hx. left. reflexivity.
  - destruct (Sect.at_slot (Sect.key s) (Sect.label s) y); right; auto.
Qed.

Lemma has_add_section_new c s :
  has (PclusterConfig.add_section c s) (Sect.key s) (Sect.label s) (Sect.mock s).
Proof.
  unfold PclusterConfig.add_section. rewrite has_refresh.
  exists s. simpl. split; [apply add_raw_new | auto].
Qed.

Lemma has_add_section_upper c s k l m :
  has (PclusterConfig.add_section c s) k l m ->
  (k = Sect.key s /\ l = Sect.label s /\ m = Sect.mock s) \/ has c k l m.
Proof.
  unfold PclusterConfig.add_section. rewrite has_refresh. unfold has. simpl.
  intros (x & Hin & Hk & Hl & Hm). apply add_raw_upper in Hin as [->|Hin].
  - left. auto.
  - right. eauto.
Qed.

Lemma slot_add_section c s k l :
  slot (PclusterConfig.add_section c s) k l <->
  slot c k l \/ (k = Sect.key s /\ l = Sect.label s).
Proof.
  unfold slot. split.
  - intros (m & H). apply has_add_section_upper in H as [(-> & -> & _)|H]; eauto.
  - intros [(m & x & Hin & Hk & Hl & Hm)|[-> ->]];
      [|exists (Sect.mock s); apply has_add_section_new].
    destruct (Sect.at_slot (Sect.key s) (Sect.label s) x) eqn:Hx.
    + apply at_slot_true in Hx as [Hk' Hl']. subst k l. rewrite Hk', Hl'.
      exists (Sect.mock s). apply has_add_section_new.
    + exists m. unfold PclusterConfig.add_section. rewrite has_refresh.
      exists x. simpl. split; [apply add_raw_keeps; assumption | auto].
Qed.

(** ** The partner of a section *)

Lemma keyed_or_not (section : Sect.t) :
  (exists key_param, keyed section key_param) \/ str_truthy (Sect.key_param section) = false.
Proof.
  destruct (str_truthy (Sect.key_param section)) eqn:H; [left | right; reflexivity].
  apply str_truthy_Some in H as (kp & H1 & H2). exists kp. split; assumption.
Qed.

(** X13: [_get_target_section] either returns a section the target
    already holds for the key of the base section, leaving the patch as it
    is: one that agrees with the base section on the key parameter when the
    type declares one, the only section of the key otherwise; or, when there
    is no such section (none agrees, or the key has none or several), it
    adds to the target a default section carrying the label of the base
    section and returns it. *)
Theorem get_target_section_found_or_created
    (self : ConfigPatch.t) (base_section : Sect.t) :
  (exists s,
      ConfigPatch._get_target_section self base_section = (self, s)
      /\ In s (PclusterConfig.get_sections (ConfigPatch.target_config self)
                 (Sect.key base_section))
      /\ (forall key_param, keyed base_section key_param ->
            same_key_value base_section key_param s)
      /\ (str_truthy (Sect.key_param base_section) = false ->
          PclusterConfig.get_sections (ConfigPatch.target_config self)
            (Sect.key base_section) = [s]))
  \/ (ConfigPatch._get_target_section self base_section
      = (ConfigPatch.with_target self
           (PclusterConfig.add_section (ConfigPatch.target_config self)
              (ConfigPatch.default_section base_section)),
         ConfigPatch.default_section base_section)
      /\ (forall key_param, keyed base_section key_param ->
            forall s, In s (PclusterConfig.get_sections (ConfigPatch.target_config self)
                              (Sect.key base_section)) ->
                      ~ same_key_value base_section key_param s)
      /\ (str_truthy (Sect.key_param base_section) = false ->
          length (PclusterConfig.get_sections (ConfigPatch.target_config self)
                    (Sect.key base_section)) <> 1%nat)).
Proof.
  unfold ConfigPatch._get_target_section, ConfigPatch._create_default_section.
  destruct (keyed_or_not base_section) as [(kp & Hkp & Hne)|Hnot].
  - assert (Ht : str_truthy (Some kp) = true).
    { simpl. apply negb_true_iff, String.eqb_neq. exact Hne. }
    rewrite Hkp, Ht. unfold ConfigPatch._get_target_section_by_param.
    destruct (List.find _ _) as [s|] eqn:Hfind.
    + left. exists s. apply find_some in Hfind as [Hin Hs].
      split; [reflexivity|]. split; [exact Hin|]. split.
      * intros kp' [Hkp' _]. assert (kp' = kp) as -> by congruence.
        cbv beta in Hs. unfold same_key_value.
        destruct (Sect.get_param s kp) as [param|]; [|discriminate].
        exists param. split; [reflexivity | exact Hs].
      * intros Hf. try rewrite Hkp in Hf. try rewrite Ht in Hf. discriminate Hf.
    + right. split; [reflexivity|]. split.
      * intros kp' [Hkp' _] s Hin (param & Hp & Heq).
        assert (kp' = kp) as -> by congruence.
        pose proof (find_none _ _ Hfind s Hin) as Hn. cbv beta in Hn.
        rewrite Hp in Hn. congruence.
      * intros Hf. try rewrite Hkp in Hf. try rewrite Ht in Hf. discriminate Hf.
  - set (found :=
           match PclusterConfig.get_sections (ConfigPatch.target_config self)
                   (Sect.key base_section) with
           | [s] => Some s
           | _ => None
           end).
    assert (Hsec :
      match Sect.key_param base_section with
      | Some key_param =>
          if str_truthy (Some key_param)
          then ConfigPatch._get_target_section_by_param self (Sect.key base_section)
                 key_param (Sect.get_param_value base_section key_param)
          else found
      | None => found
      end = found).
    { destruct (Sect.key_param base_section) as [kp|]; [|reflexivity].
      rewrite Hnot. reflexivity. }
    fold found. rewrite Hsec. unfold found.
    destruct (PclusterConfig.get_sections (ConfigPatch.target_config self)
                (Sect.key base_section)) as [|s [|s' l]] eqn:Hl.
    + right. split; [reflexivity|]. split; [|discriminate].
      intros kp [Hkp Hne]. exfalso.
      assert (str_truthy (Sect.key_param base_section) = true)
        by (apply str_truthy_Some; eauto).
      congruence.
    + left. exists s. split; [reflexivity|]. split; [left; reflexivity|].
      split; [|reflexivity].
      intros kp [Hkp Hne]. exfalso.
      assert (str_truthy (Sect.key_param base_section) = true)
        by (apply str_truthy_Some; eauto).
      congruence.
    + right. split; [reflexivity|]. split; [|discriminate].
      intros kp [Hkp Hne]. exfalso.
      assert (str_truthy (Sect.key_param base_section) = true)
        by (apply str_truthy_Some; eauto).
      congruence.
Qed.

(** X14: [_get_base_section] returns the base section at the key and
    label of the target section when there is one, and otherwise adds a
    default section there and returns it; either way the section returned
    has the key and label of the target section, the base then holds a
    section at that key and label, and the target is left as it is. *)
Theorem get_base_section_found_or_created
    (self : ConfigPatch.t) (target_section : Sect.t) :
  ((exists s,
       ConfigPatch._get_base_section self target_section = (self, s)
       /\ PclusterConfig.get_section (ConfigPatch.base_config self)
            (Sect.key target_section) (Some (Sect.label target_section)) = Some s)
   \/ (ConfigPatch._get_base_section self target_section
       = (ConfigPatch.with_base self
            (PclusterConfig.add_section (ConfigPatch.base_config self)
               (ConfigPatch.default_section target_section)),
          ConfigPatch.default_section target_section)
       /\ PclusterConfig.get_section (ConfigPatch.base_config self)
            (Sect.key target_section) (Some (Sect.label target_section)) = None))
  /\ Sect.key (ConfigPatch._get_base_section self target_section).2
     = Sect.key target_section
  /\ Sect.label (ConfigPatch._get_base_section self target_section).2
     = Sect.label target_section
  /\ slot (ConfigPatch.base_config (ConfigPatch._get_base_section self target_section).1)
       (Sect.key target_section) (Sect.label target_section)
  /\ ConfigPatch.target_config (ConfigPatch._get_base_section self target_section).1
     = ConfigPatch.target_config self.
Proof.
  unfold ConfigPatch._get_base_section, ConfigPatch._create_default_section.
  destruct (PclusterConfig.get_section (ConfigPatch.base_config self)
              (Sect.key target_section) (Some (Sect.label target_section)))
    as [s|] eqn:Hs.
  - destruct (get_section_at _ _ _ _ Hs) as (Hin & Hk & Hl).
    split; [left; exists s; auto|]. simpl.
    split; [exact Hk|]. split; [exact Hl|]. split; [|reflexivity].
    apply get_section_slot. rewrite Hs. eauto.
  - split; [right; auto|]. simpl.
    split; [reflexivity|]. split; [reflexivity|]. split; [|reflexivity].
    apply slot_add_section. right. split; reflexivity.
Qed.

(** ** Settings parameters *)

Lemma insert_sorted_perm x l : Permutation (insert_sorted x l) (x :: l).
Proof.
  induction l as [|y l IH]; simpl; [reflexivity|].
  destruct (String.leb x y); [reflexivity|].
  rewrite IH. apply perm_swap.
Qed.

Lemma sorted_perm l : Permutation (sorted l) l.
Proof.
  unfold sorted. induction l as [|x l IH]; simpl; [reflexivity|].
  rewrite insert_sorted_perm, IH. reflexivity.
Qed.

Lemma insert_sorted_Sorted x l :
  Sorted leb_true l -> Sorted leb_true (insert_sorted x l).
Proof.
  induction l as [|y l IH]; intros Hs; simpl.
  - repeat constructor.
  - destruct (String.leb x y) eqn:Hxy.
    + constructor; [exact Hs | constructor; exact Hxy].
    + apply Sorted_inv in Hs as [Hs Hhd]. constructor; [apply IH; exact Hs|].
      assert (Hyx : leb_true y x).
      { destruct (String.leb_total x y) as [H|H]; [congruence | exact H]. }
      destruct l as [|z l]; simpl.
      * constructor. exact Hyx.
      * destruct (String.leb x z); constructor; [exact Hyx|].
        apply HdRel_inv in Hhd. exact Hhd.
Qed.

Lemma sorted_Sorted l : Sorted leb_true (sorted l).
Proof.
  unfold sorted. induction l as [|x l IH]; simpl; [constructor|].
  apply insert_sorted_Sorted. exact IH.
Qed.

Lemma filter_filter_and {A : Type} (f g : A -> bool) (l : list A) :
  List.filter g (List.filter f l) = List.filter (fun x => f x && g x) l.
Proof.
  induction l as [|x l IH]; simpl; [reflexivity|].
  destruct (f x); simpl; [|exact IH]. destruct (g x); rewrite IH; reflexivity.
Qed.

(** X15: [_restore_settings_param] sets the value of a settings parameter
    to the labels of the sections of the referred key that are not marked
    mock, each once, sorted and joined by commas; it is the value the
    configuration keeps for that parameter. *)
Theorem restore_settings_param_value
    (config : PclusterConfig.t) (settings_param : Param.t) (k : string) :
  Param.referred_section_key settings_param = Some k ->
  exists labels,
    ConfigPatch._restore_settings_param config settings_param
    = Param.set_value settings_param (VStr (join "," labels))
    /\ Permutation labels
         (map Sect.label
            (List.filter (fun s => negb (Sect.mock s))
               (PclusterConfig.get_sections config k)))
    /\ Sorted leb_true labels
    /\ Param.value (ConfigPatch._restore_settings_param config settings_param)
       = PclusterConfig.settings_value (PclusterConfig.sections config) k.
Proof.
  intros Hk. unfold ConfigPatch._restore_settings_param. rewrite Hk.
  eexists. split; [reflexivity|]. split; [apply sorted_perm|].
  split; [apply sorted_Sorted|].
  simpl. unfold PclusterConfig.settings_value, PclusterConfig.get_sections.
  rewrite filter_filter_and. reflexivity.
Qed.

Lemma restore_settings_param_value_witness :
  exists labels,
    ConfigPatch._restore_settings_param two_vpc_config
      (Param.mk "vpc_settings" VNone UpdatePolicy.DENIED (Some "vpc"))
    = Param.set_value (Param.mk "vpc_settings" VNone UpdatePolicy.DENIED (Some "vpc"))
        (VStr (join "," labels))
    /\ Permutation labels
         (map Sect.label
            (List.filter (fun s => negb (Sect.mock s))
               (PclusterConfig.get_sections two_vpc_config "vpc")))
    /\ Sorted leb_true labels
    /\ Param.value
         (ConfigPatch._restore_settings_param two_vpc_config
            (Param.mk "vpc_settings" VNone UpdatePolicy.DENIED (Some "vpc")))
       = PclusterConfig.settings_value (PclusterConfig.sections two_vpc_config) "vpc".
Proof.
  apply (restore_settings_param_value two_vpc_config
           (Param.mk "vpc_settings" VNone UpdatePolicy.DENIED (Some "vpc")) "vpc").
  reflexivity.
Defined.

(** ** Ignored sections *)

Lemma has_remove_key c k0 c' :
  PclusterConfig.remove_section c k0 None = Ok c' ->
  forall k l m, has c' k l m <-> has c k l m /\ k <> k0.
Proof.
  unfold PclusterConfig.remove_section.
  destruct (Nat.ltb 1 _); [discriminate|]. intros [= <-] k l m.
  rewrite has_refresh. unfold has. simpl. split.
  - intros (s & Hin & Hk & Hl & Hm). apply filter_In in Hin as [Hin Hne].
    apply negb_true_iff, String.eqb_neq in Hne. split; [eauto | congruence].
  - intros ((s & Hin & Hk & Hl & Hm) & Hne). exists s. split; [|auto].
    apply filter_In. split; [exact Hin|]. apply negb_true_iff, String.eqb_neq. congruence.
Qed.

Lemma key_refresh_section L s :
  Sect.key (PclusterConfig.refresh_section L s) = Sect.key s.
Proof. reflexivity. Qed.

Lemma length_get_sections_refresh c k :
  length (PclusterConfig.get_sections (PclusterConfig.refresh c) k)
  = length (PclusterConfig.get_sections c k).
Proof.
  unfold PclusterConfig.get_sections, PclusterConfig.refresh. simpl.
  generalize (PclusterConfig.sections c) at 1.
  intros L. induction (PclusterConfig.sections c) as [|s l IH]; simpl; [reflexivity|].
  rewrite key_refresh_section. destruct (String.eqb (Sect.key s) k); simpl; rewrite IH;
    reflexivity.
Qed.

Lemma length_get_sections_remove_key c k0 c' k :
  PclusterConfig.remove_section c k0 None = Ok c' -> k <> k0 ->
  length (PclusterConfig.get_sections c' k) = length (PclusterConfig.get_sections c k).
Proof.
  unfold PclusterConfig.remove_section.
  destruct (Nat.ltb 1 _); [discriminate|]. intros [= <-] Hne.
  rewrite length_get_sections_refresh. unfold PclusterConfig.get_sections. simpl.
  induction (PclusterConfig.sections c) as [|s l IH]; simpl; [reflexivity|].
  destruct (String.eqb_spec (Sect.key s) k0) as [Hk0|Hk0]; simpl.
  - destruct (String.eqb_spec (Sect.key s) k) as [Hk|Hk]; [congruence | exact IH].
  - destruct (String.eqb (Sect.key s) k); simpl; rewrite IH; reflexivity.
Qed.

Lemma remove_ignored_sections_ok_iff (config : PclusterConfig.t) :
  is_Ok (ConfigPatch._remove_ignored_sections config) = true <->
  forall k, In k ConfigPatch.IGNORED_SECTIONS ->
    (length (PclusterConfig.get_sections config k) <= 1)%nat.
Proof.
  unfold ConfigPatch._remove_ignored_sections, ConfigPatch.IGNORED_SECTIONS.
  cbn [for_each].
  destruct (PclusterConfig.remove_section config "global" None) as [c1|e] eqn:H1.
  - simpl. pose proof (length_get_sections_remove_key config "global" c1 "aliases" H1)
      as Hlen.
    unfold PclusterConfig.remove_section in H1 |- *.
    destruct (Nat.ltb_spec 1 (length (PclusterConfig.get_sections config "global")))
      as [Hg|Hg]; [discriminate|].
    rewrite Hlen by discriminate.
    destruct (Nat.ltb_spec 1 (length (PclusterConfig.get_sections config "aliases")))
      as [Ha|Ha]; simpl.
    + split; [discriminate|]. intros H.
      specialize (H "aliases" (or_intror (or_introl eq_refl))). lia.
    + split; [|reflexivity]. intros _ k [<-|[<-|[]]]; assumption.
  - simpl. unfold PclusterConfig.remove_section in H1.
    destruct (Nat.ltb_spec 1 (length (PclusterConfig.get_sections config "global")))
      as [Hg|Hg]; [|discriminate].
    split; [discriminate|]. intros H. specialize (H "global" (or_introl eq_refl)). lia.
Qed.

(** X16: [_remove_ignored_sections] returns exactly when the
    configuration holds at most one [global] and at most one [aliases]
    section, and the configuration it returns holds the sections of the
    other keys and no others. *)
Theorem remove_ignored_sections_spec (config : PclusterConfig.t) :
  (is_Ok (ConfigPatch._remove_ignored_sections config) = true <->
   forall k, In k ConfigPatch.IGNORED_SECTIONS ->
     (length (PclusterConfig.get_sections config k) <= 1)%nat)
  /\ (forall config',
        ConfigPatch._remove_ignored_sections config = Ok config' ->
        forall k l m, has config' k l m <->
          has config k l m /\ ~ In k ConfigPatch.IGNORED_SECTIONS).
Proof.
  split; [apply remove_ignored_sections_ok_iff|].
  unfold ConfigPatch._remove_ignored_sections, ConfigPatch.IGNORED_SECTIONS.
  cbn [for_each].
  intros config' H. apply bind_Ok_inv in H as (c1 & H1 & H).
  apply bind_Ok_inv in H as (c2 & H2 & H). injection H as <-.
  intros k l m. rewrite (has_remove_key _ _ _ H2), (has_remove_key _ _ _ H1).
  simpl. intuition congruence.
Qed.

(** ** Labels after the adaptation *)

Lemma has_set_label c k0 old new k l m :
  has (PclusterConfig.set_label c k0 old new) k l m <->
  (has c k l m /\ ~ (k = k0 /\ l = old) /\ ~ (k = k0 /\ l = new))
  \/ (k = k0 /\ l = new /\ has c k0 old m).
Proof.
  unfold PclusterConfig.set_label.
  destruct (String.eqb_spec old new) as [->|Hne].
  - rewrite has_refresh. split.
    + intros H. destruct (String.eqb_spec k k0) as [->|Hk].
      * destruct (String.eqb_spec l new) as [->|Hl]; [right; auto|].
        left. split; [exact H|]. split; intros [_ ?]; congruence.
      * left. split; [exact H|]. split; intros [? _]; congruence.
    + intros [[H _]|(-> & -> & H)]; exact H.
  - rewrite has_refresh. unfold has. simpl. split.
    + intros (x & Hin & Hk & Hl & Hm). apply in_map_iff in Hin as (y & Hy & Hin).
      apply filter_In in Hin as [Hin Hnew]. apply negb_true_iff, at_slot_false in Hnew.
      destruct (Sect.at_slot k0 old y) eqn:Hold.
      * apply at_slot_true in Hold as [Hk0 Hl0]. subst x.
        right. unfold Sect.key in *. simpl in *. subst.
        split; [reflexivity|]. split; [reflexivity|]. exists y. auto.
      * apply at_slot_false in Hold. subst x. left. subst.
        split; [exists y; auto|]. split; assumption.
    + intros [((x & Hin & Hk & Hl & Hm) & Hold & Hnew)|(-> & -> & x & Hin & Hk & Hl & Hm)].
      * exists x. subst. split; [|auto]. apply in_map_iff. exists x.
        apply at_slot_false in Hold. rewrite Hold. split; [reflexivity|].
        apply filter_In. split; [exact Hin|]. apply negb_true_iff, at_slot_false.
        exact Hnew.
      * exists (Sect.set_label x new). split; [|auto]. apply in_map_iff. exists x.
        assert (Hat : Sect.at_slot k0 old x = true) by (apply at_slot_true; auto).
        rewrite Hat. split; [reflexivity|]. apply filter_In. split; [exact Hin|].
        apply negb_true_iff, at_slot_false. intros [_ Hl']. congruence.
Qed.

Lemma slot_set_label c k0 old new k l :
  slot (PclusterConfig.set_label c k0 old new) k l ->
  (k = k0 /\ l = new) \/ (slot c k l /\ ~ (k = k0 /\ l = old)).
Proof.
  intros (m & H). apply has_set_label in H as [(H & Ho & _)|(-> & -> & _)].
  - right. split; [exists m; exact H | exact Ho].
  - left. auto.
Qed.

Lemma slot_set_label_other c k0 old new k l :
  k <> k0 -> slot (PclusterConfig.set_label c k0 old new) k l <-> slot c k l.
Proof.
  intros Hne. unfold slot. split; intros (m & H); exists m.
  - apply has_set_label in H as [(H & _)|(-> & _)]; [exact H | congruence].
  - apply has_set_label. left. split; [exact H|]. split; intros [? _]; congruence.
Qed.

(** ** The update command *)

Section UpdateCommandFacts.
Import UpdateCommand.
Variable PclusterConfig_from_stack : string -> string -> outcome PclusterConfig.t.
Variable tabulate : list (list value) -> string.
Variable input : string -> outcome string.

Let security_checks := security_checks PclusterConfig_from_stack tabulate.
Let _check_updatability := _check_updatability PclusterConfig_from_stack tabulate input.

Lemma not_asked_app l1 l2 : ~ asked l1 -> ~ asked l2 -> ~ asked (l1 ++ l2).
Proof.
  intros H1 H2 (ev & Hin & Hev). apply in_app_or in Hin as [Hin|Hin];
    [apply H1 | apply H2]; exists ev; auto.
Qed.

Lemma not_asked_action_lines acts : ~ asked (action_lines acts).
Proof.
  intros (ev & Hin & Hev). unfold action_lines in Hin.
  apply in_map_iff in Hin as (a & <- & _). discriminate.
Qed.

Lemma security_checks_not_asked a target_config stack_name :
  ~ asked (security_checks a target_config stack_name).1.
Proof.
  unfold security_checks, UpdateCommand.security_checks.
  assert (H1 : forall ev, is_Input ev = false -> ~ asked [ev]).
  { intros ev Hev (ev' & [<-|[]] & Hev'). congruence. }
  destruct (force a); [apply H1; reflexivity|].
  destruct (PclusterConfig_from_stack _ _) as [base_config|e]; [|apply H1; reflexivity].
  destruct (ConfigPatch.init base_config target_config) as [patch|e];
    [|apply not_asked_app; apply H1; reflexivity].
  destruct (ConfigPatch.changes patch) as [|c l].
  { repeat apply not_asked_app; apply H1; reflexivity. }
  destruct (ConfigPatch.check patch stack_name) as [[[allowed rows] acts]|e];
    [|repeat apply not_asked_app; apply H1; reflexivity].
  destruct allowed; simpl.
  - intros (ev & Hin & Hev). simpl in Hin.
    repeat (destruct Hin as [<-|Hin]; [discriminate|]). destruct Hin.
  - intros (ev & Hin & Hev). simpl in Hin.
    repeat (destruct Hin as [<-|Hin]; [discriminate|]).
    apply in_app_or in Hin as [Hin|Hin].
    + apply (not_asked_action_lines acts). exists ev. auto.
    + destruct Hin as [<-|[]]. discriminate.
Qed.

(** X17: [_check_updatability] answers true exactly when the user answers
    the prompt with y (in either case, white space around it ignored) and
    either the update is forced, or the patch is built and has no change or
    its check allows it. *)
Theorem check_updatability_proceeds_iff
    (a : args) (target_config : PclusterConfig.t) (stack_name : string) :
  (_check_updatability a target_config stack_name).2 = Ok true <->
  (exists answer, input proceed_prompt = Ok answer /\ lower (strip answer) = "y")
  /\ (force a = true
      \/ exists base_config patch,
           PclusterConfig_from_stack (config_file a) (cluster_name a) = Ok base_config
           /\ ConfigPatch.init base_config target_config = Ok patch
           /\ (ConfigPatch.changes patch = []
               \/ exists rows acts,
                    ConfigPatch.check patch stack_name = Ok (true, rows, acts))).
Proof.
  unfold _check_updatability, UpdateCommand._check_updatability.
  assert (Hsec : forall t,
    UpdateCommand.security_checks PclusterConfig_from_stack tabulate a target_config
      stack_name = (t, Ok true) ->
    force a = true
    \/ exists base_config patch,
         PclusterConfig_from_stack (config_file a) (cluster_name a) = Ok base_config
         /\ ConfigPatch.init base_config target_config = Ok patch
         /\ (ConfigPatch.changes patch = []
             \/ exists rows acts,
                  ConfigPatch.check patch stack_name = Ok (true, rows, acts))).
  { intros t. unfold UpdateCommand.security_checks.
    destruct (force a); [auto|].
    destruct (PclusterConfig_from_stack (config_file a) (cluster_name a))
      as [base_config|e] eqn:Hb; [|discriminate].
    destruct (ConfigPatch.init base_config target_config) as [patch|e] eqn:Hp;
      [|discriminate].
    destruct (ConfigPatch.changes patch) as [|c l] eqn:Hc.
    { intros _. right. exists base_config, patch. auto. }
    destruct (ConfigPatch.check patch stack_name) as [[[allowed rows] acts]|e] eqn:Hk;
      [|discriminate].
    destruct allowed; [|discriminate].
    intros _. right. exists base_config, patch. split; [reflexivity|].
    split; [exact Hp|]. right. eauto. }
  assert (Hsec' :
    (force a = true
     \/ exists base_config patch,
          PclusterConfig_from_stack (config_file a) (cluster_name a) = Ok base_config
          /\ ConfigPatch.init base_config target_config = Ok patch
          /\ (ConfigPatch.changes patch = []
              \/ exists rows acts,
                   ConfigPatch.check patch stack_name = Ok (true, rows, acts))) ->
    exists t, UpdateCommand.security_checks PclusterConfig_from_stack tabulate a
                target_config stack_name = (t, Ok true)).
  { unfold UpdateCommand.security_checks.
    intros [Hf|(base_config & patch & Hb & Hp & Hc)].
    - rewrite Hf. eauto.
    - destruct (force a); [eauto|]. rewrite Hb, Hp.
      destruct Hc as [->|(rows & acts & ->)]; [eauto|].
      destruct (ConfigPatch.changes patch); eauto. }
  destruct (UpdateCommand.security_checks PclusterConfig_from_stack tabulate a
              target_config stack_name) as [t [[|]|e]] eqn:Hs; simpl.
  - split.
    + intros H. split; [|eapply Hsec; reflexivity].
      destruct (input proceed_prompt) as [answer|e]; [|discriminate].
      simpl in H. injection H as H. apply String.eqb_eq in H. eauto.
    + intros [(answer & -> & Hy) _]. simpl. rewrite Hy. reflexivity.
  - split; [discriminate|]. intros [_ H]. apply Hsec' in H as (t' & H). congruence.
  - split; [discriminate|]. intros [_ H]. apply Hsec' in H as (t' & H). congruence.
Qed.

(** X18: when the update is not forced and building the patch or checking
    it raises, [_check_updatability] does not raise: it logs the exception
    last, answers false, and does not ask the user. *)
Theorem check_updatability_catches_exceptions
    (a : args) (target_config base_config : PclusterConfig.t) (stack_name : string)
    (e : exn) :
  force a = false ->
  PclusterConfig_from_stack (config_file a) (cluster_name a) = Ok base_config ->
  (ConfigPatch.init base_config target_config = Raise e
   \/ exists patch, ConfigPatch.init base_config target_config = Ok patch
                    /\ ConfigPatch.changes patch <> []
                    /\ ConfigPatch.check patch stack_name = Raise e) ->
  (_check_updatability a target_config stack_name).2 = Ok false
  /\ last (_check_updatability a target_config stack_name).1 = Some (LogException e)
  /\ ~ asked (_check_updatability a target_config stack_name).1.
Proof.
  intros Hf Hb He.
  pose proof (security_checks_not_asked a target_config stack_name) as Hna.
  unfold _check_updatability, UpdateCommand._check_updatability.
  unfold security_checks in Hna.
  assert (Hs : exists t,
    UpdateCommand.security_checks PclusterConfig_from_stack tabulate a target_config
      stack_name = (t, Ok false) /\ last t = Some (LogException e)).
  { unfold UpdateCommand.security_checks. rewrite Hf, Hb.
    destruct He as [->|(patch & -> & Hc & ->)]; [eexists; split; reflexivity|].
    destruct (ConfigPatch.changes patch); [congruence|]. eexists; split; reflexivity. }
  destruct Hs as (t & Hs & Hlast). rewrite Hs in Hna |- *. simpl in *. auto.
Qed.

(** X19: when the update is not forced and the check refuses the patch,
    [_check_updatability] answers false without asking the user, after
    printing the table of the rows and one line for every remediation
    text. *)
Theorem check_updatability_refused_patch
    (a : args) (target_config base_config : PclusterConfig.t) (stack_name : string)
    (patch : ConfigPatch.t) (rows : list (list value)) (acts : gset string) :
  force a = false ->
  PclusterConfig_from_stack (config_file a) (cluster_name a) = Ok base_config ->
  ConfigPatch.init base_config target_config = Ok patch ->
  ConfigPatch.changes patch <> [] ->
  ConfigPatch.check patch stack_name = Ok (false, rows, acts) ->
  (_check_updatability a target_config stack_name).2 = Ok false
  /\ ~ asked (_check_updatability a target_config stack_name).1
  /\ In (Print (tabulate rows)) (_check_updatability a target_config stack_name).1
  /\ (forall text, text ∈ acts ->
        In (Print ("- " +:+ replace nl (nl +:+ "  ") text))
          (_check_updatability a target_config stack_name).1).
Proof.
  intros Hf Hb Hp Hc Hcheck.
  pose proof (security_checks_not_asked a target_config stack_name) as Hna.
  unfold _check_updatability, UpdateCommand._check_updatability.
  unfold security_checks in Hna.
  assert (Hs : exists t,
    UpdateCommand.security_checks PclusterConfig_from_stack tabulate a target_config
      stack_name = (t, Ok false)
    /\ In (Print (tabulate rows)) t
    /\ forall text, text ∈ acts ->
         In (Print ("- " +:+ replace nl (nl +:+ "  ") text)) t).
  { unfold UpdateCommand.security_checks. rewrite Hf, Hb, Hp.
    destruct (ConfigPatch.changes patch); [congruence|]. rewrite Hcheck.
    eexists. split; [reflexivity|]. split.
    - simpl. auto.
    - intros text Hin. apply in_or_app. right. simpl. right. right.
      apply in_or_app. left. unfold action_lines.
      apply (in_map (fun a => Print ("- " +:+ replace nl (nl +:+ "  ") a))).
      apply list_elem_of_In, elem_of_elements. exact Hin. }
  destruct Hs as (t & Hs & Hrows & Hacts). rewrite Hs in Hna |- *. simpl in *. auto.
Qed.
End UpdateCommandFacts.

Lemma check_updatability_catches_exceptions_witness :
  (UpdateCommand._check_updatability (fun _ _ => Ok one_vpc_config) (fun _ => "")
     (fun _ => Ok "y") update_args odd_vpc_config "stack").2 = Ok false.
Proof.
  apply (check_updatability_catches_exceptions (fun _ _ => Ok one_vpc_config)
           (fun _ => "") (fun _ => Ok "y") update_args odd_vpc_config one_vpc_config
           "stack" (AttributeError "value")); [reflexivity | reflexivity |].
  left. reflexivity.
Defined.

Lemma check_updatability_refused_patch_witness :
  (UpdateCommand._check_updatability (fun _ _ => Ok one_vpc_config) (fun _ => "")
     (fun _ => Ok "y") update_args other_vpc_config "stack").2 = Ok false.
Proof.
  refine (proj1 (check_updatability_refused_patch (fun _ _ => Ok one_vpc_config)
           (fun _ => "") (fun _ => Ok "y") update_args other_vpc_config one_vpc_config
           "stack" (built one_vpc_config other_vpc_config)
           [ConfigPatch.header;
            [VStr "vpc default"; VStr "vpc_id"; VStr "vpc-1"; VStr "vpc-2"; VStr "FAILED";
             VStr "Update currently unsupported"]]
           {[ "Restore the previous parameter value for the unsupported changes." ]}
           eq_refl eq_refl _ _ _)).
  - vm_compute. reflexivity.
  - vm_compute. discriminate.
  - vm_compute. reflexivity.
Defined.

Section AutofillFacts.
Import UpdateCommand.
Variable get_asg_name : string -> outcome string.
Variable describe_desired_capacity : string -> outcome value.
Variable get_stack_parameters : string -> outcome (list stack_parameter).

Let _autofill_cfn_params :=
  _autofill_cfn_params get_asg_name describe_desired_capacity get_stack_parameters.

Lemma take_resources_bucket_other (params : list stack_parameter) :
  forall (cfn_params : gmap string value) (k : string),
  k <> "ResourcesS3Bucket" ->
  fold_left take_resources_bucket params cfn_params !! k = cfn_params !! k.
Proof.
  induction params as [|p params IH]; intros cfn_params k Hk; simpl; [reflexivity|].
  rewrite IH by exact Hk. unfold take_resources_bucket.
  destruct (py_eq _ _); [|reflexivity].
  apply lookup_insert_ne. congruence.
Qed.

Lemma take_resources_bucket_last (params : list stack_parameter) :
  forall (cfn_params : gmap string value),
  fold_left take_resources_bucket params cfn_params !! "ResourcesS3Bucket"
  = match last (List.filter is_resources_bucket params) with
    | Some parameter => Some (ParameterValue parameter)
    | None => cfn_params !! "ResourcesS3Bucket"
    end.
Proof.
  induction params as [|p params IH]; intros cfn_params; simpl; [reflexivity|].
  rewrite IH. unfold take_resources_bucket. fold (is_resources_bucket p).
  destruct (is_resources_bucket p) eqn:Hp.
  - change (p :: List.filter is_resources_bucket params)
      with ([p] ++ List.filter is_resources_bucket params)%list.
    rewrite last_app. simpl.
    destruct (last (List.filter is_resources_bucket params)); [reflexivity|].
    apply lookup_insert_eq.
  - reflexivity.
Qed.

(** X20: [_autofill_cfn_params] fails on a configuration without cluster
    section; when it returns it has touched no parameter other than
    DesiredSize and ResourcesS3Bucket: with the awsbatch scheduler it leaves
    DesiredSize, with another scheduler it leaves ResourcesS3Bucket, and
    with another scheduler and reset_desired it leaves everything. *)
Theorem autofill_touches_two_parameters
    (a : args) (cfn_params cfn_params' : gmap string value) (stack_name : string)
    (target_config : PclusterConfig.t) :
  (_autofill_cfn_params a cfn_params stack_name target_config).2 = Ok cfn_params' ->
  exists cluster_section,
    PclusterConfig.get_section target_config "cluster" None = Some cluster_section
    /\ (forall k, k <> "DesiredSize" -> k <> "ResourcesS3Bucket" ->
          cfn_params' !! k = cfn_params !! k)
    /\ (py_eq (Sect.get_param_value cluster_section "scheduler") (VStr "awsbatch") = true ->
        cfn_params' !! "DesiredSize" = cfn_params !! "DesiredSize")
    /\ (py_eq (Sect.get_param_value cluster_section "scheduler") (VStr "awsbatch") = false ->
        cfn_params' !! "ResourcesS3Bucket" = cfn_params !! "ResourcesS3Bucket"
        /\ (reset_desired a = true -> cfn_params' = cfn_params)).
Proof.
  unfold _autofill_cfn_params, UpdateCommand._autofill_cfn_params.
  destruct (PclusterConfig.get_section target_config "cluster" None)
    as [cluster_section|]; [|discriminate].
  intros H. exists cluster_section. split; [reflexivity|].
  unfold py_ne in H.
  destruct (py_eq (Sect.get_param_value cluster_section "scheduler") (VStr "awsbatch"));
    simpl in H.
  - apply bind_Ok_inv in H as (params & _ & H). injection H as <-.
    split; [|split; [|discriminate]].
    + intros k _ Hk. apply take_resources_bucket_other. exact Hk.
    + intros _. apply take_resources_bucket_other. discriminate.
  - destruct (reset_desired a); simpl in H.
    + injection H as <-. split; [reflexivity|]. split; [discriminate|]. auto.
    + apply bind_Ok_inv in H as (asg_name & _ & H).
      apply bind_Ok_inv in H as (desired_capacity & _ & H). injection H as <-.
      split; [|split; [discriminate|]].
      * intros k Hk _. apply lookup_insert_ne. congruence.
      * intros _. split; [|discriminate]. apply lookup_insert_ne. discriminate.
Qed.

(** X21: with the awsbatch scheduler ResourcesS3Bucket takes the value of
    the last parameter of the stack of that key, and keeps its value when
    the stack has none; with another scheduler and without reset_desired,
    DesiredSize becomes the text of the desired capacity of the stack's
    scaling group. *)
Theorem autofill_values
    (a : args) (cfn_params : gmap string value) (stack_name : string)
    (target_config : PclusterConfig.t) (cluster_section : Sect.t) :
  PclusterConfig.get_section target_config "cluster" None = Some cluster_section ->
  (py_eq (Sect.get_param_value cluster_section "scheduler") (VStr "awsbatch") = true ->
   forall params, get_stack_parameters stack_name = Ok params ->
   exists cfn_params',
     (_autofill_cfn_params a cfn_params stack_name target_config).2 = Ok cfn_params'
     /\ cfn_params' !! "ResourcesS3Bucket"
        = match last (List.filter is_resources_bucket params) with
          | Some parameter => Some (ParameterValue parameter)
          | None => cfn_params !! "ResourcesS3Bucket"
          end)
  /\ (py_eq (Sect.get_param_value cluster_section "scheduler") (VStr "awsbatch") = false ->
      reset_desired a = false ->
      forall asg_name desired_capacity,
      get_asg_name stack_name = Ok asg_name ->
      describe_desired_capacity asg_name = Ok desired_capacity ->
      (_autofill_cfn_params a cfn_params stack_name target_config).2
      = Ok (<["DesiredSize" := VStr (py_str desired_capacity)]> cfn_params)).
Proof.
  intros Hc. unfold _autofill_cfn_params, UpdateCommand._autofill_cfn_params.
  rewrite Hc. unfold py_ne. split.
  - intros -> params ->. simpl. eexists. split; [reflexivity|].
    apply take_resources_bucket_last.
  - intros -> -> asg_name desired_capacity -> . simpl. intros ->. reflexivity.
Qed.
End AutofillFacts.

Lemma autofill_touches_two_parameters_witness :
  exists cluster_section,
    PclusterConfig.get_section one_vpc_config "cluster" None = Some cluster_section
    /\ (forall k, k <> "DesiredSize" -> k <> "ResourcesS3Bucket" ->
          (<["DesiredSize" := VStr "2"]> (∅ : gmap string value)) !! k
          = (∅ : gmap string value) !! k)
    /\ (py_eq (Sect.get_param_value cluster_section "scheduler") (VStr "awsbatch") = true ->
        (<["DesiredSize" := VStr "2"]> (∅ : gmap string value)) !! "DesiredSize"
        = (∅ : gmap string value) !! "DesiredSize")
    /\ (py_eq (Sect.get_param_value cluster_section "scheduler") (VStr "awsbatch") = false ->
        (<["DesiredSize" := VStr "2"]> (∅ : gmap string value)) !! "ResourcesS3Bucket"
        = (∅ : gmap string value) !! "ResourcesS3Bucket"
        /\ (UpdateCommand.reset_desired update_args = true ->
            <["DesiredSize" := VStr "2"]> (∅ : gmap string value) = ∅)).
Proof.
  apply (autofill_touches_two_parameters (fun _ => Ok "asg") (fun _ => Ok (VInt 2))
           (fun _ => Ok []) update_args ∅ (<["DesiredSize" := VStr "2"]> ∅) "stack"
           one_vpc_config).
  vm_compute. reflexivity.
Defined.

Lemma autofill_values_witness :
  (UpdateCommand._autofill_cfn_params (fun _ => Ok "asg") (fun _ => Ok (VInt 2))
     (fun _ => Ok []) update_args ∅ "stack" one_vpc_config).2
  = Ok (<["DesiredSize" := VStr (py_str (VInt 2))]> ∅).
Proof.
  exact (proj2 (autofill_values (fun _ => Ok "asg") (fun _ => Ok (VInt 2))
                  (fun _ => Ok []) update_args ∅ "stack" one_vpc_config
                  (cluster_section "default" (VStr "default")) eq_refl)
           eq_refl eq_refl "asg" (VInt 2) eq_refl eq_refl).
Defined.

(** ** Consent *)

Lemma lower_ascii_y c : lower_ascii c = "y"%char <-> c = "y"%char \/ c = "Y"%char.
Proof.
  split.
  - destruct c as [[] [] [] [] [] [] [] []]; vm_compute; intros H;
      try discriminate H; auto.
  - intros [->| ->]; reflexivity.
Qed.

Lemma lower_y s : lower s = "y" <-> s = "y" \/ s = "Y".
Proof.
  destruct s as [|c [|c' s]]; simpl.
  - split; [discriminate | intros [H|H]; discriminate].
  - split.
    + intros [= H]. apply lower_ascii_y in H as [->| ->]; auto.
    + intros [[= ->]|[= ->]]; reflexivity.
  - split; [discriminate | intros [H|H]; discriminate].
Qed.

Lemma string_length_ind (P : string -> Prop) :
  (forall s, (forall t, (String.length t < String.length s)%nat -> P t) -> P s) ->
  forall s, P s.
Proof.
  intros H s. remember (String.length s) as n eqn:Hn. revert s Hn.
  induction n as [n IH] using lt_wf_ind. intros s ->.
  apply H. intros t Ht. apply (IH _ Ht). reflexivity.
Qed.

Lemma lstrip_prefix s :
  exists pre, s = pre +:+ lstrip s /\ is_space pre = true.
Proof.
  induction s as [s IH] using string_length_ind.
  destruct s as [|a s1]; [exists ""; auto|].
  cbn [lstrip]. destruct (is_space1 a) eqn:H1.
  { destruct (IH s1) as (pre & Hs & Hpre); [simpl; lia|].
    exists (String a pre). split; [exact (f_equal (String a) Hs)|].
    unfold is_space in *. cbn [lstrip]. rewrite H1. exact Hpre. }
  destruct s1 as [|b s2]; [exists ""; auto|].
  destruct (is_space2 a b) eqn:H2.
  { destruct (IH s2) as (pre & Hs & Hpre); [simpl; lia|].
    exists (String a (String b pre)).
    split; [exact (f_equal (fun x => String a (String b x)) Hs)|].
    unfold is_space in *. cbn [lstrip]. rewrite H1, H2. exact Hpre. }
  destruct s2 as [|c s3]; [exists ""; auto|].
  destruct (is_space3 a b c) eqn:H3; [|exists ""; auto].
  destruct (IH s3) as (pre & Hs & Hpre); [simpl; lia|].
  exists (String a (String b (String c pre))).
  split; [exact (f_equal (fun x => String a (String b (String c x))) Hs)|].
  unfold is_space in *. cbn [lstrip]. rewrite H1, H2, H3. exact Hpre.
Qed.

Lemma lstrip_app_space pre s : is_space pre = true -> lstrip (pre +:+ s) = lstrip s.
Proof.
  induction pre as [pre IH] using string_length_ind. unfold is_space.
  destruct pre as [|a p1]; [reflexivity|].
  destruct (is_space1 a) eqn:H1.
  { simpl. rewrite H1. intros H. apply (IH p1); [simpl; lia | exact H]. }
  destruct p1 as [|b p2]; [simpl; rewrite H1; discriminate|].
  destruct (is_space2 a b) eqn:H2.
  { simpl. rewrite H1, H2. intros H. apply (IH p2); [simpl; lia | exact H]. }
  destruct p2 as [|c p3]; [simpl; rewrite H1, H2; discriminate|].
  destruct (is_space3 a b c) eqn:H3; [|simpl; rewrite H1, H2, H3; discriminate].
  simpl. rewrite H1, H2, H3. intros H. apply (IH p3); [simpl; lia | exact H].
Qed.

Lemma lstrip_y c s :
  c = "y"%char \/ c = "Y"%char -> lstrip (String c s) = String c s.
Proof.
  intros [->| ->]; destruct s as [|b [|d s]]; reflexivity.
Qed.

Lemma is_space_y c s : c = "y"%char \/ c = "Y"%char -> is_space (String c s) = false.
Proof. intros Hc. unfold is_space. rewrite (lstrip_y _ _ Hc). reflexivity. Qed.

Lemma rstrip_cons a s :
  rstrip (String a s) = if is_space (String a s) then "" else String a (rstrip s).
Proof. reflexivity. Qed.

Lemma rstrip_nil s : rstrip s = "" <-> is_space s = true.
Proof.
  destruct s as [|a s]; [split; reflexivity|].
  cbn [rstrip]. destruct (is_space (String a s)); split; try reflexivity; discriminate.
Qed.

(** X22: the answer to the prompt counts as consent exactly when it is
    the letter y, small or capital, with nothing but white space
    characters, as [str.strip()] removes them, before and after it. *)
Theorem consent_is_y_between_spaces (answer : string) :
  lower (strip answer) = "y" <->
  exists pre post c,
    answer = pre +:+ String c post
    /\ is_space pre = true /\ is_space post = true
    /\ (c = "y"%char \/ c = "Y"%char).
Proof.
  rewrite lower_y. unfold strip. split.
  - intros H. destruct (lstrip_prefix answer) as (pre & Ha & Hpre).
    assert (Hc : exists c, rstrip (lstrip answer) = String c ""
                           /\ (c = "y"%char \/ c = "Y"%char)).
    { destruct H as [H|H]; rewrite H; eauto. }
    destruct Hc as (c & Hr & Hc).
    destruct (lstrip answer) as [|a rest] eqn:Hl; [discriminate|].
    cbn [rstrip] in Hr. destruct (is_space (String a rest)); [discriminate|].
    injection Hr as -> Hrest. apply rstrip_nil in Hrest.
    exists pre, rest, c.
    split; [exact Ha|]. split; [exact Hpre|]. split; [exact Hrest | exact Hc].
  - intros (pre & post & c & -> & Hpre & Hpost & Hc).
    rewrite (lstrip_app_space _ _ Hpre), (lstrip_y _ _ Hc).
    rewrite rstrip_cons, (is_space_y _ _ Hc).
    apply rstrip_nil in Hpost. rewrite Hpost.
    destruct Hc as [->| ->]; [left | right]; reflexivity.
Qed.

(** ** The two loops of the adaptation *)

Lemma get_target_section_slots (self : ConfigPatch.t) (base_section : Sect.t) :
  ConfigPatch.base_config (ConfigPatch._get_target_section self base_section).1
  = ConfigPatch.base_config self
  /\ (forall k l, slot (ConfigPatch.target_config self) k l ->
        slot (ConfigPatch.target_config
                (ConfigPatch._get_target_section self base_section).1) k l)
  /\ slot (ConfigPatch.target_config (ConfigPatch._get_target_section self base_section).1)
       (Sect.key base_section)
       (Sect.label (ConfigPatch._get_target_section self base_section).2).
Proof.
  unfold ConfigPatch._get_target_section, ConfigPatch._create_default_section.
  set (found :=
         match PclusterConfig.get_sections (ConfigPatch.target_config self)
                 (Sect.key base_section) with
         | [s] => Some s
         | _ => None
         end).
  set (section :=
         match Sect.key_param base_section with
         | Some key_param =>
             if str_truthy (Some key_param)
             then ConfigPatch._get_target_section_by_param self (Sect.key base_section)
                    key_param (Sect.get_param_value base_section key_param)
             else found
         | None => found
         end).
  assert (Hfound : forall s, found = Some s ->
            In s (PclusterConfig.get_sections (ConfigPatch.target_config self)
                    (Sect.key base_section))).
  { unfold found. intros s.
    destruct (PclusterConfig.get_sections _ _) as [|s0 [|s1 l]]; try discriminate.
    intros [= ->]. left. reflexivity. }
  assert (Hsec : forall s, section = Some s ->
            In s (PclusterConfig.get_sections (ConfigPatch.target_config self)
                    (Sect.key base_section))).
  { unfold section. intros s. destruct (Sect.key_param base_section) as [kp|]; [|apply Hfound].
    destruct (str_truthy (Some kp)); [|apply Hfound].
    unfold ConfigPatch._get_target_section_by_param. intros H.
    apply find_some in H as [H _]. exact H. }
  destruct section as [s|].
  - simpl. split; [reflexivity|]. split; [auto|].
    specialize (Hsec s eq_refl). apply In_get_sections in Hsec as [Hin Hk].
    exists (Sect.mock s), s. auto.
  - simpl. split; [reflexivity|]. split.
    + intros k l H. apply slot_add_section. left. exact H.
    + apply slot_add_section. right. split; reflexivity.
Qed.

Lemma match_base_section_slots (k0 : string) (self : ConfigPatch.t) (snapshot : Sect.t) :
  (forall k l, slot (ConfigPatch.target_config self) k l ->
     slot (ConfigPatch.target_config (ConfigPatch.match_base_section k0 self snapshot)) k l)
  /\ (forall k l, k <> k0 ->
        (slot (ConfigPatch.base_config (ConfigPatch.match_base_section k0 self snapshot)) k l
         <-> slot (ConfigPatch.base_config self) k l))
  /\ (forall l,
        slot (ConfigPatch.base_config (ConfigPatch.match_base_section k0 self snapshot)) k0 l ->
        slot (ConfigPatch.target_config (ConfigPatch.match_base_section k0 self snapshot)) k0 l
        \/ (slot (ConfigPatch.base_config self) k0 l /\ l <> Sect.label snapshot)).
Proof.
  unfold ConfigPatch.match_base_section.
  destruct (PclusterConfig.get_section (ConfigPatch.base_config self) k0
              (Some (Sect.label snapshot))) as [b|] eqn:Hb.
  - destruct (get_section_at _ _ _ _ Hb) as (Hin & Hk & Hl).
    destruct (get_target_section_slots self b) as (Hbase & Hgrow & Hts).
    destruct (ConfigPatch._get_target_section self b) as [self1 ts]. simpl in *.
    split; [exact Hgrow|]. split.
    + intros k l Hne. rewrite Hbase. apply slot_set_label_other. exact Hne.
    + intros l H. rewrite Hbase in H. apply slot_set_label in H as [[_ ->]|[H Hne]].
      * left. rewrite <- Hk. exact Hts.
      * right. split; [exact H|]. intros ->. apply Hne. auto.
  - split; [auto|]. split; [tauto|].
    intros l H. right. split; [exact H|]. intros ->.
    apply get_section_slot in H. rewrite Hb in H. destruct H as [? H]. discriminate.
Qed.

Lemma match_base_inner (k0 : string) (L : list Sect.t) : forall self,
  (forall k l, slot (ConfigPatch.target_config self) k l ->
     slot (ConfigPatch.target_config
             (fold_left (ConfigPatch.match_base_section k0) L self)) k l)
  /\ (forall k l, k <> k0 ->
        (slot (ConfigPatch.base_config
                 (fold_left (ConfigPatch.match_base_section k0) L self)) k l
         <-> slot (ConfigPatch.base_config self) k l))
  /\ (forall l,
        slot (ConfigPatch.base_config
                (fold_left (ConfigPatch.match_base_section k0) L self)) k0 l ->
        slot (ConfigPatch.target_config
                (fold_left (ConfigPatch.match_base_section k0) L self)) k0 l
        \/ (slot (ConfigPatch.base_config self) k0 l /\ ~ In l (map Sect.label L))).
Proof.
  induction L as [|x L IH]; intros self; cbn [fold_left].
  - split; [auto|]. split; [tauto|]. intros l H. right. split; [exact H | intros []].
  - destruct (IH (ConfigPatch.match_base_section k0 self x)) as (Hg & Ho & Hk).
    destruct (match_base_section_slots k0 self x) as (Hg1 & Ho1 & Hk1).
    split; [auto|]. split.
    + intros k l Hne. rewrite Ho by exact Hne. apply Ho1. exact Hne.
    + intros l H. apply Hk in H as [H|[H Hn]]; [left; exact H|].
      apply Hk1 in H as [H|[H Hne]]; [left; apply Hg; exact H|].
      right. split; [exact H|]. simpl. intros [Heq|Hin]; [congruence | auto].
Qed.

Lemma match_base_outer (K : list string) : forall self,
  let self' :=
    fold_left
      (fun self section_key =>
         fold_left (ConfigPatch.match_base_section section_key)
           (PclusterConfig.get_sections (ConfigPatch.base_config self) section_key) self)
      K self in
  (forall k l, slot (ConfigPatch.target_config self) k l ->
     slot (ConfigPatch.target_config self') k l)
  /\ (forall k l, ~ In k K ->
        (slot (ConfigPatch.base_config self') k l
         <-> slot (ConfigPatch.base_config self) k l))
  /\ (forall k l, In k K -> slot (ConfigPatch.base_config self') k l ->
        slot (ConfigPatch.target_config self') k l).
Proof.
  induction K as [|k0 K IH]; intros self; cbn [fold_left].
  - split; [auto|]. split; [tauto|]. intros k l [].
  - set (self1 := fold_left (ConfigPatch.match_base_section k0)
                    (PclusterConfig.get_sections (ConfigPatch.base_config self) k0) self).
    destruct (IH self1) as (Hg & Ho & Hk).
    destruct (match_base_inner k0
                (PclusterConfig.get_sections (ConfigPatch.base_config self) k0) self)
      as (Hg1 & Ho1 & Hk1).
    fold self1 in Hg1, Ho1, Hk1. cbv zeta in *.
    split; [auto|]. split.
    + intros k l Hn. rewrite Ho by (intros H; apply Hn; right; exact H).
      apply Ho1. intros ->. apply Hn. left. reflexivity.
    + intros k l Hin H.
      destruct (in_dec string_dec k K) as [HK|HK]; [apply Hk; assumption|].
      destruct Hin as [<-|Hin]; [|contradiction].
      apply Ho in H; [|exact HK]. apply Hk1 in H as [H|[H Hn]]; [apply Hg; exact H|].
      exfalso. apply Hn. destruct H as (m & s & Hs & Hks & Hls & _).
      apply in_map_iff. exists s. split; [exact Hls|]. apply In_get_sections. auto.
Qed.

Lemma match_base_sections_slots (self : ConfigPatch.t) (k l : string) :
  slot (ConfigPatch.base_config (ConfigPatch.match_base_sections self)) k l ->
  slot (ConfigPatch.target_config (ConfigPatch.match_base_sections self)) k l.
Proof.
  unfold ConfigPatch.match_base_sections.
  destruct (match_base_outer (PclusterConfig.get_section_keys (ConfigPatch.base_config self))
              self) as (_ & Ho & Hk).
  cbv zeta in *. intros H.
  destruct (in_dec string_dec k
              (PclusterConfig.get_section_keys (ConfigPatch.base_config self)))
    as [HK|HK]; [apply Hk; assumption|].
  exfalso. apply HK. apply In_get_section_keys. exists l. apply (Ho k l HK). exact H.
Qed.

Lemma get_base_section_slots (self : ConfigPatch.t) (target_section : Sect.t) :
  ConfigPatch.target_config (ConfigPatch._get_base_section self target_section).1
  = ConfigPatch.target_config self
  /\ (forall k l,
        slot (ConfigPatch.base_config
                (ConfigPatch._get_base_section self target_section).1) k l <->
        slot (ConfigPatch.base_config self) k l
        \/ (k = Sect.key target_section /\ l = Sect.label target_section)).
Proof.
  unfold ConfigPatch._get_base_section, ConfigPatch._create_default_section.
  destruct (PclusterConfig.get_section (ConfigPatch.base_config self)
              (Sect.key target_section) (Some (Sect.label target_section)))
    as [s|] eqn:Hs; simpl.
  - split; [reflexivity|]. intros k l. split; [auto|].
    intros [H|[-> ->]]; [exact H|]. apply get_section_slot. rewrite Hs. eauto.
  - split; [reflexivity|]. intros k l.
    exact (slot_add_section (ConfigPatch.base_config self)
             (ConfigPatch.default_section target_section) k l).
Qed.

Lemma create_missing_inner (L : list Sect.t) : forall self,
  let self' :=
    fold_left (fun self target_section =>
                 (ConfigPatch._get_base_section self target_section).1) L self in
  ConfigPatch.target_config self' = ConfigPatch.target_config self
  /\ (forall k l,
        slot (ConfigPatch.base_config self') k l <->
        slot (ConfigPatch.base_config self) k l
        \/ exists ts, In ts L /\ k = Sect.key ts /\ l = Sect.label ts).
Proof.
  induction L as [|x L IH]; intros self; cbn [fold_left].
  - split; [reflexivity|]. intros k l. split; [auto | intros [H|(ts & [] & _)]; exact H].
  - destruct (IH (ConfigPatch._get_base_section self x).1) as (Ht & Hb).
    destruct (get_base_section_slots self x) as (Ht1 & Hb1). cbv zeta in *.
    split; [congruence|]. intros k l. rewrite Hb, Hb1. split.
    + intros [[H|[-> ->]]|(ts & Hin & Hts)]; [auto| |].
      * right. exists x. split; [left; reflexivity | auto].
      * right. exists ts. split; [right; exact Hin | exact Hts].
    + intros [H|(ts & [<-|Hin] & Hk & Hl)]; [auto|auto|].
      right. exists ts. auto.
Qed.

Lemma create_missing_outer (K : list string) : forall self,
  let self' :=
    fold_left
      (fun self section_key =>
         fold_left (fun self target_section =>
                      (ConfigPatch._get_base_section self target_section).1)
           (PclusterConfig.get_sections (ConfigPatch.target_config self) section_key) self)
      K self in
  ConfigPatch.target_config self' = ConfigPatch.target_config self
  /\ (forall k l,
        slot (ConfigPatch.base_config self') k l <->
        slot (ConfigPatch.base_config self) k l
        \/ (In k K /\ slot (ConfigPatch.target_config self) k l)).
Proof.
  induction K as [|k0 K IH]; intros self; cbn [fold_left].
  - split; [reflexivity|]. intros k l. split; [auto | intros [H|[[] _]]; exact H].
  - set (self1 :=
           fold_left (fun self target_section =>
                        (ConfigPatch._get_base_section self target_section).1)
             (PclusterConfig.get_sections (ConfigPatch.target_config self) k0) self).
    destruct (IH self1) as (Ht & Hb).
    destruct (create_missing_inner
                (PclusterConfig.get_sections (ConfigPatch.target_config self) k0) self)
      as (Ht1 & Hb1).
    fold self1 in Ht1, Hb1. cbv zeta in *.
    split; [congruence|]. intros k l. rewrite Hb, Hb1, Ht1. split.
    + intros [[H|(ts & Hin & -> & ->)]|[Hin H]]; [auto| |].
      * right. apply In_get_sections in Hin as [Hin Hk]. split; [left; auto|].
        exists (Sect.mock ts), ts. auto.
      * right. split; [right; exact Hin | exact H].
    + intros [H|[[<-|Hin] H]]; [auto| |auto].
      left. right. destruct H as (m & s & Hs & Hk & Hl & _). exists s.
      split; [apply In_get_sections; auto | auto].
Qed.

Lemma create_missing_base_sections_slots (self : ConfigPatch.t) :
  ConfigPatch.target_config (ConfigPatch.create_missing_base_sections self)
  = ConfigPatch.target_config self
  /\ (forall k l,
        slot (ConfigPatch.base_config (ConfigPatch.create_missing_base_sections self)) k l
        <-> slot (ConfigPatch.base_config self) k l
            \/ slot (ConfigPatch.target_config self) k l).
Proof.
  unfold ConfigPatch.create_missing_base_sections.
  change (fun (self0 : ConfigPatch.t) (section_key : string) =>
            fold_left
              (fun (self1 : ConfigPatch.t) (target_section : Sect.t) =>
                 fst (ConfigPatch._get_base_section self1 target_section))
              (PclusterConfig.get_sections (ConfigPatch.target_config self0) section_key)
              self0)
    with (fun (self0 : ConfigPatch.t) (section_key : string) =>
            fold_left
              (fun (self1 : ConfigPatch.t) (target_section : Sect.t) =>
                 (ConfigPatch._get_base_section self1 target_section).1)
              (PclusterConfig.get_sections (ConfigPatch.target_config self0) section_key)
              self0).
  destruct (create_missing_outer
              (PclusterConfig.get_section_keys (ConfigPatch.target_config self)) self)
    as (Ht & Hb).
  cbv zeta in *. split; [exact Ht|]. intros k l. rewrite Hb. split.
  - intros [H|[_ H]]; auto.
  - intros [H|H]; [auto|]. right. split; [|exact H].
    apply In_get_section_keys. exists l. exact H.
Qed.

(** X23: when [_adapt] returns, the base and the target configuration hold
    sections at the same keys and labels: one has a section of a key and
    label exactly when the other has one. *)
Theorem adapt_same_keys_and_labels (self self' : ConfigPatch.t) :
  ConfigPatch._adapt self = Ok self' ->
  forall k l,
    is_Some (PclusterConfig.get_section (ConfigPatch.base_config self') k (Some l)) <->
    is_Some (PclusterConfig.get_section (ConfigPatch.target_config self') k (Some l)).
Proof.
  unfold ConfigPatch._adapt. intros H.
  apply bind_Ok_inv in H as (base & _ & H).
  apply bind_Ok_inv in H as (target & _ & H). injection H as <-.
  set (self1 := ConfigPatch.match_base_sections _).
  destruct (create_missing_base_sections_slots self1) as (Ht & Hb).
  intros k l. rewrite !get_section_slot, Hb, Ht. split.
  - intros [H|H]; [apply match_base_sections_slots; exact H | exact H].
  - auto.
Qed.

Lemma adapt_same_keys_and_labels_witness :
  is_Some (PclusterConfig.get_section
             (ConfigPatch.base_config
                (adapted (ConfigPatch.mk one_vpc_config two_vpc_config [])))
             "vpc" (Some "_vpc"))
  <-> is_Some (PclusterConfig.get_section
                 (ConfigPatch.target_config
                    (adapted (ConfigPatch.mk one_vpc_config two_vpc_config [])))
                 "vpc" (Some "_vpc")).
Proof.
  refine (adapt_same_keys_and_labels (ConfigPatch.mk one_vpc_config two_vpc_config [])
            (adapted (ConfigPatch.mk one_vpc_config two_vpc_config [])) _ "vpc" "_vpc").
  vm_compute. reflexivity.
Defined.

(** ** Ignored sections never reach the comparison *)

Lemma fold_left_preserves {A B : Type} (I : A -> Prop) (f : A -> B -> A) (l : list B) :
  (forall a x, In x l -> I a -> I (f a x)) -> forall a, I a -> I (fold_left f l a).
Proof.
  induction l as [|x l IH]; intros Hf a Ha; simpl; [exact Ha|].
  apply IH.
  - intros a' y Hy. apply Hf. right. exact Hy.
  - apply Hf; [left; reflexivity | exact Ha].
Qed.

Lemma no_ignored_remove_ignored_sections c c' :
  ConfigPatch._remove_ignored_sections c = Ok c' -> no_ignored c'.
Proof.
  unfold ConfigPatch._remove_ignored_sections, ConfigPatch.IGNORED_SECTIONS.
  cbn [for_each]. intros H. apply bind_Ok_inv in H as (c1 & H1 & H).
  apply bind_Ok_inv in H as (c2 & H2 & H). injection H as <-.
  intros k l (m & Hm). apply (has_remove_key _ _ _ H2) in Hm as [Hm Ha].
  apply (has_remove_key _ _ _ H1) in Hm as [Hm Hg].
  simpl. intuition congruence.
Qed.

Lemma no_ignored_set_label c k0 old new :
  no_ignored c -> no_ignored (PclusterConfig.set_label c k0 old new).
Proof.
  intros Hc k l (m & H). apply has_set_label in H as [(H & _)|(-> & _ & H)].
  - apply (Hc k l). exists m. exact H.
  - apply (Hc k0 old). exists m. exact H.
Qed.

Lemma no_ignored_add_section c s :
  no_ignored c -> ~ In (Sect.key s) ConfigPatch.IGNORED_SECTIONS ->
  no_ignored (PclusterConfig.add_section c s).
Proof.
  intros Hc Hs k l H. apply slot_add_section in H as [H|[-> _]]; [eapply Hc; exact H|].
  exact Hs.
Qed.

Lemma no_ignored_rename_base_sections self :
  no_ignored (ConfigPatch.base_config self) ->
  no_ignored (ConfigPatch.base_config (ConfigPatch._rename_base_sections self))
  /\ ConfigPatch.target_config (ConfigPatch._rename_base_sections self)
     = ConfigPatch.target_config self
  /\ ConfigPatch.changes (ConfigPatch._rename_base_sections self)
     = ConfigPatch.changes self.
Proof.
  intros H. unfold ConfigPatch._rename_base_sections. simpl.
  split; [|split; reflexivity].
  apply fold_left_preserves; [|exact H].
  intros base section_key _ Hbase.
  apply (fold_left_preserves (fun st : nat * PclusterConfig.t => no_ignored st.2));
    [|exact Hbase].
  intros [i b] base_section _ Hb. simpl in *. apply no_ignored_set_label. exact Hb.
Qed.

Lemma no_ignored_get_target_section self b :
  patch_no_ignored self -> ~ In (Sect.key b) ConfigPatch.IGNORED_SECTIONS ->
  patch_no_ignored (ConfigPatch._get_target_section self b).1
  /\ ConfigPatch.changes (ConfigPatch._get_target_section self b).1
     = ConfigPatch.changes self.
Proof.
  intros [Hb Ht] Hk.
  unfold ConfigPatch._get_target_section, ConfigPatch._create_default_section.
  destruct (match Sect.key_param b with Some _ => _ | None => _ end) as [s|]; simpl.
  - split; [split; assumption | reflexivity].
  - split; [|reflexivity]. split; [exact Hb|].
    apply no_ignored_add_section; [exact Ht | exact Hk].
Qed.

Lemma no_ignored_match_base_section k0 self snapshot :
  patch_no_ignored self ->
  patch_no_ignored (ConfigPatch.match_base_section k0 self snapshot)
  /\ ConfigPatch.changes (ConfigPatch.match_base_section k0 self snapshot)
     = ConfigPatch.changes self.
Proof.
  intros Hs. unfold ConfigPatch.match_base_section.
  destruct (PclusterConfig.get_section (ConfigPatch.base_config self) k0
              (Some (Sect.label snapshot))) as [b|] eqn:Hb; [|auto].
  assert (Hk : ~ In (Sect.key b) ConfigPatch.IGNORED_SECTIONS).
  { destruct (get_section_at _ _ _ _ Hb) as (Hin & Hkey & Hl).
    apply (proj1 Hs (Sect.key b) (Sect.label b)). exists (Sect.mock b), b. auto. }
  destruct (no_ignored_get_target_section self b Hs Hk) as [[H1 H2] H3].
  destruct (ConfigPatch._get_target_section self b) as [self1 ts]. simpl in *.
  split; [|exact H3]. split; [|exact H2]. apply no_ignored_set_label. exact H1.
Qed.

Lemma no_ignored_match_base_sections self :
  patch_no_ignored self ->
  patch_no_ignored (ConfigPatch.match_base_sections self)
  /\ ConfigPatch.changes (ConfigPatch.match_base_sections self) = ConfigPatch.changes self.
Proof.
  intros Hs. unfold ConfigPatch.match_base_sections.
  apply (fold_left_preserves
           (fun s => patch_no_ignored s
                     /\ ConfigPatch.changes s = ConfigPatch.changes self)); [|auto].
  intros s k _ Hk.
  apply (fold_left_preserves
           (fun s => patch_no_ignored s
                     /\ ConfigPatch.changes s = ConfigPatch.changes self)); [|exact Hk].
  intros s' x _ [Hs' Hc].
  destruct (no_ignored_match_base_section k s' x Hs') as [H1 H2].
  split; [exact H1 | congruence].
Qed.

Lemma no_ignored_get_base_section self ts :
  patch_no_ignored self -> ~ In (Sect.key ts) ConfigPatch.IGNORED_SECTIONS ->
  patch_no_ignored (ConfigPatch._get_base_section self ts).1
  /\ ConfigPatch.changes (ConfigPatch._get_base_section self ts).1
     = ConfigPatch.changes self.
Proof.
  intros [Hb Ht] Hk.
  unfold ConfigPatch._get_base_section, ConfigPatch._create_default_section.
  destruct (PclusterConfig.get_section _ _ _) as [s|]; simpl.
  - split; [split; assumption | reflexivity].
  - split; [|reflexivity]. split; [|exact Ht].
    apply no_ignored_add_section; [exact Hb | exact Hk].
Qed.

Lemma no_ignored_create_missing_base_sections self :
  patch_no_ignored self ->
  patch_no_ignored (ConfigPatch.create_missing_base_sections self)
  /\ ConfigPatch.changes (ConfigPatch.create_missing_base_sections self)
     = ConfigPatch.changes self.
Proof.
  intros Hs. unfold ConfigPatch.create_missing_base_sections.
  apply (fold_left_preserves
           (fun s => patch_no_ignored s
                     /\ ConfigPatch.changes s = ConfigPatch.changes self)); [|auto].
  intros s k _ Hk.
  assert (HL : forall ts,
            In ts (PclusterConfig.get_sections (ConfigPatch.target_config s) k) ->
            ~ In (Sect.key ts) ConfigPatch.IGNORED_SECTIONS).
  { intros ts Hin. apply In_get_sections in Hin as [Hin Hkey].
    apply (proj2 (proj1 Hk) (Sect.key ts) (Sect.label ts)).
    exists (Sect.mock ts), ts. auto. }
  revert HL. generalize (PclusterConfig.get_sections (ConfigPatch.target_config s) k).
  intros L HL.
  apply (fold_left_preserves
           (fun s => patch_no_ignored s
                     /\ ConfigPatch.changes s = ConfigPatch.changes self)); [|exact Hk].
  intros s' ts Hts [Hs' Hc].
  destruct (no_ignored_get_base_section s' ts Hs' (HL ts Hts)) as [H1 H2].
  split; [exact H1 | congruence].
Qed.

Lemma no_ignored_adapt self self' :
  ConfigPatch._adapt self = Ok self' ->
  patch_no_ignored self' /\ ConfigPatch.changes self' = ConfigPatch.changes self.
Proof.
  unfold ConfigPatch._adapt. intros H.
  apply bind_Ok_inv in H as (base & Hbase & H).
  apply bind_Ok_inv in H as (target & Htarget & H). injection H as <-.
  apply no_ignored_remove_ignored_sections in Hbase, Htarget.
  set (self0 := ConfigPatch.with_target (ConfigPatch.with_base self base) target).
  destruct (no_ignored_rename_base_sections self0 Hbase) as (H1 & H2 & H3).
  assert (Hr : patch_no_ignored (ConfigPatch._rename_base_sections self0)).
  { split; [exact H1|]. rewrite H2. exact Htarget. }
  destruct (no_ignored_match_base_sections _ Hr) as [Hm Hmc].
  destruct (no_ignored_create_missing_base_sections _ Hm) as [Hc Hcc].
  split; [exact Hc|]. rewrite Hcc, Hmc, H3. reflexivity.
Qed.

Lemma compare_other_sections_keys (self : ConfigPatch.t) (changes1 : list Change) :
  ConfigPatch.compare_other_sections self = Ok changes1 ->
  exists others, changes1 = (ConfigPatch.changes self ++ others)%list
    /\ Forall (fun c => exists l, slot (ConfigPatch.target_config self) (section_key c) l)
         others.
Proof.
  unfold ConfigPatch.compare_other_sections.
  assert (HK : forall k, In k (PclusterConfig.get_section_keys (ConfigPatch.target_config self))
                 -> exists l, slot (ConfigPatch.target_config self) k l).
  { intros k. apply In_get_section_keys. }
  revert HK. generalize (ConfigPatch.changes self).
  induction (PclusterConfig.get_section_keys (ConfigPatch.target_config self))
    as [|k keys IH]; intros changes HK H; cbn [for_each] in H.
  - injection H as <-. exists []. rewrite app_nil_r. split; [reflexivity | constructor].
  - apply bind_Ok_inv in H as (changes' & Hk & H).
    apply IH in H as (others2 & -> & Ho2); [|intros k' Hk'; apply HK; right; exact Hk'].
    destruct (String.eqb_spec k "cluster") as [->|Hne]; simpl in Hk.
    + injection Hk as <-. exists others2. auto.
    + apply compare_sections_of_key with (k := k) in Hk as (new & -> & Hnew);
        [|intros ts Hin; apply In_get_sections in Hin as [_ Hk']; exact Hk'].
      exists (new ++ others2)%list. rewrite app_assoc. split; [reflexivity|].
      apply Forall_app. split; [|exact Ho2].
      eapply List.Forall_impl; [|exact Hnew]. simpl. intros c ->.
      apply HK. left. reflexivity.
Qed.

(** X25: a patch never reports a change in an ignored section: when the
    construction of a patch returns, no change of the patch has [global] or
    [aliases] as its section key. *)
Theorem patch_reports_no_ignored_section
    (base_config target_config : PclusterConfig.t) (patch : ConfigPatch.t) :
  ConfigPatch.init base_config target_config = Ok patch ->
  forall c, In c (ConfigPatch.changes patch) ->
    ~ In (section_key c) ConfigPatch.IGNORED_SECTIONS.
Proof.
  unfold ConfigPatch.init. intros H.
  apply bind_Ok_inv in H as (self & Hadapt & H).
  apply no_ignored_adapt in Hadapt as [[_ Ht] Hc]. simpl in Hc.
  unfold ConfigPatch._compare in H.
  apply bind_Ok_inv in H as (changes1 & H1 & H).
  apply bind_Ok_inv in H as (changes2 & H2 & H). injection H as <-. simpl.
  apply compare_other_sections_keys in H1 as (others & -> & Hothers).
  rewrite Hc in H2.
  destruct (PclusterConfig.get_section
              (ConfigPatch._remove_mock_sections (ConfigPatch.target_config self))
              "cluster" None) as [ts|] eqn:Hts; [|discriminate H2].
  unfold ConfigPatch._compare_section in H2.
  apply compare_params_differences in H2 as (new & -> & _ & Hnew).
  assert (Hcl : Sect.key ts = "cluster").
  { unfold PclusterConfig.get_section in Hts.
    assert (Hin : In ts (PclusterConfig.get_sections
                           (ConfigPatch._remove_mock_sections
                              (ConfigPatch.target_config self)) "cluster")).
    { destruct (PclusterConfig.get_sections _ "cluster"); [discriminate|].
      injection Hts as ->. left. reflexivity. }
    apply In_get_sections in Hin as [_ Hk]. exact Hk. }
  intros c Hin. apply in_app_or in Hin as [Hin|Hin].
  - rewrite List.Forall_forall in Hothers. destruct (Hothers c Hin) as (l & Hl).
    apply (Ht _ _ Hl).
  - apply Hnew in Hin as (p & old & _ & _ & _ & ->). simpl. rewrite Hcl.
    unfold ConfigPatch.IGNORED_SECTIONS. simpl. intuition discriminate.
Qed.

Lemma patch_reports_no_ignored_section_witness :
  Forall (fun c => ~ In (section_key c) ConfigPatch.IGNORED_SECTIONS)
    (ConfigPatch.changes (built one_vpc_config two_vpc_config)).
Proof.
  apply List.Forall_forall.
  apply (patch_reports_no_ignored_section one_vpc_config two_vpc_config).
  vm_compute. reflexivity.
Defined.

(** ** The adapted configurations *)

Lemma In_key_labels c k l : In (k, l) (key_labels c) <-> slot c k l.
Proof.
  unfold key_labels, slot, has. rewrite in_map_iff. split.
  - intros (s & [= Hk Hl] & Hin). exists (Sect.mock s), s. auto.
  - intros (m & s & Hin & Hk & Hl & _). exists s. split; [congruence | exact Hin].
Qed.

(** C2: after the adaptation the base and the target configuration of the
    patch hold sections with exactly the same (key, label) pairs, for the
    ignored keys too since no section of these is left; so the comparison
    finds for every section of the target the base section of its key and
    label. *)
Theorem adapt_same_key_label_pairs (self self' : ConfigPatch.t) :
  ConfigPatch._adapt self = Ok self' ->
  (forall k l,
     In (k, l) (key_labels (ConfigPatch.base_config self')) <->
     In (k, l) (key_labels (ConfigPatch.target_config self')))
  /\ (forall k l, In k ConfigPatch.IGNORED_SECTIONS ->
        ~ In (k, l) (key_labels (ConfigPatch.base_config self'))
        /\ ~ In (k, l) (key_labels (ConfigPatch.target_config self')))
  /\ (forall target_section,
        In target_section (PclusterConfig.sections (ConfigPatch.target_config self')) ->
        exists base_section,
          PclusterConfig.get_section (ConfigPatch.base_config self')
            (Sect.key target_section) (Some (Sect.label target_section))
          = Some base_section
          /\ Sect.key base_section = Sect.key target_section
          /\ Sect.label base_section = Sect.label target_section).
Proof.
  intros Hadapt.
  assert (Hsame : forall k l,
            slot (ConfigPatch.base_config self') k l
            <-> slot (ConfigPatch.target_config self') k l).
  { revert Hadapt. unfold ConfigPatch._adapt. intros H.
    apply bind_Ok_inv in H as (base & _ & H).
    apply bind_Ok_inv in H as (target & _ & H). injection H as <-.
    set (self1 := ConfigPatch.match_base_sections _).
    destruct (create_missing_base_sections_slots self1) as (Ht & Hb).
    intros k l. rewrite Hb, Ht. split.
    - intros [H|H]; [apply match_base_sections_slots; exact H | exact H].
    - auto. }
  split; [|split].
  - intros k l. rewrite !In_key_labels. apply Hsame.
  - intros k l Hk. apply no_ignored_adapt in Hadapt as [[Hb Ht] _].
    rewrite !In_key_labels. split; intros Hs; [apply (Hb k l Hs) | apply (Ht k l Hs)];
      exact Hk.
  - intros ts Hin.
    assert (Hs : slot (ConfigPatch.base_config self') (Sect.key ts) (Sect.label ts)).
    { apply Hsame. exists (Sect.mock ts), ts. auto. }
    apply get_section_slot in Hs as [b Hb]. exists b. split; [exact Hb|].
    apply get_section_at in Hb as (_ & Hk & Hl). auto.
Qed.

Lemma adapt_same_key_label_pairs_witness :
  key_labels (ConfigPatch.base_config
                (adapted (ConfigPatch.mk one_vpc_config two_vpc_config [])))
  = [("cluster", "default"); ("vpc", "_vpc"); ("vpc", "a"); ("vpc", "b")]
  /\ key_labels (ConfigPatch.target_config
                   (adapted (ConfigPatch.mk one_vpc_config two_vpc_config [])))
     = [("cluster", "default"); ("vpc", "a"); ("vpc", "b"); ("vpc", "_vpc")]
  /\ (In ("vpc", "_vpc")
        (key_labels (ConfigPatch.base_config
                       (adapted (ConfigPatch.mk one_vpc_config two_vpc_config []))))
      <-> In ("vpc", "_vpc")
            (key_labels (ConfigPatch.target_config
                           (adapted (ConfigPatch.mk one_vpc_config two_vpc_config []))))).
Proof.
  split; [vm_compute; reflexivity|]. split; [vm_compute; reflexivity|].
  refine (proj1 (adapt_same_key_label_pairs
                   (ConfigPatch.mk one_vpc_config two_vpc_config [])
                   (adapted (ConfigPatch.mk one_vpc_config two_vpc_config [])) _)
            "vpc" "_vpc").
  vm_compute. reflexivity.
Defined.

(** ** Settings parameters at the comparison *)

Lemma settings_value_refresh (L l : list Sect.t) (k : string) :
  PclusterConfig.settings_value (map (PclusterConfig.refresh_section L) l) k
  = PclusterConfig.settings_value l k.
Proof.
  unfold PclusterConfig.settings_value. do 3 f_equal.
  induction l as [|s l IH]; [reflexivity|].
  cbn [map List.filter].
  change (Sect.key (PclusterConfig.refresh_section L s)) with (Sect.key s).
  change (Sect.mock (PclusterConfig.refresh_section L s)) with (Sect.mock s).
  destruct (String.eqb (Sect.key s) k && negb (Sect.mock s)); cbn [map]; rewrite IH;
    reflexivity.
Qed.

Lemma settings_recomputed_refresh c : settings_recomputed (PclusterConfig.refresh c).
Proof.
  intros s p k Hs Hp Hk. unfold PclusterConfig.refresh in *. simpl in *.
  rewrite settings_value_refresh.
  apply in_map_iff in Hs as (s0 & <- & Hs0). simpl in Hp.
  apply in_map_iff in Hp as (p0 & <- & Hp0).
  unfold PclusterConfig.refresh_param in *.
  destruct (Param.referred_section_key p0) as [k'|] eqn:Hk'.
  - assert (k' = k) as -> by (simpl in Hk; congruence). reflexivity.
  - congruence.
Qed.

Lemma settings_recomputed_set_label c k old new :
  settings_recomputed (PclusterConfig.set_label c k old new).
Proof.
  unfold PclusterConfig.set_label. destruct (String.eqb old new);
    apply settings_recomputed_refresh.
Qed.

Lemma settings_recomputed_remove_key c k c' :
  PclusterConfig.remove_section c k None = Ok c' -> settings_recomputed c'.
Proof.
  unfold PclusterConfig.remove_section. destruct (Nat.ltb 1 _); [discriminate|].
  intros [= <-]. apply settings_recomputed_refresh.
Qed.

Lemma settings_recomputed_remove_ignored_sections c c' :
  ConfigPatch._remove_ignored_sections c = Ok c' -> settings_recomputed c'.
Proof.
  unfold ConfigPatch._remove_ignored_sections, ConfigPatch.IGNORED_SECTIONS.
  cbn [for_each]. intros H. apply bind_Ok_inv in H as (c1 & _ & H).
  apply bind_Ok_inv in H as (c2 & H2 & H). injection H as <-.
  eapply settings_recomputed_remove_key. exact H2.
Qed.

Lemma settings_recomputed_rename_base_sections self :
  settings_recomputed (ConfigPatch.base_config self) ->
  settings_recomputed (ConfigPatch.base_config (ConfigPatch._rename_base_sections self)).
Proof.
  intros H. unfold ConfigPatch._rename_base_sections. simpl.
  apply fold_left_preserves; [|exact H].
  intros base section_key _ Hbase.
  apply (fold_left_preserves (fun st : nat * PclusterConfig.t => settings_recomputed st.2));
    [|exact Hbase].
  intros [i b] base_section _ _. simpl. apply settings_recomputed_set_label.
Qed.

Lemma settings_recomputed_get_target_section self b :
  settings_recomputed (ConfigPatch.target_config self) ->
  settings_recomputed (ConfigPatch.target_config (ConfigPatch._get_target_section self b).1)
  /\ ConfigPatch.base_config (ConfigPatch._get_target_section self b).1
     = ConfigPatch.base_config self.
Proof.
  intros Ht.
  unfold ConfigPatch._get_target_section, ConfigPatch._create_default_section.
  destruct (match Sect.key_param b with Some _ => _ | None => _ end) as [s|]; simpl.
  - auto.
  - split; [|reflexivity]. apply settings_recomputed_refresh.
Qed.

Lemma settings_recomputed_match_base_section k0 self snapshot :
  settings_recomputed (ConfigPatch.base_config self) ->
  settings_recomputed (ConfigPatch.target_config self) ->
  settings_recomputed
    (ConfigPatch.base_config (ConfigPatch.match_base_section k0 self snapshot))
  /\ settings_recomputed
       (ConfigPatch.target_config (ConfigPatch.match_base_section k0 self snapshot)).
Proof.
  intros Hb Ht. unfold ConfigPatch.match_base_section.
  destruct (PclusterConfig.get_section (ConfigPatch.base_config self) k0
              (Some (Sect.label snapshot))) as [b|]; [|auto].
  destruct (settings_recomputed_get_target_section self b Ht) as [H1 _].
  destruct (ConfigPatch._get_target_section self b) as [self1 ts]. simpl in *.
  split; [apply settings_recomputed_set_label | exact H1].
Qed.

Lemma settings_recomputed_match_base_sections self :
  settings_recomputed (ConfigPatch.base_config self) ->
  settings_recomputed (ConfigPatch.target_config self) ->
  settings_recomputed (ConfigPatch.base_config (ConfigPatch.match_base_sections self))
  /\ settings_recomputed (ConfigPatch.target_config (ConfigPatch.match_base_sections self)).
Proof.
  intros Hb Ht. unfold ConfigPatch.match_base_sections.
  apply (fold_left_preserves
           (fun s => settings_recomputed (ConfigPatch.base_config s)
                     /\ settings_recomputed (ConfigPatch.target_config s))); [|auto].
  intros s k _ Hs.
  apply (fold_left_preserves
           (fun s => settings_recomputed (ConfigPatch.base_config s)
                     /\ settings_recomputed (ConfigPatch.target_config s))); [|exact Hs].
  intros s' x _ [Hb' Ht']. apply settings_recomputed_match_base_section; assumption.
Qed.

Lemma settings_recomputed_get_base_section self ts :
  settings_recomputed (ConfigPatch.base_config self) ->
  settings_recomputed (ConfigPatch.base_config (ConfigPatch._get_base_section self ts).1)
  /\ ConfigPatch.target_config (ConfigPatch._get_base_section self ts).1
     = ConfigPatch.target_config self.
Proof.
  intros Hb.
  unfold ConfigPatch._get_base_section, ConfigPatch._create_default_section.
  destruct (PclusterConfig.get_section _ _ _) as [s|]; simpl.
  - auto.
  - split; [|reflexivity]. apply settings_recomputed_refresh.
Qed.

Lemma settings_recomputed_create_missing_base_sections self :
  settings_recomputed (ConfigPatch.base_config self) ->
  settings_recomputed (ConfigPatch.target_config self) ->
  settings_recomputed
    (ConfigPatch.base_config (ConfigPatch.create_missing_base_sections self))
  /\ settings_recomputed
       (ConfigPatch.target_config (ConfigPatch.create_missing_base_sections self)).
Proof.
  intros Hb Ht. unfold ConfigPatch.create_missing_base_sections.
  apply (fold_left_preserves
           (fun s => settings_recomputed (ConfigPatch.base_config s)
                     /\ settings_recomputed (ConfigPatch.target_config s))); [|auto].
  intros s k _ Hs.
  apply (fold_left_preserves
           (fun s => settings_recomputed (ConfigPatch.base_config s)
                     /\ settings_recomputed (ConfigPatch.target_config s))); [|exact Hs].
  intros s' x _ [Hb' Ht'].
  destruct (settings_recomputed_get_base_section s' x Hb') as [H1 H2].
  split; [exact H1 | rewrite H2; exact Ht'].
Qed.

Lemma settings_recomputed_adapt self self' :
  ConfigPatch._adapt self = Ok self' ->
  settings_recomputed (ConfigPatch.base_config self')
  /\ settings_recomputed (ConfigPatch.target_config self').
Proof.
  unfold ConfigPatch._adapt. intros H.
  apply bind_Ok_inv in H as (base & Hbase & H).
  apply bind_Ok_inv in H as (target & Htarget & H). injection H as <-.
  apply settings_recomputed_remove_ignored_sections in Hbase, Htarget.
  set (self0 := ConfigPatch.with_target (ConfigPatch.with_base self base) target).
  pose proof (settings_recomputed_rename_base_sections self0 Hbase) as H1.
  assert (H2 : settings_recomputed
                 (ConfigPatch.target_config (ConfigPatch._rename_base_sections self0)))
    by exact Htarget.
  destruct (settings_recomputed_match_base_sections _ H1 H2) as [H3 H4].
  apply settings_recomputed_create_missing_base_sections; assumption.
Qed.

Lemma settings_recomputed_remove_mock_sections c :
  settings_recomputed c -> settings_recomputed (ConfigPatch._remove_mock_sections c).
Proof.
  intros Hc. unfold ConfigPatch._remove_mock_sections.
  generalize (PclusterConfig.get_section_keys c). intros keys.
  apply fold_left_preserves; [|exact Hc].
  intros config section_key _ Hconfig.
  apply fold_left_preserves; [|exact Hconfig].
  intros config' section _ Hconfig'. destruct (Sect.mock section); [|exact Hconfig'].
  apply settings_recomputed_refresh.
Qed.

Lemma settings_value_no_mock c k :
  (forall s, In s (PclusterConfig.sections c) -> Sect.mock s = false) ->
  PclusterConfig.settings_value (PclusterConfig.sections c) k = labels_of_key c k.
Proof.
  intros Hmock. unfold PclusterConfig.settings_value, labels_of_key,
    PclusterConfig.get_sections. do 4 f_equal.
  induction (PclusterConfig.sections c) as [|s l IH]; simpl; [reflexivity|].
  rewrite (Hmock s) by (left; reflexivity). rewrite andb_true_r.
  rewrite IH by (intros s' Hs'; apply Hmock; right; exact Hs'). reflexivity.
Qed.

Lemma settled_remove_mock_sections c :
  settings_recomputed c -> settled (ConfigPatch._remove_mock_sections c).
Proof.
  intros Hc.
  assert (Hmock : forall s,
            In s (PclusterConfig.sections (ConfigPatch._remove_mock_sections c)) ->
            Sect.mock s = false).
  { intros s Hin. destruct (Sect.mock s) eqn:Hm; [|reflexivity]. exfalso.
    assert (H : has (ConfigPatch._remove_mock_sections c)
                  (Sect.key s) (Sect.label s) true) by (exists s; auto).
    apply has_remove_mock_sections in H as [H Hn]. auto. }
  split; [exact Hmock|]. intros s p k Hs Hp Hk.
  rewrite <- (settings_value_no_mock _ k Hmock).
  apply (settings_recomputed_remove_mock_sections c Hc s p k); assumption.
Qed.

Lemma mock_label_removed c m :
  In m (PclusterConfig.sections c) -> Sect.mock m = true ->
  ~ In (Sect.label m)
      (map Sect.label
         (PclusterConfig.get_sections (ConfigPatch._remove_mock_sections c) (Sect.key m))).
Proof.
  intros Hin Hm Hl. apply in_map_iff in Hl as (s & Hl & Hs).
  apply In_get_sections in Hs as [Hs Hk].
  assert (H : has (ConfigPatch._remove_mock_sections c) (Sect.key m) (Sect.label m)
                (Sect.mock s)) by (exists s; auto).
  apply has_remove_mock_sections in H as [_ Hn]. apply Hn. exists m. auto.
Qed.

(** C5: when a patch is constructed, the [cluster] sections are compared
    after the mock sections are removed from the adapted base and the adapted
    target configuration, and in the configurations compared every settings
    parameter is recomputed: its value is the sorted, comma-joined labels of
    the sections of its referred key that are left, none of them mock, so
    the label of no mock section of the adapted configurations is counted
    in it. *)
Theorem cluster_compared_with_settings_recomputed
    (base_copy target_copy : PclusterConfig.t) (patch : ConfigPatch.t) :
  ConfigPatch.init base_copy target_copy = Ok patch ->
  exists self changes1,
    ConfigPatch._adapt (ConfigPatch.mk base_copy target_copy []) = Ok self
    /\ ConfigPatch.compare_other_sections self = Ok changes1
    /\ ConfigPatch.base_config patch
       = ConfigPatch._remove_mock_sections (ConfigPatch.base_config self)
    /\ ConfigPatch.target_config patch
       = ConfigPatch._remove_mock_sections (ConfigPatch.target_config self)
    /\ ConfigPatch._compare_section
         (PclusterConfig.get_section (ConfigPatch.base_config patch) "cluster" None)
         (PclusterConfig.get_section (ConfigPatch.target_config patch) "cluster" None)
         changes1
       = Ok (ConfigPatch.changes patch)
    /\ settled (ConfigPatch.base_config patch)
    /\ settled (ConfigPatch.target_config patch)
    /\ (forall m, In m (PclusterConfig.sections (ConfigPatch.base_config self)) ->
          Sect.mock m = true ->
          ~ In (Sect.label m)
              (map Sect.label
                 (PclusterConfig.get_sections (ConfigPatch.base_config patch)
                    (Sect.key m))))
    /\ (forall m, In m (PclusterConfig.sections (ConfigPatch.target_config self)) ->
          Sect.mock m = true ->
          ~ In (Sect.label m)
              (map Sect.label
                 (PclusterConfig.get_sections (ConfigPatch.target_config patch)
                    (Sect.key m)))).
Proof.
  unfold ConfigPatch.init. intros H.
  apply bind_Ok_inv in H as (self & Hadapt & H).
  unfold ConfigPatch._compare in H.
  apply bind_Ok_inv in H as (changes1 & H1 & H).
  apply bind_Ok_inv in H as (changes2 & H2 & H). injection H as <-. simpl.
  exists self, changes1.
  destruct (settings_recomputed_adapt _ _ Hadapt) as [Hb Ht].
  split; [exact Hadapt|]. split; [exact H1|]. split; [reflexivity|].
  split; [reflexivity|]. split; [exact H2|].
  split; [apply settled_remove_mock_sections; exact Hb|].
  split; [apply settled_remove_mock_sections; exact Ht|].
  split; intros m; apply mock_label_removed.
Qed.

Lemma cluster_compared_with_settings_recomputed_witness :
  exists self changes1,
    ConfigPatch._adapt (ConfigPatch.mk two_ebs_config one_ebs_config []) = Ok self
    /\ ConfigPatch.compare_other_sections self = Ok changes1
    /\ ConfigPatch.base_config (built two_ebs_config one_ebs_config)
       = ConfigPatch._remove_mock_sections (ConfigPatch.base_config self)
    /\ ConfigPatch.target_config (built two_ebs_config one_ebs_config)
       = ConfigPatch._remove_mock_sections (ConfigPatch.target_config self)
    /\ ConfigPatch._compare_section
         (PclusterConfig.get_section
            (ConfigPatch.base_config (built two_ebs_config one_ebs_config)) "cluster" None)
         (PclusterConfig.get_section
            (ConfigPatch.target_config (built two_ebs_config one_ebs_config)) "cluster" None)
         changes1
       = Ok (ConfigPatch.changes (built two_ebs_config one_ebs_config))
    /\ settled (ConfigPatch.base_config (built two_ebs_config one_ebs_config))
    /\ settled (ConfigPatch.target_config (built two_ebs_config one_ebs_config))
    /\ has (ConfigPatch.target_config self) "ebs" "_ebs" true
    /\ PclusterConfig.get_section
         (ConfigPatch.target_config (built two_ebs_config one_ebs_config)) "cluster" None
       = Some (ebs_cluster_section "ebs-2").
Proof.
  destruct (cluster_compared_with_settings_recomputed two_ebs_config one_ebs_config
              (built two_ebs_config one_ebs_config))
    as (self & changes1 & Hadapt & H1 & H2 & H3 & H4 & H5 & H6 & _);
    [vm_compute; reflexivity|].
  exists self, changes1.
  split; [exact Hadapt|]. split; [exact H1|]. split; [exact H2|]. split; [exact H3|].
  split; [exact H4|]. split; [exact H5|]. split; [exact H6|].
  split; [|vm_compute; reflexivity].
  vm_compute in Hadapt. injection Hadapt as <-.
  eexists. split; [right; right; left; reflexivity|]. repeat split.
Defined.

(** ** Several sections of a key without key parameter *)



